(** * PyLine2: timeline audio engine

    A shallow embedding of the timeline model (TimelineModel.h), of the
    render job (PythonRenderer.cpp) and of the time mapping, automation,
    cut, waveform and undo code of the main component, with the properties
    the specification states about them.

    Conventions of the embedding.
    - [double] and [float] values are exact rationals ([Q]); rounding error,
      NaN and infinities are outside the model.  Results are compared with
      [==] ([Qeq]) because a rational has several representations.
    - [int] values are integers ([Z]).  The only conversion that can leave
      the range of [int] is the cast of a [double] in the cut operation; it is
      modelled as a partial function.
    - [juce::String] and the path of a [juce::File] are [string]s.
    - an owned pointer ([std::unique_ptr]) is an [option]. *)

From Stdlib Require Import ZArith QArith Qround Qabs.
From Stdlib Require Import List String Ascii Bool Lia Lqa Permutation.
Import ListNotations.

Local Open Scope Q_scope.

(** ** Comparisons on rationals as booleans *)

Definition Qleb (x y : Q) : bool := Qle_bool x y.
Definition Qltb (x y : Q) : bool := negb (Qle_bool y x).

(** ** The JUCE helpers the code calls (juce_MathsFunctions.h) *)

Module Juce.

(** [jmax (a, b)] is [a < b ? b : a]. *)
Definition jmax (a b : Q) : Q := if Qltb a b then b else a.

(** [jmin (a, b)] is [b < a ? b : a]. *)
Definition jmin (a b : Q) : Q := if Qltb b a then b else a.

(** [jlimit (lower, upper, v)] is
    [v < lower ? lower : (upper < v ? upper : v)]. *)
Definition jlimit (lower upper v : Q) : Q :=
  if Qltb v lower then lower else if Qltb upper v then upper else v.

(** The same three helpers at type [int]. *)
Definition jmaxZ (a b : Z) : Z := if (a <? b)%Z then b else a.
Definition jminZ (a b : Z) : Z := if (b <? a)%Z then b else a.
Definition jlimitZ (lower upper v : Z) : Z :=
  if (v <? lower)%Z then lower else if (upper <? v)%Z then upper else v.

(** [std::numeric_limits<double>::min()] and [::epsilon()]. *)
Definition DBL_MIN : Q := 1 / inject_Z (2 ^ 1022).
Definition DBL_EPSILON : Q := 1 / inject_Z (2 ^ 52).

(** [approximatelyEqual (a, b)] with its default tolerances: the difference
    is at most [DBL_MIN], or at most [DBL_EPSILON] times the larger
    magnitude.  (Its first test, on non-finite arguments, has no
    counterpart here.) *)
Definition approximatelyEqual (a b : Q) : bool :=
  let diff := Qabs (a - b) in
  Qleb diff DBL_MIN || Qleb diff (DBL_EPSILON * jmax (Qabs a) (Qabs b)).

End Juce.

(** ** The <cmath> functions the code calls *)

Module Cmath.

(** Truncation toward zero. *)
Definition trunc (x : Q) : Z := Z.quot (Qnum x) (Zpos (Qden x)).

(** [std::fmod (x, y)]: [x - n * y] where [n] is [x / y] truncated toward
    zero.  The code calls it with [y > 0] only. *)
Definition fmod (x y : Q) : Q := x - inject_Z (trunc (x / y)) * y.

(** [std::round]: to the nearest integer, halfway cases away from zero. *)
Definition round (x : Q) : Z :=
  if Qleb 0 x then Qfloor (x + (1 # 2)) else (- Qfloor (- x + (1 # 2)))%Z.

(** The floored remainder, for comparison: [x - floor (x / y) * y]. *)
Definition floor_mod (x y : Q) : Q := x - inject_Z (Qfloor (x / y)) * y.

End Cmath.

(** ** The data model (TimelineModel.h) *)

(** [juce::AudioBuffer<float>]: the sample count and one list of samples per
    channel. *)
Record AudioBuffer := mkAudioBuffer {
  numSamples : Z;
  channelData : list (list Q)
}.

Definition getNumChannels (b : AudioBuffer) : Z :=
  Z.of_nat (List.length (channelData b)).

Definition getSample (b : AudioBuffer) (ch s : Z) : Q :=
  nth (Z.to_nat s) (nth (Z.to_nat ch) (channelData b) []) 0.

Record Marker := mkMarker {
  startTimeSeconds : Q;
  isDragging : bool;
  renderBars : Z;
  lastRenderedTempoBpm : Q;
  lastRenderedDurationSeconds : Q;
  lastRenderedPythonPath : string;
  waveform : list Q;
  fadeInSeconds : Q;
  fadeOutSeconds : Q;
  pythonFile : string;
  renderedWavFile : string;
  renderedBuffer : option AudioBuffer;
  renderedSampleRate : Q
}.

Record AutomationPoint := mkAutomationPoint {
  id : Z;
  timeSeconds : Q;
  value : Q
}.

Record Timeline := mkTimeline {
  tempoBpm : Q;
  durationSeconds : Q;
  beatsPerBar : Z;
  beatUnit : Z;
  viewStartSeconds : Q;
  viewDurationSeconds : Q;
  volume : Q;
  pan : Q;
  nextAutomationId : Z;
  volumeAutomation : list AutomationPoint;
  panAutomation : list AutomationPoint;
  automationExpanded : bool;
  zoomY : Q;
  automationZoomY : Q;
  repeatMarkers : list Q;
  markers : list Marker
}.

(** ** Time mapping *)

(** [getLoopedLocalTime]: the branches follow the size of [repeatMarkers]. *)
Definition getLoopedLocalTime (t : Q) (timeline : Timeline) : Q :=
  if Qleb (durationSeconds timeline) 0 then 0
  else
    match repeatMarkers timeline with
    | [loopStart] =>
        if Qltb 0 loopStart && Qleb loopStart t then
          let localTime := Cmath.fmod t loopStart in
          if Qltb localTime 0 then localTime + loopStart else localTime
        else Juce.jlimit 0 (durationSeconds timeline) t
    | loopStart :: loopEnd :: _ =>
        if Qltb loopStart loopEnd && Qleb loopStart t then
          let loopLen := loopEnd - loopStart in
          let localTime := loopStart + Cmath.fmod (t - loopStart) loopLen in
          if Qltb localTime loopStart then localTime + loopLen else localTime
        else Juce.jlimit 0 (durationSeconds timeline) t
    | [] =>
        let localTime := Cmath.fmod t (durationSeconds timeline) in
        if Qltb localTime 0 then localTime + durationSeconds timeline
        else localTime
    end.

(** The formula of the specification, [((t mod m) + m) mod m], over a given
    remainder operation. *)
Definition wrapFormula (md : Q -> Q -> Q) (t m : Q) : Q := md (md t m + m) m.

(** ** Automation curves *)

(** The loop of [evalAutomation] over [i = 1 .. size - 1]: [prev] is
    [points[i - 1]], the head of [rest] is [points[i]], and [back] is the
    value returned when the loop runs out. *)
Fixpoint evalAutomationLoop (prev : AutomationPoint)
    (rest : list AutomationPoint) (t back : Q) : Q :=
  match rest with
  | [] => back
  | b :: rest' =>
      if Qleb t (timeSeconds b) then
        let a := prev in
        let span := timeSeconds b - timeSeconds a in
        if Qleb span 0 then value b
        else
          let u := (t - timeSeconds a) / span in
          value a + u * (value b - value a)
      else evalAutomationLoop b rest' t back
  end.

Definition evalAutomation (points : list AutomationPoint)
    (t defaultValue : Q) : Q :=
  match points with
  | [] => defaultValue
  | front :: rest =>
      let back := last points front in
      if Qleb t (timeSeconds front) then value front
      else if Qleb (timeSeconds back) t then value back
      else evalAutomationLoop front rest t (value back)
  end.

(** A lane sorted ascending by time. *)
Fixpoint laneSorted (points : list AutomationPoint) : Prop :=
  match points with
  | [] => True
  | a :: rest =>
      match rest with
      | [] => True
      | b :: _ => timeSeconds a <= timeSeconds b /\ laneSorted rest
      end
  end.

(** ** Render duration and the re-render decision *)

Definition toLowerCase (c : ascii) : ascii :=
  let n := nat_of_ascii c in
  if (65 <=? n)%nat && (n <=? 90)%nat then ascii_of_nat (n + 32) else c.

Fixpoint startsWithIgnoreCase (s prefix : string) : bool :=
  match prefix, s with
  | EmptyString, _ => true
  | String _ _, EmptyString => false
  | String p ps, String c cs =>
      Ascii.eqb (toLowerCase c) (toLowerCase p) && startsWithIgnoreCase cs ps
  end.

(** [File::getFileName]: what follows the last separator of the path. *)
Fixpoint getFileNameFrom (path current : string) : string :=
  match path with
  | EmptyString => current
  | String c rest =>
      if Ascii.eqb c "/"%char then getFileNameFrom rest rest
      else getFileNameFrom rest current
  end.

Definition getFileName (file : string) : string := getFileNameFrom file file.
Definition getFullPathName (file : string) : string := file.

Definition isAlvaSynthFile (file : string) : bool :=
  startsWithIgnoreCase (getFileName file) "alva_".

Definition getRenderDurationSecondsForMarker (timeline : Timeline)
    (marker : Marker) : Q :=
  let tempo := Juce.jmax 1 (tempoBpm timeline) in
  let beatUnit' := inject_Z (Juce.jmaxZ 1 (beatUnit timeline)) in
  let beatsPerBar' := inject_Z (Juce.jmaxZ 1 (beatsPerBar timeline)) in
  let beatSeconds := (60 / tempo) * (4 / beatUnit') in
  let barSeconds := beatSeconds * beatsPerBar' in
  if (0 <? renderBars marker)%Z then
    Juce.jmax (1 # 100) (barSeconds * inject_Z (renderBars marker))
  else if isAlvaSynthFile (pythonFile marker) then
    Juce.jmax (1 # 100) barSeconds
  else durationSeconds timeline.

(** The flag [needsRerender] of [rerenderTimelineMarkersIfNeeded], set by
    three successive tests. *)
Definition needsRerender (timeline : Timeline) (marker : Marker) : bool :=
  let needs := false in
  let needs :=
    if negb (String.eqb (lastRenderedPythonPath marker)
                        (getFullPathName (pythonFile marker)))
    then true else needs in
  let needs :=
    if negb (Juce.approximatelyEqual (lastRenderedTempoBpm marker)
                                     (tempoBpm timeline))
    then true else needs in
  let desiredDuration := getRenderDurationSecondsForMarker timeline marker in
  let needs :=
    if negb (Juce.approximatelyEqual (lastRenderedDurationSeconds marker)
                                     desiredDuration)
    then true else needs in
  needs.

(** ** Waveform summary *)

(** The integers [lo], [lo + 1], ..., [lo + n - 1]: the range of a counting
    [for] loop. *)
Definition zrange (lo : Z) (n : nat) : list Z :=
  map (fun k => (lo + Z.of_nat k)%Z) (seq 0 n).

Definition points : Z := 200.

(** [start] and [end] of bin [i], as both copies of the loop compute them. *)
Definition binStart (total i : Z) : Z := Z.quot (i * total) points.

Definition binEnd (total i : Z) : Z :=
  let start := binStart total i in
  let end_ := Z.quot ((i + 1) * total) points in
  let end_ := if (end_ <=? start)%Z then (start + 1)%Z else end_ in
  Juce.jminZ end_ total.

(** The inner loop over the channels at sample [s]. *)
Definition samplePeak (buf : AudioBuffer) (s : Z) : Q :=
  fold_left (fun v ch => Juce.jmax v (Qabs (getSample buf ch s)))
            (zrange 0 (Z.to_nat (getNumChannels buf))) 0.

(** The loop over the samples [start <= s < end_]. *)
Definition binPeak (buf : AudioBuffer) (start end_ : Z) : Q :=
  fold_left (fun peak s => Juce.jmax peak (samplePeak buf s))
            (zrange start (Z.to_nat (end_ - start))) 0.

(** The waveform the loop leaves: 200 zeros, overwritten bin by bin when the
    buffer is present and has samples. *)
Definition computeWaveform (rendered : option AudioBuffer) : list Q :=
  let cleared := repeat 0 (Z.to_nat points) in
  match rendered with
  | None => cleared
  | Some buf =>
      if (numSamples buf <=? 0)%Z then cleared
      else
        let total := numSamples buf in
        map (fun i => Juce.jlimit 0 1
                        (binPeak buf (binStart total i) (binEnd total i)))
            (zrange 0 (Z.to_nat points))
  end.

(** The binning in the words of the specification: the bins all have one
    width, except that the last one may be shorter. *)
Definition equalWidthBins (total : Z) : Prop :=
  exists width : Z,
    (forall i, (0 <= i < points - 1)%Z ->
               (binEnd total i - binStart total i)%Z = width) /\
    (binEnd total (points - 1) - binStart total (points - 1) <= width)%Z.

(** Field updates of a marker. *)
Definition setWaveform (w : list Q) (m : Marker) : Marker :=
  mkMarker (startTimeSeconds m) (isDragging m) (renderBars m)
    (lastRenderedTempoBpm m) (lastRenderedDurationSeconds m)
    (lastRenderedPythonPath m) w (fadeInSeconds m) (fadeOutSeconds m)
    (pythonFile m) (renderedWavFile m) (renderedBuffer m)
    (renderedSampleRate m).

Definition setRenderedBuffer (b : option AudioBuffer) (m : Marker) : Marker :=
  mkMarker (startTimeSeconds m) (isDragging m) (renderBars m)
    (lastRenderedTempoBpm m) (lastRenderedDurationSeconds m)
    (lastRenderedPythonPath m) (waveform m) (fadeInSeconds m)
    (fadeOutSeconds m) (pythonFile m) (renderedWavFile m) b
    (renderedSampleRate m).

Definition setFades (fadeIn fadeOut : Q) (m : Marker) : Marker :=
  mkMarker (startTimeSeconds m) (isDragging m) (renderBars m)
    (lastRenderedTempoBpm m) (lastRenderedDurationSeconds m)
    (lastRenderedPythonPath m) (waveform m) fadeIn fadeOut
    (pythonFile m) (renderedWavFile m) (renderedBuffer m)
    (renderedSampleRate m).

Definition setRenderedWavFile (f : string) (m : Marker) : Marker :=
  mkMarker (startTimeSeconds m) (isDragging m) (renderBars m)
    (lastRenderedTempoBpm m) (lastRenderedDurationSeconds m)
    (lastRenderedPythonPath m) (waveform m) (fadeInSeconds m)
    (fadeOutSeconds m) (pythonFile m) f (renderedBuffer m)
    (renderedSampleRate m).

(** The stamp a successful render leaves: sample rate, tempo, duration and
    source path. *)
Definition setRenderStamp (rate tempo duration : Q) (path : string)
    (m : Marker) : Marker :=
  mkMarker (startTimeSeconds m) (isDragging m) (renderBars m)
    tempo duration path (waveform m) (fadeInSeconds m) (fadeOutSeconds m)
    (pythonFile m) (renderedWavFile m) (renderedBuffer m) rate.

Definition recomputeWaveform (marker : Marker) : Marker :=
  setWaveform (computeWaveform (renderedBuffer marker)) marker.

(** ** The renderer (PythonRenderer.cpp) *)

Module PythonRenderer.

(** A [Marker&] is the place of the marker in the model: the index of its
    timeline and its index in that timeline's [markers]. *)
Definition MarkerRef : Type := (nat * nat)%type.

Definition markerRef_eqb (a b : MarkerRef) : bool :=
  Nat.eqb (fst a) (fst b) && Nat.eqb (snd a) (snd b).

(** The job object; [callback] tells whether the [std::function] holds a
    target. *)
Record RenderJob := mkRenderJob {
  markerRef : MarkerRef;
  sampleRate : Q;
  durationSeconds : Q;
  tempoBpm : Q;
  callback : bool
}.

(** [juce::ThreadPool]: the list of its jobs, each running or waiting. *)
Record PoolEntry := mkPoolEntry {
  job : RenderJob;
  isActive : bool
}.

Definition ThreadPool : Type := list PoolEntry.

(** [pool (2)] in the constructor. *)
Definition numThreads : nat := 2.

Definition addJob (pool : ThreadPool) (j : RenderJob) : ThreadPool :=
  pool ++ [mkPoolEntry j false].

Definition renderMarker (pool : ThreadPool) (marker : MarkerRef)
    (sampleRate durationSeconds tempoBpm : Q) (callback : bool)
    : ThreadPool :=
  addJob pool
    (mkRenderJob marker sampleRate durationSeconds tempoBpm callback).

(** What the worker threads do with the list: an idle thread marks the
    first waiting job active; a finished job leaves the list. *)
Definition numActive (pool : ThreadPool) : nat :=
  List.length (filter isActive pool).

Fixpoint activateFirstWaiting (pool : ThreadPool) : ThreadPool :=
  match pool with
  | [] => []
  | e :: rest =>
      if isActive e then e :: activateFirstWaiting rest
      else mkPoolEntry (job e) true :: rest
  end.

Definition startNextJob (pool : ThreadPool) : ThreadPool :=
  if (numActive pool <? numThreads)%nat then activateFirstWaiting pool
  else pool.

Fixpoint finishJob (i : nat) (pool : ThreadPool) : ThreadPool :=
  match pool, i with
  | [], _ => []
  | e :: rest, O => if isActive e then rest else e :: rest
  | e :: rest, S i' => e :: finishJob i' rest
  end.

Inductive PoolEvent :=
| Submit (j : RenderJob)
| Start
| Finish (i : nat).

Definition poolStep (pool : ThreadPool) (ev : PoolEvent) : ThreadPool :=
  match ev with
  | Submit j => addJob pool j
  | Start => startNextJob pool
  | Finish i => finishJob i pool
  end.

Definition runPool (events : list PoolEvent) : ThreadPool :=
  fold_left poolStep events [].

(** The jobs of the pool, running or waiting, that are for [marker]. *)
Definition outstanding (pool : ThreadPool) (marker : MarkerRef) : nat :=
  List.length (filter (fun e => markerRef_eqb (markerRef (job e)) marker) pool).

(** The jobs of the pool that are running for [marker]. *)
Definition inFlight (pool : ThreadPool) (marker : MarkerRef) : nat :=
  List.length
    (filter (fun e => isActive e && markerRef_eqb (markerRef (job e)) marker)
            pool).

End PythonRenderer.

(** *** The render job *)

Module RenderJob.

(** An argument on the command line of the child process: a text, or a
    number written with three decimals. *)
Inductive ProcessArg :=
| ArgText (s : string)
| ArgDecimal3 (x : Q).

(** What [AudioFormatManager::createReaderFor] yields on a readable file:
    the sample rate and the samples that [read] delivers. *)
Record AudioFormatReader := mkReader {
  readerSampleRate : Q;
  readerSamples : AudioBuffer
}.

(** Everything outside the program that a job consults. *)
Record World := mkWorld {
  existsAsFile : string -> bool;
  tempDirectory : string;
  randomHex : string;
  processStart : list ProcessArg -> bool;
  existsAfterWait : string -> bool;
  createReaderFor : string -> option AudioFormatReader
}.

Definition PYTHON_EXECUTABLE_PATH : string := "/usr/bin/python3".

Definition getChildFile (dir name : string) : string :=
  (dir ++ "/" ++ name)%string.

(** [if (callback) callback (success, message)]: the calls made. *)
Definition invoke (callback success : bool) (message : string)
    : list (bool * string) :=
  if callback then [(success, message)] else [].

(** [runJob]: the marker after the job and the calls of the callback. *)
Definition runJob (w : World) (j : PythonRenderer.RenderJob)
    (marker : Marker) : Marker * list (bool * string) :=
  let callback := PythonRenderer.callback j in
  if negb (existsAsFile w (pythonFile marker)) then
    (marker, invoke callback false "Python file does not exist")
  else
    let fileName := ("render_" ++ randomHex w ++ ".wav")%string in
    let marker :=
      setRenderedWavFile (getChildFile (tempDirectory w) fileName) marker in
    let args :=
      [ ArgText PYTHON_EXECUTABLE_PATH;
        ArgText (getFullPathName (pythonFile marker));
        ArgText (getFullPathName (renderedWavFile marker));
        ArgDecimal3 (PythonRenderer.sampleRate j);
        ArgDecimal3 (PythonRenderer.durationSeconds j) ] in
    if negb (processStart w args) then
      (marker, invoke callback false "Failed to start python process")
    else if negb (existsAfterWait w (renderedWavFile marker)) then
      (marker, invoke callback false "Python did not produce a WAV file")
    else
      match createReaderFor w (renderedWavFile marker) with
      | None =>
          (marker, invoke callback false "Failed to read rendered WAV")
      | Some reader =>
          let buffer := readerSamples reader in
          let marker := setRenderedBuffer (Some buffer) marker in
          let marker :=
            setRenderStamp (readerSampleRate reader)
              (PythonRenderer.tempoBpm j) (PythonRenderer.durationSeconds j)
              (getFullPathName (pythonFile marker)) marker in
          let marker :=
            setWaveform (computeWaveform (renderedBuffer marker)) marker in
          (marker, invoke callback true "Render complete")
      end.

(** The four ways a job fails. *)
Inductive Failure :=
| MissingSource
| ProcessStartFailure
| NoOutputProduced
| UnreadableOutput.

Definition wavPath (w : World) : string :=
  getChildFile (tempDirectory w) ("render_" ++ randomHex w ++ ".wav")%string.

Definition commandLine (w : World) (j : PythonRenderer.RenderJob)
    (marker : Marker) : list ProcessArg :=
  [ ArgText PYTHON_EXECUTABLE_PATH;
    ArgText (pythonFile marker);
    ArgText (wavPath w);
    ArgDecimal3 (PythonRenderer.sampleRate j);
    ArgDecimal3 (PythonRenderer.durationSeconds j) ].

(** When each failure occurs: the source file is missing; or it is there
    and the process does not start; or the process starts and no file is
    there after the wait (two minutes at most); or the file is there and
    cannot be read. *)
Definition failsWith (w : World) (j : PythonRenderer.RenderJob)
    (marker : Marker) (f : Failure) : Prop :=
  match f with
  | MissingSource => existsAsFile w (pythonFile marker) = false
  | ProcessStartFailure =>
      existsAsFile w (pythonFile marker) = true /\
      processStart w (commandLine w j marker) = false
  | NoOutputProduced =>
      existsAsFile w (pythonFile marker) = true /\
      processStart w (commandLine w j marker) = true /\
      existsAfterWait w (wavPath w) = false
  | UnreadableOutput =>
      existsAsFile w (pythonFile marker) = true /\
      processStart w (commandLine w j marker) = true /\
      existsAfterWait w (wavPath w) = true /\
      createReaderFor w (wavPath w) = None
  end.

End RenderJob.

(** ** The re-render sweep of the timeline view *)

(** The loop of [rerenderTimelineMarkersIfNeeded] from marker [i] on: a job
    is submitted for each marker whose flag is set.  [sampleRateForRender]
    is the member of the timeline view (44100 until the device sets it). *)
Fixpoint rerenderMarkersFrom (sampleRateForRender : Q)
    (timelineIndex i : nat) (timeline : Timeline)
    (ms : list Marker) (pool : PythonRenderer.ThreadPool)
    : PythonRenderer.ThreadPool :=
  match ms with
  | [] => pool
  | marker :: rest =>
      let pool :=
        if needsRerender timeline marker then
          let renderDuration :=
            getRenderDurationSecondsForMarker timeline marker in
          PythonRenderer.renderMarker pool (timelineIndex, i)
            sampleRateForRender renderDuration (tempoBpm timeline) true
        else pool in
      rerenderMarkersFrom sampleRateForRender timelineIndex (S i) timeline
        rest pool
  end.

Definition rerenderTimelineMarkersIfNeeded (sampleRateForRender : Q)
    (model : list Timeline) (pool : PythonRenderer.ThreadPool)
    (timelineIndex : Z)
    : PythonRenderer.ThreadPool :=
  if (timelineIndex <? 0)%Z
     || (Z.of_nat (List.length model) <=? timelineIndex)%Z
  then pool
  else
    match nth_error model (Z.to_nat timelineIndex) with
    | None => pool
    | Some timeline =>
        rerenderMarkersFrom sampleRateForRender (Z.to_nat timelineIndex) 0
          timeline (markers timeline) pool
    end.

(** ** Operations of [juce::AudioBuffer] *)

(** [AudioBuffer (channels, samples)]. *)
Definition newAudioBuffer (channels samples : Z) : AudioBuffer :=
  mkAudioBuffer samples
    (repeat (repeat 0 (Z.to_nat samples)) (Z.to_nat channels)).

(** [makeCopyOf (other)]: this buffer takes the size and every sample of
    [other]. *)
Definition makeCopyOf (this other : AudioBuffer) : AudioBuffer :=
  mkAudioBuffer (numSamples other) (channelData other).

(** A list made [n] long: cut, or filled up with [fill]. *)
Definition resizeList {A : Type} (n : nat) (fill : A) (l : list A) : list A :=
  firstn n l ++ repeat fill (n - List.length l).

(** [setSize (channels, samples, true, true, true)]: the content that still
    fits is kept, new space is cleared. *)
Definition setSize (channels samples : Z) (b : AudioBuffer) : AudioBuffer :=
  mkAudioBuffer samples
    (map (resizeList (Z.to_nat samples) 0)
         (resizeList (Z.to_nat channels) [] (channelData b))).

Fixpoint replaceNth {A : Type} (n : nat) (x : A) (l : list A) : list A :=
  match l, n with
  | [], _ => []
  | _ :: rest, O => x :: rest
  | a :: rest, S n' => a :: replaceNth n' x rest
  end.

(** [dest.copyFrom (destChannel, destStart, source, sourceChannel,
    sourceStart, num)]. *)
Definition copyFrom (dest : AudioBuffer) (destChannel destStart : Z)
    (source : AudioBuffer) (sourceChannel sourceStart num : Z) : AudioBuffer :=
  let src := nth (Z.to_nat sourceChannel) (channelData source) [] in
  let old := nth (Z.to_nat destChannel) (channelData dest) [] in
  let copied :=
    firstn (Z.to_nat destStart) old
    ++ firstn (Z.to_nat num) (skipn (Z.to_nat sourceStart) src)
    ++ skipn (Z.to_nat (destStart + num)) old in
  mkAudioBuffer (numSamples dest)
    (replaceNth (Z.to_nat destChannel) copied (channelData dest)).

(** ** Snapshots of the model *)

Module Snapshot.

Record MarkerSnapshot := mkMarkerSnapshot {
  timelineIndex : Z;
  startTimeSeconds : Q;
  renderBars : Z;
  pythonFile : string;
  renderedSampleRate : Q;
  lastRenderedTempoBpm : Q;
  lastRenderedDurationSeconds : Q;
  lastRenderedPythonPath : string;
  waveform : list Q;
  fadeInSeconds : Q;
  fadeOutSeconds : Q;
  renderedBuffer : option AudioBuffer
}.

Record TimelineSnapshot := mkTimelineSnapshot {
  tempoBpm : Q;
  durationSeconds : Q;
  beatsPerBar : Z;
  beatUnit : Z;
  viewStartSeconds : Q;
  viewDurationSeconds : Q;
  volume : Q;
  pan : Q;
  nextAutomationId : Z;
  volumeAutomation : list AutomationPoint;
  panAutomation : list AutomationPoint;
  automationExpanded : bool;
  zoomY : Q;
  automationZoomY : Q;
  repeatMarkers : list Q;
  markers : list MarkerSnapshot
}.

Definition ModelSnapshot : Type := list TimelineSnapshot.

End Snapshot.

(** The copy of a rendered buffer that both directions make:
    [make_unique<AudioBuffer> (channels, samples)] followed by
    [makeCopyOf]. *)
Definition copyRenderedBuffer (rendered : option AudioBuffer)
    : option AudioBuffer :=
  match rendered with
  | None => None
  | Some b =>
      Some (makeCopyOf (newAudioBuffer (getNumChannels b) (numSamples b)) b)
  end.

Definition makeMarkerSnapshot (marker : Marker) (timelineIndex : Z)
    : Snapshot.MarkerSnapshot :=
  Snapshot.mkMarkerSnapshot timelineIndex
    (startTimeSeconds marker) (renderBars marker) (pythonFile marker)
    (renderedSampleRate marker) (lastRenderedTempoBpm marker)
    (lastRenderedDurationSeconds marker) (lastRenderedPythonPath marker)
    (waveform marker) (fadeInSeconds marker) (fadeOutSeconds marker)
    (copyRenderedBuffer (renderedBuffer marker)).

(** The loop of [snapshotModel] from timeline [i] on. *)
Fixpoint snapshotTimelinesFrom (i : Z) (ts : list Timeline)
    : Snapshot.ModelSnapshot :=
  match ts with
  | [] => []
  | t :: rest =>
      Snapshot.mkTimelineSnapshot
        (tempoBpm t) (durationSeconds t) (beatsPerBar t) (beatUnit t)
        (viewStartSeconds t) (viewDurationSeconds t) (volume t) (pan t)
        (nextAutomationId t) (volumeAutomation t) (panAutomation t)
        (automationExpanded t) (zoomY t) (automationZoomY t)
        (repeatMarkers t)
        (map (fun m => makeMarkerSnapshot m i) (markers t))
      :: snapshotTimelinesFrom (i + 1) rest
  end.

Definition snapshotModel (model : list Timeline) : Snapshot.ModelSnapshot :=
  snapshotTimelinesFrom 0 model.

(** [new Marker ()] and [new Timeline ()]: the member initialisers. *)
Definition defaultMarker : Marker :=
  mkMarker 0 false 0 0 0 "" [] 0 0 "" "" None 0.

Definition defaultTimeline : Timeline :=
  mkTimeline 120 8 4 4 0 0 1 0 1 [] [] false 1 1 [] [].

(** [TimelineModel::addTimeline]: the timeline it appends. *)
Definition addedTimeline (tempo duration : Q) : Timeline :=
  let t := defaultTimeline in
  mkTimeline tempo duration (beatsPerBar t) (beatUnit t) 0 duration 1 0
    (nextAutomationId t) (volumeAutomation t) (panAutomation t)
    (automationExpanded t) 1 1 (repeatMarkers t) (markers t).

(** The marker that [restoreModel] builds from a snapshot: the fields it
    assigns, on top of [new Marker ()]. *)
Definition restoreMarker (ms : Snapshot.MarkerSnapshot) : Marker :=
  let m := defaultMarker in
  mkMarker (Snapshot.startTimeSeconds ms) (isDragging m)
    (Snapshot.renderBars ms) (Snapshot.lastRenderedTempoBpm ms)
    (Snapshot.lastRenderedDurationSeconds ms)
    (Snapshot.lastRenderedPythonPath ms) (Snapshot.waveform ms)
    (Snapshot.fadeInSeconds ms) (Snapshot.fadeOutSeconds ms)
    (Snapshot.pythonFile ms) (renderedWavFile m)
    (match Snapshot.renderedBuffer ms with
     | Some _ => copyRenderedBuffer (Snapshot.renderedBuffer ms)
     | None => renderedBuffer m
     end)
    (Snapshot.renderedSampleRate ms).

Definition restoreTimeline (ts : Snapshot.TimelineSnapshot) : Timeline :=
  let t := addedTimeline (Snapshot.tempoBpm ts) (Snapshot.durationSeconds ts) in
  mkTimeline (tempoBpm t) (durationSeconds t)
    (Snapshot.beatsPerBar ts) (Snapshot.beatUnit ts)
    (Snapshot.viewStartSeconds ts) (Snapshot.viewDurationSeconds ts)
    (Snapshot.volume ts) (Snapshot.pan ts) (Snapshot.nextAutomationId ts)
    (Snapshot.volumeAutomation ts) (Snapshot.panAutomation ts)
    (Snapshot.automationExpanded ts) (Snapshot.zoomY ts)
    (Snapshot.automationZoomY ts) (Snapshot.repeatMarkers ts)
    (markers t ++ map restoreMarker (Snapshot.markers ts)).

(** ** The main component *)

(** The members of the main component that history and cut read or write,
    with the marker selection of the timeline view.  A selected marker is
    recorded by its place in the model. *)
Record AppState := mkAppState {
  model : list Timeline;
  undoSnapshots : list Snapshot.ModelSnapshot;
  isRestoring : bool;
  projectDirty : bool;
  selectedTimelineIndex : Z;
  selectedMarkers : list PythonRenderer.MarkerRef
}.

Definition selectTimeline (count index : Z) : Z :=
  if (count =? 0)%Z then 0%Z else Juce.jlimitZ 0 (count - 1) index.

(** [restoreModel]: the timelines are cleared and rebuilt from the
    snapshot; the selected timeline index is brought back into range. *)
Definition restoreModel (snap : Snapshot.ModelSnapshot) (st : AppState)
    : AppState :=
  let rebuilt := map restoreTimeline snap in
  mkAppState rebuilt (undoSnapshots st) (isRestoring st) (projectDirty st)
    (selectTimeline (Z.of_nat (List.length rebuilt)) (selectedTimelineIndex st))
    (selectedMarkers st).

Definition setIsRestoring (b : bool) (st : AppState) : AppState :=
  mkAppState (model st) (undoSnapshots st) b (projectDirty st)
    (selectedTimelineIndex st) (selectedMarkers st).

Definition setUndoSnapshots (u : list Snapshot.ModelSnapshot) (st : AppState)
    : AppState :=
  mkAppState (model st) u (isRestoring st) (projectDirty st)
    (selectedTimelineIndex st) (selectedMarkers st).

Definition setModel (m : list Timeline) (st : AppState) : AppState :=
  mkAppState m (undoSnapshots st) (isRestoring st) (projectDirty st)
    (selectedTimelineIndex st) (selectedMarkers st).

Definition markProjectDirty (st : AppState) : AppState :=
  mkAppState (model st) (undoSnapshots st) (isRestoring st) true
    (selectedTimelineIndex st) (selectedMarkers st).

Definition pushUndoState (st : AppState) : AppState :=
  if isRestoring st then st
  else
    let st := markProjectDirty st in
    let pushed := undoSnapshots st ++ [snapshotModel (model st)] in
    let kept := if (10 <? List.length pushed)%nat then tl pushed else pushed in
    setUndoSnapshots kept st.

Definition undoSnapshot (st : AppState) : AppState :=
  match undoSnapshots st with
  | [] => st
  | first :: others =>
      let st := setIsRestoring true st in
      let snap := last (first :: others) first in
      let st := setUndoSnapshots (removelast (first :: others)) st in
      let st := restoreModel snap st in
      setIsRestoring false st
  end.

(** *** Cut *)

Definition INT_MIN : Z := (- 2147483648)%Z.
Definition INT_MAX : Z := 2147483647%Z.

(** The cast [(int) x] of an integral [double]: defined inside the range of
    [int] only. *)
Definition toInt (x : Z) : option Z :=
  if (INT_MIN <=? x)%Z && (x <=? INT_MAX)%Z then Some x else None.

(** The new buffer of the cut: [AudioBuffer (channels, cutSample)] filled by
    one [copyFrom] per channel. *)
Definition copyChannels (source : AudioBuffer) (channels cutSample : Z)
    : AudioBuffer :=
  fold_left (fun newBuf ch => copyFrom newBuf ch 0 source ch 0 cutSample)
            (zrange 0 (Z.to_nat channels))
            (newAudioBuffer channels cutSample).

(** The body of the loop over the targets, for one marker.  [None] stands
    for a cast outside the range of [int]. *)
Definition cutMarker (cutSeconds : Q) (marker : Marker) : option Marker :=
  match renderedBuffer marker with
  | None => Some marker
  | Some buf =>
      if Qleb (renderedSampleRate marker) 0 then Some marker
      else
        let relTime := cutSeconds - startTimeSeconds marker in
        if Qleb relTime 0 then
          let marker :=
            setRenderedBuffer (Some (setSize (getNumChannels buf) 0 buf))
                              marker in
          Some (recomputeWaveform marker)
        else
          match toInt (Cmath.round (relTime * renderedSampleRate marker)) with
          | None => None
          | Some cutSample =>
              let total := numSamples buf in
              if (total <=? cutSample)%Z then Some marker
              else
                let cutSample := Juce.jlimitZ 0 total cutSample in
                let channels := getNumChannels buf in
                let newBuf := copyChannels buf channels cutSample in
                let marker := setRenderedBuffer (Some newBuf) marker in
                let duration :=
                  inject_Z cutSample / renderedSampleRate marker in
                let marker :=
                  setFades (Juce.jlimit 0 duration (fadeInSeconds marker))
                           (Juce.jlimit 0 duration (fadeOutSeconds marker))
                           marker in
                Some (recomputeWaveform marker)
          end
  end.

(** The test of the second target loop: a rendered marker of positive length
    that the cut point meets. *)
Definition intersectsCut (cutSeconds : Q) (m : Marker) : bool :=
  match renderedBuffer m with
  | None => false
  | Some buf =>
      if Qleb (renderedSampleRate m) 0 then false
      else
        let dur := inject_Z (numSamples buf) / renderedSampleRate m in
        if Qleb dur 0 then false
        else
          let start := startTimeSeconds m in
          let end_ := start + dur in
          Qleb start cutSeconds && Qleb cutSeconds end_
  end.

(** The targets, as indices into the markers of the timeline: the selected
    markers that are on this timeline or, if there is none, the markers
    that the cut point meets. *)
Definition selectedTargets (timelineIndex : nat) (timeline : Timeline)
    (selected : list PythonRenderer.MarkerRef) : list nat :=
  map snd
    (filter (fun r => Nat.eqb (fst r) timelineIndex
                      && (snd r <? List.length (markers timeline))%nat)
            selected).

Definition intersectingTargets (cutSeconds : Q) (timeline : Timeline)
    : list nat :=
  filter (fun i => intersectsCut cutSeconds (nth i (markers timeline) defaultMarker))
         (seq 0 (List.length (markers timeline))).

Definition cutTargets (timelineIndex : nat) (cutSeconds : Q)
    (timeline : Timeline) (selected : list PythonRenderer.MarkerRef)
    : list nat :=
  match selectedTargets timelineIndex timeline selected with
  | [] => intersectingTargets cutSeconds timeline
  | targets => targets
  end.

(** The loop over the targets on the markers of the timeline. *)
Fixpoint cutMarkers (cutSeconds : Q) (targets : list nat) (ms : list Marker)
    : option (list Marker) :=
  match targets with
  | [] => Some ms
  | i :: rest =>
      match nth_error ms i with
      | None => cutMarkers cutSeconds rest ms
      | Some marker =>
          match cutMarker cutSeconds marker with
          | None => None
          | Some marker' => cutMarkers cutSeconds rest (replaceNth i marker' ms)
          end
      end
  end.

Definition setMarkers (ms : list Marker) (t : Timeline) : Timeline :=
  mkTimeline (tempoBpm t) (durationSeconds t) (beatsPerBar t) (beatUnit t)
    (viewStartSeconds t) (viewDurationSeconds t) (volume t) (pan t)
    (nextAutomationId t) (volumeAutomation t) (panAutomation t)
    (automationExpanded t) (zoomY t) (automationZoomY t) (repeatMarkers t) ms.

Definition cutSelectedMarkersAt (st : AppState) (timelineIndex : Z)
    (cutSeconds : Q) : option AppState :=
  if (timelineIndex <? 0)%Z
     || (Z.of_nat (List.length (model st)) <=? timelineIndex)%Z
  then Some st
  else
    let st := pushUndoState st in
    let index := Z.to_nat timelineIndex in
    match nth_error (model st) index with
    | None => Some st
    | Some timeline =>
        match cutTargets index cutSeconds timeline (selectedMarkers st) with
        | [] => Some st
        | targets =>
            match cutMarkers cutSeconds targets (markers timeline) with
            | None => None
            | Some ms =>
                Some (setModel
                        (replaceNth index (setMarkers ms timeline) (model st))
                        st)
            end
        end
    end.

(** What a cut leaves alone in a marker: every field but the buffer, the
    fades and the waveform. *)
Definition cutFrame (m m' : Marker) : Prop :=
  startTimeSeconds m' = startTimeSeconds m /\
  isDragging m' = isDragging m /\
  renderBars m' = renderBars m /\
  pythonFile m' = pythonFile m /\
  renderedWavFile m' = renderedWavFile m /\
  renderedSampleRate m' = renderedSampleRate m /\
  lastRenderedPythonPath m' = lastRenderedPythonPath m /\
  lastRenderedTempoBpm m' = lastRenderedTempoBpm m /\
  lastRenderedDurationSeconds m' = lastRenderedDurationSeconds m.

(** What a cut leaves alone in a timeline: every field but the markers, the
    number and order of the markers, and in each marker the fields above. *)
Definition timelineFrame (t t' : Timeline) : Prop :=
  setMarkers (markers t) t' = t /\
  Forall2 cutFrame (markers t) (markers t').

(** A marker with the two members that no snapshot records, [isDragging]
    and [renderedWavFile], as [new Marker ()] leaves them. *)
Definition resetTransient (m : Marker) : Marker :=
  mkMarker (startTimeSeconds m) false (renderBars m)
    (lastRenderedTempoBpm m) (lastRenderedDurationSeconds m)
    (lastRenderedPythonPath m) (waveform m) (fadeInSeconds m)
    (fadeOutSeconds m) (pythonFile m) "" (renderedBuffer m)
    (renderedSampleRate m).

Definition resetTransientMarkers (t : Timeline) : Timeline :=
  setMarkers (map resetTransient (markers t)) t.

(** A run of the history: snapshots pushed, snapshots restored, and edits
    of the model in between. *)
Inductive HistoryOp :=
| PushUndo
| Undo
| Edit (f : list Timeline -> list Timeline).

Definition historyStep (st : AppState) (op : HistoryOp) : AppState :=
  match op with
  | PushUndo => pushUndoState st
  | Undo => undoSnapshot st
  | Edit f => setModel (f (model st)) st
  end.

Definition runHistory (ops : list HistoryOp) (st : AppState) : AppState :=
  fold_left historyStep ops st.

(** ** Repeat markers (timeline view) *)

(** [juce::Array<double>::sort ()]: ascending order. *)
Fixpoint insertAscending (x : Q) (l : list Q) : list Q :=
  match l with
  | [] => [x]
  | y :: rest =>
      if Qleb x y then x :: y :: rest else y :: insertAscending x rest
  end.

Definition sortArray (l : list Q) : list Q := fold_right insertAscending [] l.

Definition setRepeatMarkers (r : list Q) (t : Timeline) : Timeline :=
  mkTimeline (tempoBpm t) (durationSeconds t) (beatsPerBar t) (beatUnit t)
    (viewStartSeconds t) (viewDurationSeconds t) (volume t) (pan t)
    (nextAutomationId t) (volumeAutomation t) (panAutomation t)
    (automationExpanded t) (zoomY t) (automationZoomY t) r (markers t).

Definition addRepeatMarker (timeline : Timeline) (atSeconds : Q) : Timeline :=
  let atSeconds := Juce.jlimit 0 (durationSeconds timeline) atSeconds in
  let kept :=
    if (2 <=? List.length (repeatMarkers timeline))%nat then []
    else repeatMarkers timeline in
  setRepeatMarkers (sortArray (kept ++ [atSeconds])) timeline.

(** The drag of the selected repeat marker in [mouseDrag]: the time, already
    taken from the mouse position, is clamped, written at the index and the
    array is sorted again.  An index out of range changes nothing. *)
Definition dragRepeatMarker (timeline : Timeline) (index : Z) (atSeconds : Q)
    : Timeline :=
  let atSeconds := Juce.jlimit 0 (durationSeconds timeline) atSeconds in
  if (0 <=? index)%Z
     && (index <? Z.of_nat (List.length (repeatMarkers timeline)))%Z
  then
    setRepeatMarkers
      (sortArray (replaceNth (Z.to_nat index) atSeconds (repeatMarkers timeline)))
      timeline
  else timeline.

(** [Array::remove (index)] at a valid index. *)
Fixpoint removeNth {A : Type} (n : nat) (l : list A) : list A :=
  match l, n with
  | [], _ => []
  | _ :: rest, O => rest
  | a :: rest, S n' => a :: removeNth n' rest
  end.

(** [deleteSelectedRepeatMarkerPublic], on the timeline it addresses. *)
Definition deleteRepeatMarker (timeline : Timeline) (index : Z) : Timeline :=
  if (index <? 0)%Z
     || (Z.of_nat (List.length (repeatMarkers timeline)) <=? index)%Z
  then timeline
  else setRepeatMarkers (removeNth (Z.to_nat index) (repeatMarkers timeline))
                        timeline.

(** Ascending order of an array of times. *)
Fixpoint ascending (l : list Q) : Prop :=
  match l with
  | [] => True
  | a :: rest =>
      match rest with
      | [] => True
      | b :: _ => a <= b /\ ascending rest
      end
  end.

(** What the view keeps true of the repeat markers of a timeline: at most
    two, ascending, inside the timeline. *)
Definition repeatMarkersOk (t : Timeline) : Prop :=
  (List.length (repeatMarkers t) <= 2)%nat /\
  ascending (repeatMarkers t) /\
  forall m, In m (repeatMarkers t) -> 0 <= m <= durationSeconds t.

(** ** The visible window and the pixel mapping (timeline view) *)

Module View.

Record ViewWindow := mkViewWindow {
  start : Q;
  length : Q
}.

Definition getViewWindow (timeline : Timeline) : ViewWindow :=
  let length :=
    if Qleb (viewDurationSeconds timeline) 0
       || Qltb (durationSeconds timeline) (viewDurationSeconds timeline)
    then durationSeconds timeline
    else viewDurationSeconds timeline in
  let maxStart := Juce.jmax 0 (durationSeconds timeline - length) in
  let start := Juce.jlimit 0 maxStart (viewStartSeconds timeline) in
  mkViewWindow start length.

Definition isTimeInView (atSeconds : Q) (timeline : Timeline) : bool :=
  let view := getViewWindow timeline in
  if Qleb (length view) 0 then false
  else Qleb (start view) atSeconds && Qleb atSeconds (start view + length view).

(** [timeToX] over the left edge and the width of the row. *)
Definition timeToX (atSeconds : Q) (timeline : Timeline) (rowX rowWidth : Z)
    : Z :=
  let view := getViewWindow timeline in
  let ratio :=
    if Qltb 0 (length view) then (atSeconds - start view) / length view
    else 0 in
  let ratio := Juce.jlimit 0 1 ratio in
  (rowX + Cmath.trunc (ratio * inject_Z rowWidth))%Z.

Definition xToTime (x : Q) (timeline : Timeline) (rowX rowWidth : Z) : Q :=
  let view := getViewWindow timeline in
  let ratio := (x - inject_Z rowX) / inject_Z rowWidth in
  let ratio := Juce.jlimit 0 1 ratio in
  start view + ratio * length view.

(** [valueToY] and [yToValue] over the bottom edge and the height of the
    lane. *)
Definition valueToY (v : Q) (laneBottom laneHeight : Z) (minVal maxVal : Q)
    : Z :=
  let t := (v - minVal) / (maxVal - minVal) in
  let t := Juce.jlimit 0 1 t in
  (laneBottom - Cmath.round (t * inject_Z laneHeight))%Z.

Definition yToValue (y : Q) (laneBottom laneHeight : Z) (minVal maxVal : Q)
    : Q :=
  let t := (inject_Z laneBottom - y) / inject_Z laneHeight in
  let t := Juce.jlimit 0 1 t in
  minVal + t * (maxVal - minVal).

Definition getBaseRowHeight : Z := 120.

Definition getRowHeightForTimeline (timeline : Timeline) : Z :=
  let zoom := Juce.jlimit (1 # 2) 2 (zoomY timeline) in
  let h := Cmath.round (inject_Z getBaseRowHeight * zoom) in
  Juce.jlimitZ 80 260 h.

(** The loop of [getTimelineIndexForY] from row [i] on, [yy] being the top
    of that row. *)
Fixpoint timelineIndexFrom (y : Q) (i yy : Z) (rows : list Timeline) : Z :=
  match rows with
  | [] => (-1)%Z
  | t :: rest =>
      let h := getRowHeightForTimeline t in
      if Qleb (inject_Z yy) y && Qltb y (inject_Z (yy + h)) then i
      else timelineIndexFrom y (i + 1) (yy + h) rest
  end.

Definition getTimelineIndexForY (tls : list Timeline) (y : Q) : Z :=
  match tls with
  | [] => (-1)%Z
  | _ => timelineIndexFrom y 0 0 tls
  end.

(** The top and the height of the row that [getRowForTimelineIndex] returns
    in a view whose local bounds start at 0; the empty rectangle when there
    is no such row. *)
Fixpoint rowFrom (index i yy : Z) (rows : list Timeline) : Z * Z :=
  match rows with
  | [] => (0, 0)%Z
  | t :: rest =>
      let h := getRowHeightForTimeline t in
      if (i =? index)%Z then (yy, h) else rowFrom index (i + 1) (yy + h) rest
  end.

Definition getRowForTimelineIndex (tls : list Timeline) (index : Z) : Z * Z :=
  rowFrom index 0 0 tls.

End View.

(** ** Snapping and bar/beat positions (timeline view) *)

Inductive GridMode := Seconds | BBT.

Definition getSecondsGridSeconds (snapResolutionIndex : Z) : Q :=
  match snapResolutionIndex with
  | 0%Z => 4
  | 1%Z => 2
  | 2%Z => 1
  | 3%Z => 1 # 2
  | 4%Z => 1 # 4
  | 5%Z => 1 # 8
  | 6%Z => 1 # 16
  | 7%Z => 1 # 32
  | 8%Z => 1 / 3
  | 9%Z => 1 / 6
  | 10%Z => 1 / 12
  | _ => 1 # 4
  end.

Definition getBeatGridSeconds (snapResolutionIndex : Z) (timeline : Timeline)
    : Q :=
  let beatUnit' := inject_Z (Juce.jmaxZ 1 (beatUnit timeline)) in
  let beatSeconds := (60 / tempoBpm timeline) * (4 / beatUnit') in
  match snapResolutionIndex with
  | 0%Z => beatSeconds * 4
  | 1%Z => beatSeconds * 2
  | 2%Z => beatSeconds
  | 3%Z => beatSeconds / 2
  | 4%Z => beatSeconds / 4
  | 5%Z => beatSeconds / 8
  | 6%Z => beatSeconds / 16
  | 7%Z => beatSeconds / 32
  | 8%Z => beatSeconds / 3
  | 9%Z => beatSeconds / 6
  | 10%Z => beatSeconds / 12
  | _ => beatSeconds / 4
  end.

Definition snapTimeSeconds (gridMode : GridMode) (snapResolutionIndex : Z)
    (atSeconds : Q) (timeline : Timeline) : Q :=
  if Qleb (durationSeconds timeline) 0 then atSeconds
  else
    let grid :=
      match gridMode with
      | BBT => getBeatGridSeconds snapResolutionIndex timeline
      | Seconds => getSecondsGridSeconds snapResolutionIndex
      end in
    if Qleb grid 0 then atSeconds
    else
      let snapped := inject_Z (Cmath.round (atSeconds / grid)) * grid in
      Juce.jlimit 0 (durationSeconds timeline) snapped.


(** ** The inspector (main component) *)

Definition setView (viewStart viewDuration : Q) (t : Timeline) : Timeline :=
  mkTimeline (tempoBpm t) (durationSeconds t) (beatsPerBar t) (beatUnit t)
    viewStart viewDuration (volume t) (pan t)
    (nextAutomationId t) (volumeAutomation t) (panAutomation t)
    (automationExpanded t) (zoomY t) (automationZoomY t) (repeatMarkers t)
    (markers t).

Definition setDurationSeconds (d : Q) (t : Timeline) : Timeline :=
  mkTimeline (tempoBpm t) d (beatsPerBar t) (beatUnit t)
    (viewStartSeconds t) (viewDurationSeconds t) (volume t) (pan t)
    (nextAutomationId t) (volumeAutomation t) (panAutomation t)
    (automationExpanded t) (zoomY t) (automationZoomY t) (repeatMarkers t)
    (markers t).

Definition setTempoBpm (tempo : Q) (t : Timeline) : Timeline :=
  mkTimeline tempo (durationSeconds t) (beatsPerBar t) (beatUnit t)
    (viewStartSeconds t) (viewDurationSeconds t) (volume t) (pan t)
    (nextAutomationId t) (volumeAutomation t) (panAutomation t)
    (automationExpanded t) (zoomY t) (automationZoomY t) (repeatMarkers t)
    (markers t).

Definition clampViewToDuration (timeline : Timeline) : Timeline :=
  let viewDuration :=
    if Qleb (viewDurationSeconds timeline) 0
       || Qltb (durationSeconds timeline) (viewDurationSeconds timeline)
    then durationSeconds timeline
    else viewDurationSeconds timeline in
  let maxStart := Juce.jmax 0 (durationSeconds timeline - viewDuration) in
  setView (Juce.jlimit 0 maxStart (viewStartSeconds timeline)) viewDuration
          timeline.

Definition getZoomFactorForTimeline (timeline : Timeline) : Q :=
  if Qleb (durationSeconds timeline) 0 then 1
  else if Qleb (viewDurationSeconds timeline) 0 then 1
  else Juce.jlimit 1 16 (durationSeconds timeline / viewDurationSeconds timeline).

(** [applyDurationFromInspector] on the selected timeline, [entered] being
    the number read from the editor; the sweep it ends with is
    [rerenderTimelineMarkersIfNeeded]. *)
Definition applyDuration (entered : Q) (timeline : Timeline) : Timeline :=
  let previousZoom := getZoomFactorForTimeline timeline in
  let duration := Juce.jlimit (1 # 4) 3600 entered in
  let timeline := setDurationSeconds duration timeline in
  let timeline :=
    setView (viewStartSeconds timeline)
            (durationSeconds timeline / previousZoom) timeline in
  clampViewToDuration timeline.

(** [applyTempoFromInspector] on the selected timeline. *)
Definition applyTempo (entered : Q) (timeline : Timeline) : Timeline :=
  setTempoBpm (Juce.jlimit 1 400 entered) timeline.

Definition beatUnitToComboId (beatUnit : Z) : Z :=
  match beatUnit with
  | 1%Z => 1
  | 2%Z => 2
  | 4%Z => 3
  | 8%Z => 4
  | 16%Z => 5
  | _ => 3
  end.

Definition comboIdToBeatUnit (id : Z) : Z :=
  match id with
  | 1%Z => 1
  | 2%Z => 2
  | 3%Z => 4
  | 4%Z => 8
  | 5%Z => 16
  | _ => 4
  end.

(** ** Editing automation lanes (timeline view) *)

Inductive AutomationLane := LaneNone | Volume | Pan.

(** [std::sort] with the comparator [a.timeSeconds < b.timeSeconds], as an
    insertion sort. *)
Fixpoint insertPoint (p : AutomationPoint) (l : list AutomationPoint)
    : list AutomationPoint :=
  match l with
  | [] => [p]
  | q :: rest =>
      if Qltb (timeSeconds q) (timeSeconds p) then q :: insertPoint p rest
      else p :: q :: rest
  end.

Definition sortAutomation (points : list AutomationPoint)
    : list AutomationPoint :=
  fold_right insertPoint [] points.

(** The lane that [(lane == Volume) ? volumeAutomation : panAutomation]
    selects, and its update. *)
Definition lanePoints (lane : AutomationLane) (t : Timeline)
    : list AutomationPoint :=
  match lane with
  | Volume => volumeAutomation t
  | _ => panAutomation t
  end.

Definition setLanePoints (lane : AutomationLane) (pts : list AutomationPoint)
    (t : Timeline) : Timeline :=
  match lane with
  | Volume =>
      mkTimeline (tempoBpm t) (durationSeconds t) (beatsPerBar t) (beatUnit t)
        (viewStartSeconds t) (viewDurationSeconds t) (volume t) (pan t)
        (nextAutomationId t) pts (panAutomation t)
        (automationExpanded t) (zoomY t) (automationZoomY t)
        (repeatMarkers t) (markers t)
  | _ =>
      mkTimeline (tempoBpm t) (durationSeconds t) (beatsPerBar t) (beatUnit t)
        (viewStartSeconds t) (viewDurationSeconds t) (volume t) (pan t)
        (nextAutomationId t) (volumeAutomation t) pts
        (automationExpanded t) (zoomY t) (automationZoomY t)
        (repeatMarkers t) (markers t)
  end.


Definition laneMinimum (lane : AutomationLane) : Q :=
  match lane with
  | Volume => 0
  | _ => -1
  end.


(** [findAutomationPointById] followed by the assignment through the
    pointer: the first point with the id is replaced. *)
Fixpoint updateFirstWithId (pointId : Z) (f : AutomationPoint -> AutomationPoint)
    (points : list AutomationPoint) : list AutomationPoint :=
  match points with
  | [] => []
  | p :: rest =>
      if (id p =? pointId)%Z then f p :: rest
      else p :: updateFirstWithId pointId f rest
  end.

(** [handleAutomationMouseDrag] on the lane being dragged. *)
Definition handleAutomationMouseDrag (snapEnabled : bool) (gridMode : GridMode)
    (snapResolutionIndex : Z) (timeline : Timeline) (lane : AutomationLane)
    (pointId : Z) (rectX rectWidth rectBottom rectHeight : Z) (x y : Q)
    : Timeline :=
  match lane with
  | LaneNone => timeline
  | _ =>
      let points := lanePoints lane timeline in
      if existsb (fun p => (id p =? pointId)%Z) points then
        let atSeconds := View.xToTime x timeline rectX rectWidth in
        let atSeconds :=
          if snapEnabled
          then snapTimeSeconds gridMode snapResolutionIndex atSeconds timeline
          else atSeconds in
        let atSeconds := Juce.jlimit 0 (durationSeconds timeline) atSeconds in
        let v := View.yToValue y rectBottom rectHeight (laneMinimum lane) 1 in
        let moved :=
          updateFirstWithId pointId
            (fun p => mkAutomationPoint (id p) atSeconds v) points in
        setLanePoints lane (sortAutomation moved) timeline
      else timeline
  end.



(** ** Dragging a fade tab (timeline view) *)

(** The fade branch of [mouseDrag] on the marker being dragged, [atSeconds]
    being the time under the mouse. *)
Definition dragFade (isIn : bool) (atSeconds : Q) (marker : Marker) : Marker :=
  match renderedBuffer marker with
  | None => marker
  | Some buf =>
      if Qltb 0 (renderedSampleRate marker) then
        let duration := inject_Z (numSamples buf) / renderedSampleRate marker in
        let start := startTimeSeconds marker in
        let end_ := start + duration in
        let atSeconds := Juce.jlimit start end_ atSeconds in
        let marker :=
          if isIn then
            setFades (Juce.jlimit 0 duration (atSeconds - start))
                     (fadeOutSeconds marker) marker
          else
            setFades (fadeInSeconds marker)
                     (Juce.jlimit 0 duration (end_ - atSeconds)) marker in
        if Qltb duration (fadeInSeconds marker + fadeOutSeconds marker) then
          let excess :=
            (fadeInSeconds marker + fadeOutSeconds marker) - duration in
          if isIn then
            setFades (Juce.jmax 0 (fadeInSeconds marker - excess))
                     (fadeOutSeconds marker) marker
          else
            setFades (fadeInSeconds marker)
                     (Juce.jmax 0 (fadeOutSeconds marker - excess)) marker
        else marker
      else marker
  end.

(** ** The timeline model (TimelineModel.cpp) *)

Module TimelineModel.

Definition addTimeline (timelines : list Timeline) (tempo duration : Q)
    : list Timeline :=
  timelines ++ [addedTimeline tempo duration].

Definition setMeter (beats unit : Z) (t : Timeline) : Timeline :=
  mkTimeline (tempoBpm t) (durationSeconds t) beats unit
    (viewStartSeconds t) (viewDurationSeconds t) (volume t) (pan t)
    (nextAutomationId t) (volumeAutomation t) (panAutomation t)
    (automationExpanded t) (zoomY t) (automationZoomY t) (repeatMarkers t)
    (markers t).

Definition updateNth {A : Type} (n : nat) (f : A -> A) (l : list A) : list A :=
  match nth_error l n with
  | Some a => replaceNth n (f a) l
  | None => l
  end.

(** The constructor. *)
Definition initial : list Timeline :=
  let timelines := addTimeline [] 120 8 in
  let timelines := addTimeline timelines 90 10 in
  let timelines := addTimeline timelines 140 6 in
  let timelines :=
    if (1 <? List.length timelines)%nat
    then updateNth 1 (setMeter 3 4) timelines else timelines in
  if (2 <? List.length timelines)%nat
  then updateNth 2 (setMeter 7 8) timelines else timelines.

Definition getTimelineCount (timelines : list Timeline) : Z :=
  Z.of_nat (List.length timelines).

(** [removeTimeline]: the timeline removed, if any, and the timelines
    left. *)
Definition removeTimeline (timelines : list Timeline) (index : Z)
    : option Timeline * list Timeline :=
  if (index <? 0)%Z || (getTimelineCount timelines <=? index)%Z
  then (None, timelines)
  else (nth_error timelines (Z.to_nat index),
        removeNth (Z.to_nat index) timelines).

Definition insertTimeline (timelines : list Timeline) (index : Z)
    (timeline : option Timeline) : list Timeline :=
  match timeline with
  | None => timelines
  | Some t =>
      let index := Juce.jlimitZ 0 (getTimelineCount timelines) index in
      firstn (Z.to_nat index) timelines ++ t :: skipn (Z.to_nat index) timelines
  end.

Definition clearTimelines (timelines : list Timeline) : list Timeline := [].

End TimelineModel.

(** ** Deleting (main component) *)

Definition setSelection (index : Z) (selected : list PythonRenderer.MarkerRef)
    (st : AppState) : AppState :=
  mkAppState (model st) (undoSnapshots st) (isRestoring st) (projectDirty st)
    index selected.

Definition deleteSelectedTimeline (st : AppState) : AppState :=
  if (TimelineModel.getTimelineCount (model st) =? 0)%Z then st
  else
    let st := pushUndoState st in
    let index := selectedTimelineIndex st in
    match TimelineModel.removeTimeline (model st) index with
    | (None, _) => st
    | (Some _, remaining) =>
        let st := setModel remaining st in
        let count := TimelineModel.getTimelineCount (model st) in
        if (count =? 0)%Z then setSelection 0 (selectedMarkers st) st
        else
          let nextIndex := Juce.jminZ index (count - 1) in
          setSelection (selectTimeline count nextIndex) (selectedMarkers st) st
    end.

(** The markers of timeline [t] that are not selected, from position [i]
    on: what the two loops of [deleteSelectedMarkers] leave of it. *)
Fixpoint unselectedFrom (t i : nat) (selected : list PythonRenderer.MarkerRef)
    (ms : list Marker) : list Marker :=
  match ms with
  | [] => []
  | m :: rest =>
      if existsb (PythonRenderer.markerRef_eqb (t, i)) selected
      then unselectedFrom t (S i) selected rest
      else m :: unselectedFrom t (S i) selected rest
  end.

Fixpoint deleteSelectedFrom (t : nat) (selected : list PythonRenderer.MarkerRef)
    (tls : list Timeline) : list Timeline :=
  match tls with
  | [] => []
  | timeline :: rest =>
      setMarkers (unselectedFrom t 0 selected (markers timeline)) timeline
      :: deleteSelectedFrom (S t) selected rest
  end.

Definition deleteSelectedMarkers (st : AppState) : AppState :=
  match selectedMarkers st with
  | [] => st
  | selected =>
      let st := pushUndoState st in
      let st := setModel (deleteSelectedFrom 0 selected (model st)) st in
      setSelection (selectedTimelineIndex st) [] st
  end.

(** ** One marker in the audio callback (main component) *)

(** The fade of a marker at [sourceSample], as [getNextAudioBlock] computes
    it.  [None] stands for a cast outside the range of [int]. *)
Definition fadeAt (marker : Marker) (buf : AudioBuffer) (sourceSample : Z)
    : option Q :=
  let total := numSamples buf in
  match toInt (Cmath.round (fadeInSeconds marker * renderedSampleRate marker)),
        toInt (Cmath.round (fadeOutSeconds marker * renderedSampleRate marker))
  with
  | Some fadeInSamp, Some fadeOutSamp =>
      let fade := 1 in
      let fade :=
        if (0 <? fadeInSamp)%Z && (sourceSample <? fadeInSamp)%Z
        then inject_Z sourceSample / inject_Z fadeInSamp else fade in
      let fade :=
        if (0 <? fadeOutSamp)%Z && (total - fadeOutSamp <? sourceSample)%Z
        then Juce.jmin fade
               (inject_Z (total - sourceSample) / inject_Z fadeOutSamp)
        else fade in
      Some fade
  | _, _ => None
  end.

(** What one marker adds to the left and the right sample at the local time
    of its timeline, the two gains of the timeline being given. *)
Definition mixMarker (localTime leftGain rightGain : Q) (marker : Marker)
    : option (Q * Q) :=
  match renderedBuffer marker with
  | None => Some (0, 0)
  | Some buf =>
      let relTime := localTime - startTimeSeconds marker in
      if Qltb relTime 0 then Some (0, 0)
      else
        match toInt (Cmath.trunc (relTime * renderedSampleRate marker)) with
        | None => None
        | Some sourceSample =>
            if (sourceSample <? 0)%Z || (numSamples buf <=? sourceSample)%Z
            then Some (0, 0)
            else
              let ch := getNumChannels buf in
              let sampleL := getSample buf 0 sourceSample in
              let sampleR :=
                if (1 <? ch)%Z then getSample buf 1 sourceSample else sampleL in
              match fadeAt marker buf sourceSample with
              | None => None
              | Some fade =>
                  Some (sampleL * leftGain * fade, sampleR * rightGain * fade)
              end
        end
  end.

(** ** The project document (main component) *)

(** [juce::var], with a [DynamicObject] as the list of its properties in the
    order they were set. *)
#[warnings="-register-all"]
Inductive var :=
| VVoid
| VInt (n : Z)
| VDouble (x : Q)
| VBool (b : bool)
| VString (s : string)
| VArray (items : list var)
| VObject (properties : list (string * var)).

Module Convert.

(** The conversions of [juce::var] to [double], [int], [bool] and
    [String]; they are the library's and are taken as given. *)
Record VarConversions := mkVarConversions {
  toDouble : var -> Q;
  toInt : var -> Z;
  toBool : var -> bool;
  toString : var -> string
}.

(** What the round trip needs of them: a value comes back from the variant
    of its own type. *)
Definition conversionsExact (c : VarConversions) : Prop :=
  (forall x, toDouble c (VDouble x) = x) /\
  (forall n, toInt c (VInt n) = n) /\
  (forall b, toBool c (VBool b) = b) /\
  (forall s, toString c (VString s) = s).

End Convert.

(** [DynamicObject::setProperty]: the value of an existing name is replaced,
    a new name is appended. *)
Fixpoint setProperty (name : string) (v : var) (props : list (string * var))
    : list (string * var) :=
  match props with
  | [] => [(name, v)]
  | (n, old) :: rest =>
      if String.eqb n name then (n, v) :: rest
      else (n, old) :: setProperty name v rest
  end.

(** [DynamicObject::getProperty]: the void variant for a missing name. *)
Fixpoint getProperty (name : string) (props : list (string * var)) : var :=
  match props with
  | [] => VVoid
  | (n, v) :: rest => if String.eqb n name then v else getProperty name rest
  end.

Definition serializePoint (p : AutomationPoint) : var :=
  let pObj := [] in
  let pObj := setProperty "id" (VInt (id p)) pObj in
  let pObj := setProperty "timeSeconds" (VDouble (timeSeconds p)) pObj in
  let pObj := setProperty "value" (VDouble (value p)) pObj in
  VObject pObj.

Definition serializeMarker (m : Marker) : var :=
  let mObj := [] in
  let mObj := setProperty "startTimeSeconds" (VDouble (startTimeSeconds m)) mObj in
  let mObj := setProperty "pythonPath" (VString (getFullPathName (pythonFile m))) mObj in
  let mObj := setProperty "fadeInSeconds" (VDouble (fadeInSeconds m)) mObj in
  let mObj := setProperty "fadeOutSeconds" (VDouble (fadeOutSeconds m)) mObj in
  let mObj := setProperty "renderBars" (VInt (renderBars m)) mObj in
  VObject mObj.

Definition serializeTimeline (t : Timeline) : var :=
  let tObj := [] in
  let tObj := setProperty "tempoBpm" (VDouble (tempoBpm t)) tObj in
  let tObj := setProperty "durationSeconds" (VDouble (durationSeconds t)) tObj in
  let tObj := setProperty "beatsPerBar" (VInt (beatsPerBar t)) tObj in
  let tObj := setProperty "beatUnit" (VInt (beatUnit t)) tObj in
  let tObj := setProperty "viewStartSeconds" (VDouble (viewStartSeconds t)) tObj in
  let tObj :=
    setProperty "viewDurationSeconds" (VDouble (viewDurationSeconds t)) tObj in
  let tObj := setProperty "volume" (VDouble (volume t)) tObj in
  let tObj := setProperty "pan" (VDouble (pan t)) tObj in
  let tObj := setProperty "zoomY" (VDouble (zoomY t)) tObj in
  let tObj := setProperty "automationZoomY" (VDouble (automationZoomY t)) tObj in
  let tObj :=
    setProperty "automationExpanded" (VBool (automationExpanded t)) tObj in
  let tObj :=
    setProperty "repeatMarkers" (VArray (map VDouble (repeatMarkers t))) tObj in
  let tObj :=
    setProperty "volumeAutomation"
      (VArray (map serializePoint (volumeAutomation t))) tObj in
  let tObj :=
    setProperty "panAutomation"
      (VArray (map serializePoint (panAutomation t))) tObj in
  let tObj :=
    setProperty "markers" (VArray (map serializeMarker (markers t))) tObj in
  VObject tObj.

Definition serializeModel (tls : list Timeline) : var :=
  VObject (setProperty "timelines" (VArray (map serializeTimeline tls)) []).

(** The elements of an array property; none when the property is not an
    array. *)
Definition arrayItems (v : var) : list var :=
  match v with
  | VArray items => items
  | _ => []
  end.

(** The automation points read from an array: the elements that are not
    objects are passed over. *)
Fixpoint deserializePoints (c : Convert.VarConversions) (items : list var)
    : list AutomationPoint :=
  match items with
  | [] => []
  | VObject pObj :: rest =>
      mkAutomationPoint (Convert.toInt c (getProperty "id" pObj))
                        (Convert.toDouble c (getProperty "timeSeconds" pObj))
                        (Convert.toDouble c (getProperty "value" pObj))
      :: deserializePoints c rest
  | _ :: rest => deserializePoints c rest
  end.

Fixpoint deserializeMarkers (c : Convert.VarConversions) (items : list var)
    : list Marker :=
  match items with
  | [] => []
  | VObject mObj :: rest =>
      let m := defaultMarker in
      mkMarker (Convert.toDouble c (getProperty "startTimeSeconds" mObj))
        (isDragging m) (Convert.toInt c (getProperty "renderBars" mObj))
        (lastRenderedTempoBpm m) (lastRenderedDurationSeconds m)
        (lastRenderedPythonPath m) (waveform m)
        (Convert.toDouble c (getProperty "fadeInSeconds" mObj))
        (Convert.toDouble c (getProperty "fadeOutSeconds" mObj))
        (Convert.toString c (getProperty "pythonPath" mObj))
        (renderedWavFile m) (renderedBuffer m) (renderedSampleRate m)
      :: deserializeMarkers c rest
  | _ :: rest => deserializeMarkers c rest
  end.

(** The timeline built from one object of the document. *)
Definition deserializeTimeline (c : Convert.VarConversions) (tObj : list (string * var))
    : Timeline :=
  let tempo := Convert.toDouble c (getProperty "tempoBpm" tObj) in
  let duration := Convert.toDouble c (getProperty "durationSeconds" tObj) in
  let t := addedTimeline tempo duration in
  mkTimeline (tempoBpm t) (durationSeconds t)
    (Convert.toInt c (getProperty "beatsPerBar" tObj))
    (Convert.toInt c (getProperty "beatUnit" tObj))
    (Convert.toDouble c (getProperty "viewStartSeconds" tObj))
    (Convert.toDouble c (getProperty "viewDurationSeconds" tObj))
    (Convert.toDouble c (getProperty "volume" tObj))
    (Convert.toDouble c (getProperty "pan" tObj))
    (nextAutomationId t)
    (deserializePoints c (arrayItems (getProperty "volumeAutomation" tObj)))
    (deserializePoints c (arrayItems (getProperty "panAutomation" tObj)))
    (Convert.toBool c (getProperty "automationExpanded" tObj))
    (Convert.toDouble c (getProperty "zoomY" tObj))
    (Convert.toDouble c (getProperty "automationZoomY" tObj))
    (map (Convert.toDouble c) (arrayItems (getProperty "repeatMarkers" tObj)))
    (markers t
     ++ deserializeMarkers c (arrayItems (getProperty "markers" tObj))).

Fixpoint deserializeTimelines (c : Convert.VarConversions) (items : list var)
    : list Timeline :=
  match items with
  | [] => []
  | VObject tObj :: rest =>
      deserializeTimeline c tObj :: deserializeTimelines c rest
  | _ :: rest => deserializeTimelines c rest
  end.

(** The render jobs that the load submits: one for each marker whose source
    file exists, in the order the markers are created. *)
Fixpoint loadJobsForMarkers (existsAsFile : string -> bool)
    (deviceSampleRate : Q) (t i : nat) (timeline : Timeline)
    (ms : list Marker) (pool : PythonRenderer.ThreadPool)
    : PythonRenderer.ThreadPool :=
  match ms with
  | [] => pool
  | marker :: rest =>
      let pool :=
        if existsAsFile (pythonFile marker) then
          PythonRenderer.renderMarker pool (t, i) deviceSampleRate
            (getRenderDurationSecondsForMarker timeline marker)
            (tempoBpm timeline) true
        else pool in
      loadJobsForMarkers existsAsFile deviceSampleRate t (S i) timeline rest pool
  end.

Fixpoint loadJobsForTimelines (existsAsFile : string -> bool)
    (deviceSampleRate : Q) (t : nat) (tls : list Timeline)
    (pool : PythonRenderer.ThreadPool) : PythonRenderer.ThreadPool :=
  match tls with
  | [] => pool
  | timeline :: rest =>
      loadJobsForTimelines existsAsFile deviceSampleRate (S t) rest
        (loadJobsForMarkers existsAsFile deviceSampleRate t 0 timeline
           (markers timeline) pool)
  end.

(** [deserializeModel]: the result, the state and the pool after it. *)
Definition deserializeModel (c : Convert.VarConversions) (existsAsFile : string -> bool)
    (deviceSampleRate : Q) (rootVar : var) (st : AppState)
    (pool : PythonRenderer.ThreadPool)
    : bool * AppState * PythonRenderer.ThreadPool :=
  match rootVar with
  | VObject rootObj =>
      match getProperty "timelines" rootObj with
      | VArray timelineArray =>
          let loaded := deserializeTimelines c timelineArray in
          let st := setModel loaded st in
          let st :=
            setSelection
              (selectTimeline (TimelineModel.getTimelineCount loaded) 0)
              (selectedMarkers st) st in
          (true, st,
           loadJobsForTimelines existsAsFile deviceSampleRate 0 loaded pool)
      | _ => (false, st, pool)
      end
  | _ => (false, st, pool)
  end.

(** What a saved and reloaded marker and timeline keep: the marker its
    start, source file, fades and render bars, on top of [new Marker ()];
    the timeline everything but the counter of automation ids, which is 1
    again. *)
Definition reloadedMarker (m : Marker) : Marker :=
  mkMarker (startTimeSeconds m) false (renderBars m) 0 0 "" []
    (fadeInSeconds m) (fadeOutSeconds m) (pythonFile m) "" None 0.

Definition reloadedTimeline (t : Timeline) : Timeline :=
  mkTimeline (tempoBpm t) (durationSeconds t) (beatsPerBar t) (beatUnit t)
    (viewStartSeconds t) (viewDurationSeconds t) (volume t) (pan t)
    1 (volumeAutomation t) (panAutomation t)
    (automationExpanded t) (zoomY t) (automationZoomY t) (repeatMarkers t)
    (map reloadedMarker (markers t)).

(** ** Copy and paste (main component) *)

Module Clipboard.

Record CopiedMarkerData := mkCopiedMarkerData {
  timelineIndex : Z;
  pythonFile : string;
  renderedBuffer : option AudioBuffer;
  renderedSampleRate : Q;
  lastRenderedTempoBpm : Q;
  lastRenderedDurationSeconds : Q;
  lastRenderedPythonPath : string;
  offsetSeconds : Q;
  waveform : list Q;
  fadeInSeconds : Q;
  fadeOutSeconds : Q;
  renderBars : Z
}.

End Clipboard.

(** The entry that the loop of [copySelectedMarker] makes of one marker. *)
Definition copyMarker (timelineIndex : Z) (anchor : Q) (marker : Marker)
    : Clipboard.CopiedMarkerData :=
  Clipboard.mkCopiedMarkerData timelineIndex (pythonFile marker)
    (copyRenderedBuffer (renderedBuffer marker)) (renderedSampleRate marker)
    (lastRenderedTempoBpm marker) (lastRenderedDurationSeconds marker)
    (lastRenderedPythonPath marker) (startTimeSeconds marker - anchor)
    (waveform marker) (fadeInSeconds marker) (fadeOutSeconds marker)
    (renderBars marker).

(** [copySelectedMarker]: [selected] are the selected markers,
    [timelineIndex] the timeline of the last selected marker and
    [anchorMarker] that marker, as the timeline view holds them; the result
    is the new content of [copiedMarkers]. *)
Definition copySelectedMarker (selected : list Marker) (timelineIndex : Z)
    (anchorMarker : option Marker)
    (copiedMarkers : list Clipboard.CopiedMarkerData)
    : list Clipboard.CopiedMarkerData :=
  match selected with
  | [] => copiedMarkers
  | _ =>
      if (timelineIndex <? 0)%Z then copiedMarkers
      else
        let anchor :=
          match anchorMarker with
          | Some m => startTimeSeconds m
          | None => 0
          end in
        map (copyMarker timelineIndex anchor) selected
  end.

(** The marker that the loop of [pasteCopiedMarkerAtPlayhead] builds from
    one entry.  The duration of the stamp is computed when the start, the
    source file and the sample rate are assigned and the render bars are
    still those of [new Marker ()]. *)
Definition pastedMarker (timeline : Timeline) (localTime : Q)
    (copied : Clipboard.CopiedMarkerData) : Marker :=
  let marker := defaultMarker in
  let targetTime := localTime + Clipboard.offsetSeconds copied in
  let marker :=
    mkMarker (Juce.jlimit 0 (durationSeconds timeline) targetTime)
      (isDragging marker) (renderBars marker) (lastRenderedTempoBpm marker)
      (lastRenderedDurationSeconds marker) (lastRenderedPythonPath marker)
      (waveform marker) (fadeInSeconds marker) (fadeOutSeconds marker)
      (Clipboard.pythonFile copied) (renderedWavFile marker)
      (renderedBuffer marker) (Clipboard.renderedSampleRate copied) in
  let marker :=
    setRenderStamp (renderedSampleRate marker) (tempoBpm timeline)
      (getRenderDurationSecondsForMarker timeline marker)
      (getFullPathName (pythonFile marker)) marker in
  let marker := setWaveform (Clipboard.waveform copied) marker in
  let marker :=
    setFades (Clipboard.fadeInSeconds copied) (Clipboard.fadeOutSeconds copied)
             marker in
  let marker :=
    mkMarker (startTimeSeconds marker) (isDragging marker)
      (Clipboard.renderBars copied) (lastRenderedTempoBpm marker)
      (lastRenderedDurationSeconds marker) (lastRenderedPythonPath marker)
      (waveform marker) (fadeInSeconds marker) (fadeOutSeconds marker)
      (pythonFile marker) (renderedWavFile marker) (renderedBuffer marker)
      (renderedSampleRate marker) in
  setRenderedBuffer (copyRenderedBuffer (Clipboard.renderedBuffer copied))
                    marker.

(** The loop over the entries, on timeline [t]: each marker is appended, and
    a render is requested for one that has no buffer. *)
Fixpoint pasteMarkers (deviceSampleRate : Q) (t : nat) (localTime : Q)
    (copiedMarkers : list Clipboard.CopiedMarkerData) (timeline : Timeline)
    (pool : PythonRenderer.ThreadPool)
    : Timeline * PythonRenderer.ThreadPool :=
  match copiedMarkers with
  | [] => (timeline, pool)
  | copied :: rest =>
      let marker := pastedMarker timeline localTime copied in
      let i := List.length (markers timeline) in
      let timeline := setMarkers (markers timeline ++ [marker]) timeline in
      let pool :=
        match renderedBuffer marker with
        | Some _ => pool
        | None =>
            PythonRenderer.renderMarker pool (t, i) deviceSampleRate
              (getRenderDurationSecondsForMarker timeline marker)
              (tempoBpm timeline) true
        end in
      pasteMarkers deviceSampleRate t localTime rest timeline pool
  end.

(** [pasteCopiedMarkerAtPlayhead]: the state and the pool after it. *)
Definition pasteCopiedMarkerAtPlayhead (deviceSampleRate playheadSeconds : Q)
    (copiedMarkers : list Clipboard.CopiedMarkerData) (st : AppState)
    (pool : PythonRenderer.ThreadPool)
    : AppState * PythonRenderer.ThreadPool :=
  match copiedMarkers with
  | [] => (st, pool)
  | front :: _ =>
      let st := pushUndoState st in
      let count := TimelineModel.getTimelineCount (model st) in
      let timelineIndex := Clipboard.timelineIndex front in
      let timelineIndex :=
        if (timelineIndex <? 0)%Z || (count <=? timelineIndex)%Z
        then selectedTimelineIndex st else timelineIndex in
      if (timelineIndex <? 0)%Z || (count <=? timelineIndex)%Z then (st, pool)
      else
        match nth_error (model st) (Z.to_nat timelineIndex) with
        | None => (st, pool)
        | Some timeline =>
            let localTime := getLoopedLocalTime playheadSeconds timeline in
            let pasted :=
              pasteMarkers deviceSampleRate (Z.to_nat timelineIndex) localTime
                copiedMarkers timeline pool in
            let st :=
              setModel (replaceNth (Z.to_nat timelineIndex) (fst pasted)
                                   (model st)) st in
            (setSelection (selectTimeline count timelineIndex)
                          (selectedMarkers st) st,
             snd pasted)
        end
  end.

(** * Properties *)

(** ** Rational comparisons and the library helpers *)

Lemma Qleb_spec x y : reflect (x <= y) (Qleb x y).
Proof.
  unfold Qleb. destruct (Qle_bool x y) eqn:E; constructor.
  - now apply Qle_bool_iff.
  - intro H. apply Qle_bool_iff in H. congruence.
Qed.

Lemma Qltb_spec x y : reflect (x < y) (Qltb x y).
Proof.
  unfold Qltb. destruct (Qle_bool y x) eqn:E; simpl; constructor.
  - apply Qle_bool_iff in E. now apply Qle_not_lt.
  - apply Qnot_le_lt. intro H. apply Qle_bool_iff in H. congruence.
Qed.

Ltac qcase :=
  match goal with
  | |- context [Qleb ?a ?b] => destruct (Qleb_spec a b)
  | |- context [Qltb ?a ?b] => destruct (Qltb_spec a b)
  end.

Lemma jlimit_below lo hi v : v < lo -> Juce.jlimit lo hi v = lo.
Proof. intro H. unfold Juce.jlimit. qcase; [reflexivity | contradiction]. Qed.

Lemma jlimit_above lo hi v : lo <= v -> hi < v -> Juce.jlimit lo hi v = hi.
Proof.
  intros H1 H2. unfold Juce.jlimit. qcase; [lra |]. qcase; [reflexivity | contradiction].
Qed.

Lemma jlimit_inside lo hi v : lo <= v -> v <= hi -> Juce.jlimit lo hi v = v.
Proof.
  intros H1 H2. unfold Juce.jlimit. qcase; [lra |]. qcase; [lra | reflexivity].
Qed.

Lemma jlimit_range lo hi v : lo <= hi -> lo <= Juce.jlimit lo hi v <= hi.
Proof. intro H. unfold Juce.jlimit. repeat qcase; lra. Qed.

(** ** Remainders *)

Lemma Qfloor_unique (x : Q) (n : Z) :
  inject_Z n <= x -> x < inject_Z (n + 1) -> Qfloor x = n.
Proof.
  intros Hlo Hhi.
  pose proof (Qfloor_le x) as F1. pose proof (Qlt_floor x) as F2.
  assert (A : inject_Z n < inject_Z (Qfloor x + 1)) by lra.
  assert (B : inject_Z (Qfloor x) < inject_Z (n + 1)) by lra.
  rewrite <- Zlt_Qlt in A, B. lia.
Qed.

Lemma Qfloor_add_Z (x : Q) (k : Z) : Qfloor (x + inject_Z k) = (Qfloor x + k)%Z.
Proof.
  apply Qfloor_unique.
  - rewrite inject_Z_plus. pose proof (Qfloor_le x). lra.
  - pose proof (Qlt_floor x) as F.
    replace (Qfloor x + k + 1)%Z with ((Qfloor x + 1) + k)%Z by lia.
    rewrite inject_Z_plus. lra.
Qed.

Lemma trunc_nonneg (x : Q) : 0 <= x -> Cmath.trunc x = Qfloor x.
Proof.
  destruct x as [n d]. unfold Qle, Cmath.trunc, Qfloor. simpl. intro H.
  apply Z.quot_div_nonneg; lia.
Qed.

Lemma trunc_neg (x : Q) : x <= 0 -> Cmath.trunc x = (- Qfloor (- x))%Z.
Proof.
  destruct x as [n d]. unfold Qle, Cmath.trunc, Qfloor, Qopp. simpl. intro H.
  replace n with (- - n)%Z at 1 by lia.
  rewrite Z.quot_opp_l by lia. f_equal.
  apply Z.quot_div_nonneg; lia.
Qed.

Lemma trunc_floor_cases (q : Q) :
  Cmath.trunc q = Qfloor q \/ Cmath.trunc q = (Qfloor q + 1)%Z.
Proof.
  destruct (Qlt_le_dec q 0) as [Hneg | Hpos].
  - rewrite trunc_neg by lra.
    pose proof (Qfloor_le q) as A. pose proof (Qlt_floor q) as B.
    pose proof (Qfloor_le (- q)) as C. pose proof (Qlt_floor (- q)) as D.
    rewrite inject_Z_plus in B, D.
    assert (E1 : inject_Z (Qfloor q) < inject_Z (- Qfloor (- q) + 1)).
    { rewrite inject_Z_plus, inject_Z_opp. lra. }
    assert (E2 : inject_Z (- Qfloor (- q)) < inject_Z (Qfloor q + 2)).
    { rewrite inject_Z_plus, inject_Z_opp.
      change (inject_Z 2) with 2. change (inject_Z 1) with 1 in *. lra. }
    rewrite <- Zlt_Qlt in E1, E2. lia.
  - left. now apply trunc_nonneg.
Qed.

Lemma floor_mod_range (x y : Q) :
  0 < y -> 0 <= Cmath.floor_mod x y /\ Cmath.floor_mod x y < y.
Proof.
  intro Hy. unfold Cmath.floor_mod.
  pose proof (Qfloor_le (x / y)) as A. pose proof (Qlt_floor (x / y)) as B.
  rewrite inject_Z_plus in B. change (inject_Z 1) with 1 in B.
  assert (E : x == (x / y) * y) by (field; lra).
  set (n := inject_Z (Qfloor (x / y))) in *. set (q := x / y) in *.
  assert (P1 : 0 <= (q - n) * y) by (apply Qmult_le_0_compat; lra).
  assert (P2 : 0 < (n + 1 - q) * y) by (apply Qmult_lt_0_compat; lra).
  split; lra.
Qed.

Lemma floor_mod_comp (x x' y : Q) :
  x == x' -> Cmath.floor_mod x y == Cmath.floor_mod x' y.
Proof.
  intro E. unfold Cmath.floor_mod.
  assert (F : Qfloor (x / y) = Qfloor (x' / y)) by (apply Qfloor_comp; now rewrite E).
  rewrite F, E. reflexivity.
Qed.

Lemma floor_mod_periodic (x y : Q) (k : Z) :
  0 < y -> Cmath.floor_mod (x + inject_Z k * y) y == Cmath.floor_mod x y.
Proof.
  intro Hy. unfold Cmath.floor_mod.
  assert (F : Qfloor ((x + inject_Z k * y) / y) = (Qfloor (x / y) + k)%Z).
  { rewrite <- Qfloor_add_Z. apply Qfloor_comp. field. lra. }
  rewrite F, inject_Z_plus. ring.
Qed.

Lemma floor_mod_small (r y : Q) :
  0 <= r -> r < y -> Cmath.floor_mod r y == r.
Proof.
  intros H0 H1. unfold Cmath.floor_mod.
  assert (F : Qfloor (r / y) = 0%Z).
  { apply Qfloor_unique.
    - apply Qle_shift_div_l; [lra | change (inject_Z 0) with 0; lra].
    - apply Qlt_shift_div_r; [lra | change (inject_Z (0 + 1)) with 1; lra]. }
  rewrite F. ring.
Qed.

(** [fmod] is the floored remainder, or that less the divisor. *)
Lemma fmod_floor_mod_cases (x y : Q) :
  Cmath.fmod x y == Cmath.floor_mod x y \/
  Cmath.fmod x y == Cmath.floor_mod x y - y.
Proof.
  unfold Cmath.fmod, Cmath.floor_mod.
  destruct (trunc_floor_cases (x / y)) as [E | E]; rewrite E.
  - left. reflexivity.
  - right. rewrite inject_Z_plus. ring.
Qed.

Lemma fmod_nonneg (x y : Q) :
  0 < y -> 0 <= x -> Cmath.fmod x y == Cmath.floor_mod x y.
Proof.
  intros Hy Hx. unfold Cmath.fmod, Cmath.floor_mod.
  rewrite trunc_nonneg; [reflexivity |].
  apply Qle_shift_div_l; lra.
Qed.

(** The remainder and its correction when negative, as the code writes it
    three times: the floored remainder. *)
Lemma fmod_wrap (t m : Q) :
  0 < m ->
  (if Qltb (Cmath.fmod t m) 0 then Cmath.fmod t m + m else Cmath.fmod t m)
  == Cmath.floor_mod t m.
Proof.
  intro Hm. pose proof (floor_mod_range t m Hm) as [R0 R1].
  destruct (fmod_floor_mod_cases t m) as [E | E]; qcase; lra.
Qed.

Lemma fmod_is_shift (x y : Q) :
  Cmath.fmod x y == x + inject_Z (- Cmath.trunc (x / y)) * y.
Proof. unfold Cmath.fmod. rewrite inject_Z_opp. ring. Qed.

(** The formula [((t mod m) + m) mod m] is the floored remainder, whether
    [mod] is read as [fmod] or as the floored remainder. *)
Lemma wrapFormula_fmod (t m : Q) :
  0 < m -> wrapFormula Cmath.fmod t m == Cmath.floor_mod t m.
Proof.
  intro Hm. unfold wrapFormula.
  pose proof (floor_mod_range t m Hm) as [R0 R1].
  assert (P : 0 <= Cmath.fmod t m + m)
    by (destruct (fmod_floor_mod_cases t m) as [E | E]; lra).
  rewrite (fmod_nonneg _ _ Hm P).
  assert (S1 : Cmath.fmod t m + m == Cmath.fmod t m + inject_Z 1 * m)
    by (change (inject_Z 1) with 1; ring).
  rewrite (floor_mod_comp _ _ _ S1), (floor_mod_periodic _ _ _ Hm).
  rewrite (floor_mod_comp _ _ _ (fmod_is_shift t m)).
  apply floor_mod_periodic, Hm.
Qed.

Lemma wrapFormula_floor_mod (t m : Q) :
  0 < m -> wrapFormula Cmath.floor_mod t m == Cmath.floor_mod t m.
Proof.
  intro Hm. unfold wrapFormula.
  pose proof (floor_mod_range t m Hm) as [R0 R1].
  assert (S1 : Cmath.floor_mod t m + m == Cmath.floor_mod t m + inject_Z 1 * m)
    by (change (inject_Z 1) with 1; ring).
  rewrite (floor_mod_comp _ _ _ S1), (floor_mod_periodic _ _ _ Hm).
  now apply floor_mod_small.
Qed.

(** ** Time mapping *)

Lemma getLoopedLocalTime_no_marker (timeline : Timeline) (t : Q) :
  0 < durationSeconds timeline -> repeatMarkers timeline = [] ->
  getLoopedLocalTime t timeline == Cmath.floor_mod t (durationSeconds timeline).
Proof.
  intros Hd Hr. unfold getLoopedLocalTime. rewrite Hr.
  destruct (Qleb_spec (durationSeconds timeline) 0); [lra |].
  now apply fmod_wrap.
Qed.

Lemma getLoopedLocalTime_one_marker_loop (timeline : Timeline) (t m : Q) :
  0 < durationSeconds timeline -> repeatMarkers timeline = [m] ->
  0 < m -> m <= t ->
  getLoopedLocalTime t timeline == Cmath.floor_mod t m.
Proof.
  intros Hd Hr Hm Ht. unfold getLoopedLocalTime. rewrite Hr.
  destruct (Qleb_spec (durationSeconds timeline) 0); [lra |].
  destruct (Qltb_spec 0 m); [| contradiction].
  destruct (Qleb_spec m t); [| contradiction].
  simpl. now apply fmod_wrap.
Qed.

Lemma getLoopedLocalTime_one_marker_clamp (timeline : Timeline) (t m : Q) :
  0 < durationSeconds timeline -> repeatMarkers timeline = [m] ->
  ~ (0 < m /\ m <= t) ->
  getLoopedLocalTime t timeline = Juce.jlimit 0 (durationSeconds timeline) t.
Proof.
  intros Hd Hr Hn. unfold getLoopedLocalTime. rewrite Hr.
  destruct (Qleb_spec (durationSeconds timeline) 0); [lra |].
  destruct (Qltb_spec 0 m); destruct (Qleb_spec m t); simpl;
    try reflexivity.
  exfalso. apply Hn. now split.
Qed.

(** C1. On a timeline of positive duration with the single repeat marker
    [m]: when [m > 0] and [t >= m] the local time is [((t mod m) + m) mod m]
    (with [mod] read as [fmod] or as the floored remainder alike), a value
    of [[0, m)]; otherwise it is [t] clamped to [[0, durationSeconds]].  With
    [m = 3] and duration 10 the times 2, 3, 4.5 and 9 are mapped to 2, 0, 1.5
    and 0. *)
Theorem C1_single_repeat_marker (timeline : Timeline) (t m : Q) :
  0 < durationSeconds timeline ->
  repeatMarkers timeline = [m] ->
  (0 < m /\ m <= t ->
     getLoopedLocalTime t timeline == wrapFormula Cmath.fmod t m /\
     getLoopedLocalTime t timeline == wrapFormula Cmath.floor_mod t m /\
     0 <= getLoopedLocalTime t timeline < m)
  /\
  (~ (0 < m /\ m <= t) ->
     getLoopedLocalTime t timeline
       = Juce.jlimit 0 (durationSeconds timeline) t /\
     (t < 0 -> getLoopedLocalTime t timeline == 0) /\
     (0 <= t <= durationSeconds timeline ->
        getLoopedLocalTime t timeline == t) /\
     (durationSeconds timeline < t ->
        getLoopedLocalTime t timeline == durationSeconds timeline))
  /\
  (m = 3 -> durationSeconds timeline == 10 ->
     getLoopedLocalTime 2 timeline == 2 /\
     getLoopedLocalTime 3 timeline == 0 /\
     getLoopedLocalTime (9 # 2) timeline == 3 # 2 /\
     getLoopedLocalTime 9 timeline == 0).
Proof.
  intros Hd Hr. split; [| split].
  - intros [Hm Ht].
    pose proof (getLoopedLocalTime_one_marker_loop timeline t m Hd Hr Hm Ht) as E.
    pose proof (floor_mod_range t m Hm) as [R0 R1].
    rewrite wrapFormula_fmod, wrapFormula_floor_mod by assumption.
    repeat split; try assumption; rewrite E; assumption.
  - intro Hn.
    rewrite (getLoopedLocalTime_one_marker_clamp timeline t m Hd Hr Hn).
    split; [reflexivity |]. split; [| split].
    + intro H. now rewrite jlimit_below.
    + intros [H0 H1]. now rewrite jlimit_inside.
    + intro H. rewrite jlimit_above; [reflexivity | lra | assumption].
  - intros -> Hten.
    assert (L : forall t', 3 <= t' ->
              getLoopedLocalTime t' timeline == Cmath.floor_mod t' 3).
    { intros t' H. apply getLoopedLocalTime_one_marker_loop; auto. reflexivity. }
    split; [| split; [| split]].
    + rewrite (getLoopedLocalTime_one_marker_clamp timeline 2 3 Hd Hr).
      * rewrite jlimit_inside; [reflexivity | lra | lra].
      * intros [_ H]. revert H. apply Qlt_not_le. reflexivity.
    + rewrite L by (apply Qle_refl). reflexivity.
    + rewrite L by (unfold Qle; simpl; lia). reflexivity.
    + rewrite L by (unfold Qle; simpl; lia). reflexivity.
Qed.

(** The timeline of the example: duration 10, one repeat marker at 3. *)
Lemma C1_single_repeat_marker_witness :
  let timeline := mkTimeline 120 10 4 4 0 10 1 0 1 [] [] false 1 1 [3] [] in
  getLoopedLocalTime 2 timeline == 2 /\
  getLoopedLocalTime 3 timeline == 0 /\
  getLoopedLocalTime (9 # 2) timeline == 3 # 2 /\
  getLoopedLocalTime 9 timeline == 0.
Proof.
  intro timeline.
  apply (C1_single_repeat_marker timeline 2 3); reflexivity.
Defined.

(** C2. On a timeline of positive duration without repeat markers the local
    time is [((t mod d) + d) mod d] for the duration [d], a value of
    [[0, d)], and it is unchanged when a whole number of durations is added
    to [t]. *)
Theorem C2_no_marker_periodic (timeline : Timeline) (t : Q) (k : Z) :
  0 < durationSeconds timeline ->
  repeatMarkers timeline = [] ->
  getLoopedLocalTime (t + inject_Z k * durationSeconds timeline) timeline
    == getLoopedLocalTime t timeline /\
  getLoopedLocalTime t timeline
    == wrapFormula Cmath.fmod t (durationSeconds timeline) /\
  getLoopedLocalTime t timeline
    == wrapFormula Cmath.floor_mod t (durationSeconds timeline) /\
  0 <= getLoopedLocalTime t timeline < durationSeconds timeline.
Proof.
  intros Hd Hr.
  pose proof (getLoopedLocalTime_no_marker timeline t Hd Hr) as E.
  pose proof (floor_mod_range t _ Hd) as [R0 R1].
  rewrite wrapFormula_fmod, wrapFormula_floor_mod by assumption.
  repeat split; try assumption; try (rewrite E; assumption).
  rewrite E, getLoopedLocalTime_no_marker by assumption.
  now apply floor_mod_periodic.
Qed.

Lemma C2_no_marker_periodic_witness :
  let timeline := mkTimeline 120 8 4 4 0 8 1 0 1 [] [] false 1 1 [] [] in
  getLoopedLocalTime ((-5 # 2) + inject_Z 3 * 8) timeline
    == getLoopedLocalTime (-5 # 2) timeline /\
  getLoopedLocalTime (-5 # 2) timeline == wrapFormula Cmath.fmod (-5 # 2) 8 /\
  getLoopedLocalTime (-5 # 2) timeline
    == wrapFormula Cmath.floor_mod (-5 # 2) 8 /\
  0 <= getLoopedLocalTime (-5 # 2) timeline < 8.
Proof.
  intro timeline.
  apply (C2_no_marker_periodic timeline (-5 # 2) 3); reflexivity.
Defined.

(** ** Automation curves *)

(** The last element of a list that is not empty does not depend on the
    default. *)
Lemma last_cons_default {A : Type} (x : A) (l : list A) (d d' : A) :
  last (x :: l) d = last (x :: l) d'.
Proof.
  revert x. induction l as [| y l IH]; intro x; [reflexivity |].
  change (last (y :: l) d = last (y :: l) d'). apply IH.
Qed.

Lemma laneSorted_front_back (front : AutomationPoint) (rest : list AutomationPoint) :
  laneSorted (front :: rest) ->
  forall p, In p (front :: rest) -> timeSeconds front <= timeSeconds p.
Proof.
  revert front. induction rest as [| b rest IH]; intros front Hs p Hin.
  - destruct Hin as [<- | []]. apply Qle_refl.
  - destruct Hs as [Hab Hs]. destruct Hin as [<- | Hin]; [apply Qle_refl |].
    apply Qle_trans with (timeSeconds b); [assumption |]. now apply IH.
Qed.

Lemma laneSorted_before_back (front : AutomationPoint) (rest : list AutomationPoint) :
  laneSorted (front :: rest) ->
  forall p, In p (front :: rest) ->
  timeSeconds p <= timeSeconds (last (front :: rest) front).
Proof.
  revert front. induction rest as [| b rest IH]; intros front Hs p Hin.
  - destruct Hin as [<- | []]. apply Qle_refl.
  - destruct Hs as [Hab Hs].
    change (last (front :: b :: rest) front) with (last (b :: rest) front).
    rewrite (last_cons_default b rest front b).
    destruct Hin as [<- | Hin]; [| now apply IH].
    apply Qle_trans with (timeSeconds b); [assumption |].
    apply IH; [assumption | now left].
Qed.

(** The loop stops at the first point at or after [t] and interpolates
    between that point and the one before it. *)
Lemma evalAutomationLoop_bracket (rest : list AutomationPoint) :
  forall (prev : AutomationPoint) (t back : Q),
  timeSeconds prev < t ->
  t < timeSeconds (last (prev :: rest) prev) ->
  exists before a b after,
    prev :: rest = before ++ a :: b :: after /\
    (forall p, In p before -> timeSeconds p < t) /\
    timeSeconds a < t /\ t <= timeSeconds b /\
    evalAutomationLoop prev rest t back
      = (if Qleb (timeSeconds b - timeSeconds a) 0 then value b
         else value a
              + (t - timeSeconds a) / (timeSeconds b - timeSeconds a)
                * (value b - value a)).
Proof.
  induction rest as [| b rest IH]; intros prev t back Hprev Hback.
  - simpl in Hback. lra.
  - simpl evalAutomationLoop. destruct (Qleb_spec t (timeSeconds b)) as [Hle | Hgt].
    + exists [], prev, b, rest. repeat split; try assumption.
      intros p [].
    + apply Qnot_le_lt in Hgt.
      change (last (prev :: b :: rest) prev) with (last (b :: rest) prev) in Hback.
      rewrite (last_cons_default b rest prev b) in Hback.
      destruct (IH b t back Hgt Hback) as (before & a & b' & after & E & Hb & Ha & Hb' & R).
      exists (prev :: before), a, b', after. repeat split; try assumption.
      * simpl. now rewrite E.
      * intros p [<- | Hin]; [assumption | now apply Hb].
Qed.

(** C3. [evalAutomation] on a lane sorted by time: the default on the empty
    lane; the value of the first point when [t] is at or before its time;
    the value of the last point when [t] is at or after its time (and after
    the first point: a lane whose points all sit at [t] yields the value of
    the first one, these cases being tried in this order); otherwise the
    value interpolated linearly by time between the two neighbouring points
    [a] and [b] with [a] before [t] and [b] at or after it, where a span that
    is not positive would yield the value of [b].  The lane of the points
    (0, 0) and (4, 1) yields 0.5 at time 2. *)
Theorem C3_evalAutomation (points : list AutomationPoint) (t d : Q) :
  laneSorted points ->
  (points = [] -> evalAutomation points t d = d)
  /\
  (forall front rest, points = front :: rest ->
     let back := last points front in
     (t <= timeSeconds front -> evalAutomation points t d = value front) /\
     (timeSeconds back <= t ->
        (timeSeconds front < t -> evalAutomation points t d = value back) /\
        (t <= timeSeconds front ->
           forall p, In p points -> timeSeconds p == t)) /\
     (timeSeconds front < t -> t < timeSeconds back ->
        exists before a b after,
          points = before ++ a :: b :: after /\
          (forall p, In p before -> timeSeconds p < t) /\
          timeSeconds a < t /\ t <= timeSeconds b /\
          evalAutomation points t d
            = (if Qleb (timeSeconds b - timeSeconds a) 0 then value b
               else value a
                    + (t - timeSeconds a) / (timeSeconds b - timeSeconds a)
                      * (value b - value a)) /\
          evalAutomation points t d
            == value a
               + (t - timeSeconds a) / (timeSeconds b - timeSeconds a)
                 * (value b - value a)))
  /\
  evalAutomation [mkAutomationPoint 0 0 0; mkAutomationPoint 1 4 1] 2 d
    == 1 # 2.
Proof.
  intro Hs. split; [| split].
  - intros ->. reflexivity.
  - intros front rest ->. cbv zeta. split; [| split].
    + intro H. unfold evalAutomation.
      destruct (Qleb_spec t (timeSeconds front)); [reflexivity | contradiction].
    + intro Hb. split.
      * intro Hf. unfold evalAutomation.
        destruct (Qleb_spec t (timeSeconds front)); [lra |].
        destruct (Qleb_spec (timeSeconds (last (front :: rest) front)) t);
          [reflexivity | contradiction].
      * intros Hf p Hin.
        pose proof (laneSorted_front_back front rest Hs p Hin).
        pose proof (laneSorted_before_back front rest Hs p Hin).
        lra.
    + intros Hf Hb.
      destruct (evalAutomationLoop_bracket rest front t
                  (value (last (front :: rest) front)) Hf Hb)
        as (before & a & b & after & E & Hbef & Ha & Hb' & R).
      assert (Ev : evalAutomation (front :: rest) t d
                   = evalAutomationLoop front rest t
                       (value (last (front :: rest) front))).
      { unfold evalAutomation.
        destruct (Qleb_spec t (timeSeconds front)); [lra |].
        destruct (Qleb_spec (timeSeconds (last (front :: rest) front)) t);
          [lra | reflexivity]. }
      exists before, a, b, after. rewrite Ev, R.
      repeat split; try assumption.
      destruct (Qleb_spec (timeSeconds b - timeSeconds a) 0); [lra | reflexivity].
  - reflexivity.
Qed.

Lemma C3_evalAutomation_witness :
  let lane := [mkAutomationPoint 0 0 0; mkAutomationPoint 1 4 1] in
  evalAutomation lane (-1) 7 = 0 /\
  evalAutomation lane 5 7 = 1 /\
  evalAutomation [] 2 7 = 7 /\
  evalAutomation lane 2 7 == 1 # 2.
Proof.
  intro lane.
  assert (S : laneSorted lane) by (simpl; split; [discriminate | exact I]).
  destruct (C3_evalAutomation lane (-1) 7 S) as [_ [A _]].
  destruct (C3_evalAutomation lane 5 7 S) as [_ [B _]].
  destruct (C3_evalAutomation [] 2 7 I) as [C [_ D]].
  destruct (A _ _ eq_refl) as [A1 _].
  destruct (B _ _ eq_refl) as [_ [B2 _]].
  split; [| split; [| split]].
  - apply A1. discriminate.
  - apply B2; [discriminate | reflexivity].
  - apply C. reflexivity.
  - exact D.
Defined.

(** ** The re-render decision *)

(** Two values within the tolerance of [approximatelyEqual]. *)
Lemma approximatelyEqual_iff (a b : Q) :
  Juce.approximatelyEqual a b = true <->
  Qabs (a - b) <= Juce.DBL_MIN \/
  Qabs (a - b) <= Juce.DBL_EPSILON * Juce.jmax (Qabs a) (Qabs b).
Proof.
  unfold Juce.approximatelyEqual, Qleb. cbv zeta.
  rewrite orb_true_iff, !Qle_bool_iff. reflexivity.
Qed.

Lemma approximatelyEqual_same (a b : Q) :
  a == b -> Juce.approximatelyEqual a b = true.
Proof.
  intro E. apply approximatelyEqual_iff. left.
  assert (Z0 : a - b == 0) by lra. rewrite Z0. discriminate.
Qed.

Lemma outstanding_app (pool pool' : PythonRenderer.ThreadPool) r :
  PythonRenderer.outstanding (pool ++ pool') r
  = (PythonRenderer.outstanding pool r + PythonRenderer.outstanding pool' r)%nat.
Proof.
  unfold PythonRenderer.outstanding. now rewrite filter_app, length_app.
Qed.

Lemma markerRef_eqb_eq (a b : PythonRenderer.MarkerRef) :
  PythonRenderer.markerRef_eqb a b = true <-> a = b.
Proof.
  destruct a as [a1 a2], b as [b1 b2]. unfold PythonRenderer.markerRef_eqb. simpl.
  rewrite andb_true_iff, !Nat.eqb_eq. split; [intros [-> ->]; reflexivity |].
  intro E. injection E. auto.
Qed.

(** Submitting a request adds one job for its marker and none for another,
    whatever the pool holds. *)
Lemma renderMarker_outstanding (pool : PythonRenderer.ThreadPool)
    (marker r : PythonRenderer.MarkerRef) (sr dur tempo : Q) (cb : bool) :
  PythonRenderer.outstanding
    (PythonRenderer.renderMarker pool marker sr dur tempo cb) r
  = (PythonRenderer.outstanding pool r
     + if PythonRenderer.markerRef_eqb marker r then 1 else 0)%nat.
Proof.
  unfold PythonRenderer.renderMarker, PythonRenderer.addJob.
  rewrite outstanding_app. f_equal.
  unfold PythonRenderer.outstanding. simpl.
  now destruct (PythonRenderer.markerRef_eqb marker r).
Qed.

Lemma rerenderMarkersFrom_outstanding (sr : Q) (timelineIndex : nat)
    (timeline : Timeline) (ms : list Marker) :
  forall (i0 : nat) (pool : PythonRenderer.ThreadPool) (j : nat),
  PythonRenderer.outstanding
    (rerenderMarkersFrom sr timelineIndex i0 timeline ms pool)
    (timelineIndex, j)
  = (PythonRenderer.outstanding pool (timelineIndex, j)
     + match (if (i0 <=? j)%nat then nth_error ms (j - i0) else None) with
       | Some m => if needsRerender timeline m then 1 else 0
       | None => 0
       end)%nat.
Proof.
  induction ms as [| m rest IH]; intros i0 pool j.
  - simpl. destruct (i0 <=? j)%nat; [destruct (j - i0)%nat |]; simpl; lia.
  - simpl rerenderMarkersFrom. rewrite IH.
    assert (P : PythonRenderer.outstanding
                  (if needsRerender timeline m
                   then PythonRenderer.renderMarker pool (timelineIndex, i0)
                          sr
                          (getRenderDurationSecondsForMarker timeline m)
                          (tempoBpm timeline) true
                   else pool) (timelineIndex, j)
                = (PythonRenderer.outstanding pool (timelineIndex, j)
                   + if (i0 =? j)%nat
                     then (if needsRerender timeline m then 1 else 0)
                     else 0)%nat).
    { destruct (needsRerender timeline m).
      - rewrite renderMarker_outstanding. unfold PythonRenderer.markerRef_eqb.
        simpl. rewrite Nat.eqb_refl. reflexivity.
      - destruct (i0 =? j)%nat; lia. }
    rewrite P.
    destruct (Nat.eqb_spec i0 j) as [-> | Hne].
    + rewrite Nat.leb_refl, Nat.sub_diag.
      replace (S j <=? j)%nat with false by (symmetry; apply Nat.leb_gt; lia).
      simpl. lia.
    + destruct (Nat.leb_spec i0 j) as [Hle | Hgt].
      * replace (S i0 <=? j)%nat with true by (symmetry; apply Nat.leb_le; lia).
        replace (j - i0)%nat with (S (j - S i0)) by lia. simpl. lia.
      * replace (S i0 <=? j)%nat with false by (symmetry; apply Nat.leb_gt; lia).
        lia.
Qed.

(** ** The render pool *)

Lemma numActive_addJob (pool : PythonRenderer.ThreadPool) j :
  PythonRenderer.numActive (PythonRenderer.addJob pool j)
  = PythonRenderer.numActive pool.
Proof.
  unfold PythonRenderer.numActive, PythonRenderer.addJob.
  rewrite filter_app, length_app. simpl. lia.
Qed.

Lemma numActive_activateFirstWaiting (pool : PythonRenderer.ThreadPool) :
  (PythonRenderer.numActive (PythonRenderer.activateFirstWaiting pool)
   <= S (PythonRenderer.numActive pool))%nat.
Proof.
  unfold PythonRenderer.numActive.
  induction pool as [| e rest IH]; simpl; [lia |].
  destruct (PythonRenderer.isActive e) eqn:E; simpl.
  - rewrite E. simpl. lia.
  - lia.
Qed.

Lemma numActive_finishJob (pool : PythonRenderer.ThreadPool) :
  forall i,
  (PythonRenderer.numActive (PythonRenderer.finishJob i pool)
   <= PythonRenderer.numActive pool)%nat.
Proof.
  unfold PythonRenderer.numActive.
  induction pool as [| e rest IH]; intro i; [destruct i; simpl; lia |].
  destruct i as [| i]; simpl.
  - destruct (PythonRenderer.isActive e) eqn:E; simpl; [lia |].
    rewrite E. lia.
  - destruct (PythonRenderer.isActive e); simpl; specialize (IH i); lia.
Qed.

Lemma poolStep_numActive (pool : PythonRenderer.ThreadPool) ev :
  (PythonRenderer.numActive pool <= PythonRenderer.numThreads)%nat ->
  (PythonRenderer.numActive (PythonRenderer.poolStep pool ev)
   <= PythonRenderer.numThreads)%nat.
Proof.
  intro H. destruct ev as [j | | i]; simpl.
  - now rewrite numActive_addJob.
  - unfold PythonRenderer.startNextJob.
    destruct (Nat.ltb_spec (PythonRenderer.numActive pool) PythonRenderer.numThreads);
      [| assumption].
    pose proof (numActive_activateFirstWaiting pool). lia.
  - pose proof (numActive_finishJob pool i). lia.
Qed.

Lemma fold_poolStep_numActive (events : list PythonRenderer.PoolEvent) :
  forall pool,
  (PythonRenderer.numActive pool <= PythonRenderer.numThreads)%nat ->
  (PythonRenderer.numActive (fold_left PythonRenderer.poolStep events pool)
   <= PythonRenderer.numThreads)%nat.
Proof.
  induction events as [| ev rest IH]; intros pool H; [assumption |].
  simpl. apply IH. now apply poolStep_numActive.
Qed.

Lemma inFlight_le_numActive (pool : PythonRenderer.ThreadPool) r :
  (PythonRenderer.inFlight pool r <= PythonRenderer.numActive pool)%nat.
Proof.
  unfold PythonRenderer.inFlight, PythonRenderer.numActive.
  induction pool as [| e rest IH]; simpl; [lia |].
  destruct (PythonRenderer.isActive e); simpl; [| assumption].
  destruct (PythonRenderer.markerRef_eqb _ _); simpl; lia.
Qed.

(** C9, as the specification states it, fails: two requests for the same
    marker leave two jobs of that marker in the pool, and the two worker
    threads run both at the same time. *)
Lemma C9_two_jobs_for_one_marker :
  let marker : PythonRenderer.MarkerRef := (0%nat, 0%nat) in
  let j := PythonRenderer.mkRenderJob marker 44100 8 120 true in
  let requested :=
    PythonRenderer.renderMarker
      (PythonRenderer.renderMarker [] marker 44100 8 120 true)
      marker 44100 8 120 true in
  ~ (PythonRenderer.outstanding requested marker <= 1)%nat /\
  requested
    = PythonRenderer.runPool [PythonRenderer.Submit j; PythonRenderer.Submit j] /\
  PythonRenderer.inFlight
    (PythonRenderer.runPool
       [PythonRenderer.Submit j; PythonRenderer.Submit j;
        PythonRenderer.Start; PythonRenderer.Start])
    marker = 2%nat.
Proof.
  cbv zeta. split; [| split].
  - vm_compute. intro H. apply Nat.leb_le in H. discriminate.
  - reflexivity.
  - reflexivity.
Qed.

(** C9, amended.  [renderMarker] appends a job to the pool without looking
    at the jobs already there: each request adds exactly one outstanding job
    for its marker and none for any other marker.  What bounds the jobs in
    flight is the pool alone: over every sequence of submissions, starts and
    completions at most two jobs run at a time, for whichever markers. *)
Theorem C9_render_requests_accumulate :
  (forall (pool : PythonRenderer.ThreadPool)
          (marker r : PythonRenderer.MarkerRef) (sr dur tempo : Q) (cb : bool),
     PythonRenderer.outstanding
       (PythonRenderer.renderMarker pool marker sr dur tempo cb) r
     = (PythonRenderer.outstanding pool r + if PythonRenderer.markerRef_eqb marker r then 1 else 0)%nat)
  /\
  (forall (events : list PythonRenderer.PoolEvent) (r : PythonRenderer.MarkerRef),
     (PythonRenderer.numActive (PythonRenderer.runPool events) <= 2)%nat /\
     (PythonRenderer.inFlight (PythonRenderer.runPool events) r <= 2)%nat).
Proof.
  split.
  - intros. apply renderMarker_outstanding.
  - intros events r.
    assert (A : (PythonRenderer.numActive (PythonRenderer.runPool events)
                 <= PythonRenderer.numThreads)%nat).
    { apply fold_poolStep_numActive.
      unfold PythonRenderer.numActive, PythonRenderer.numThreads. simpl. lia. }
    unfold PythonRenderer.numThreads in A.
    pose proof (inFlight_le_numActive (PythonRenderer.runPool events) r). lia.
Qed.

(** ** The render job *)

(** [runJob] over the path of the output file and the command line. *)
Lemma runJob_eq (w : RenderJob.World) (j : PythonRenderer.RenderJob)
    (marker : Marker) :
  RenderJob.runJob w j marker =
  let callback := PythonRenderer.callback j in
  if negb (RenderJob.existsAsFile w (pythonFile marker)) then
    (marker, RenderJob.invoke callback false "Python file does not exist")
  else
    let started := setRenderedWavFile (RenderJob.wavPath w) marker in
    if negb (RenderJob.processStart w (RenderJob.commandLine w j marker)) then
      (started, RenderJob.invoke callback false "Failed to start python process")
    else if negb (RenderJob.existsAfterWait w (RenderJob.wavPath w)) then
      (started, RenderJob.invoke callback false "Python did not produce a WAV file")
    else
      match RenderJob.createReaderFor w (RenderJob.wavPath w) with
      | None =>
          (started, RenderJob.invoke callback false "Failed to read rendered WAV")
      | Some reader =>
          (setWaveform (computeWaveform (Some (RenderJob.readerSamples reader)))
             (setRenderStamp (RenderJob.readerSampleRate reader)
                (PythonRenderer.tempoBpm j) (PythonRenderer.durationSeconds j)
                (pythonFile marker)
                (setRenderedBuffer (Some (RenderJob.readerSamples reader)) started)),
           RenderJob.invoke callback true "Render complete")
      end.
Proof. reflexivity. Qed.

Lemma runJob_cases (w : RenderJob.World) (j : PythonRenderer.RenderJob)
    (marker : Marker) :
  (exists f, RenderJob.failsWith w j marker f) \/
  (exists reader,
     RenderJob.createReaderFor w (RenderJob.wavPath w) = Some reader /\
     snd (RenderJob.runJob w j marker)
       = RenderJob.invoke (PythonRenderer.callback j) true "Render complete" /\
     renderedBuffer (fst (RenderJob.runJob w j marker))
       = Some (RenderJob.readerSamples reader)).
Proof.
  rewrite runJob_eq. cbv zeta.
  destruct (RenderJob.existsAsFile w (pythonFile marker)) eqn:E1;
    [| left; exists RenderJob.MissingSource; exact E1].
  destruct (RenderJob.processStart w (RenderJob.commandLine w j marker)) eqn:E2;
    [| left; exists RenderJob.ProcessStartFailure; split; assumption].
  destruct (RenderJob.existsAfterWait w (RenderJob.wavPath w)) eqn:E3;
    [| left; exists RenderJob.NoOutputProduced; repeat split; assumption].
  destruct (RenderJob.createReaderFor w (RenderJob.wavPath w)) as [reader |] eqn:E4;
    [| left; exists RenderJob.UnreadableOutput; repeat split; assumption].
  right. exists reader. repeat split.
Qed.

(** The message of each failure. *)
Lemma runJob_failure (w : RenderJob.World) (j : PythonRenderer.RenderJob)
    (marker : Marker) (f : RenderJob.Failure) :
  RenderJob.failsWith w j marker f ->
  exists wav reason,
    reason <> ""%string /\
    RenderJob.runJob w j marker
      = (setRenderedWavFile wav marker,
         RenderJob.invoke (PythonRenderer.callback j) false reason).
Proof.
  intro H. rewrite runJob_eq. cbv zeta.
  destruct f; cbn [RenderJob.failsWith] in H.
  - rewrite H. cbn [negb].
    exists (renderedWavFile marker), "Python file does not exist"%string.
    split; [discriminate |]. now destruct marker.
  - destruct H as [H1 H2]. rewrite H1, H2. cbn [negb].
    exists (RenderJob.wavPath w), "Failed to start python process"%string.
    split; [discriminate | reflexivity].
  - destruct H as (H1 & H2 & H3). rewrite H1, H2, H3. cbn [negb].
    exists (RenderJob.wavPath w), "Python did not produce a WAV file"%string.
    split; [discriminate | reflexivity].
  - destruct H as (H1 & H2 & H3 & H4). rewrite H1, H2, H3, H4. cbn [negb].
    exists (RenderJob.wavPath w), "Failed to read rendered WAV"%string.
    split; [discriminate | reflexivity].
Qed.

(** A job that meets none of the four failures succeeds. *)
Lemma runJob_success (w : RenderJob.World) (j : PythonRenderer.RenderJob)
    (marker : Marker) :
  (forall f, ~ RenderJob.failsWith w j marker f) ->
  exists reader,
    RenderJob.runJob w j marker
    = (setWaveform (computeWaveform (Some (RenderJob.readerSamples reader)))
         (setRenderStamp (RenderJob.readerSampleRate reader)
            (PythonRenderer.tempoBpm j) (PythonRenderer.durationSeconds j)
            (pythonFile marker)
            (setRenderedBuffer (Some (RenderJob.readerSamples reader))
               (setRenderedWavFile (RenderJob.wavPath w) marker))),
       RenderJob.invoke (PythonRenderer.callback j) true "Render complete").
Proof.
  intro Hok. rewrite runJob_eq. cbv zeta.
  destruct (RenderJob.existsAsFile w (pythonFile marker)) eqn:E1;
    [| exfalso; apply (Hok RenderJob.MissingSource); exact E1].
  destruct (RenderJob.processStart w (RenderJob.commandLine w j marker)) eqn:E2;
    [| exfalso; apply (Hok RenderJob.ProcessStartFailure); split; assumption].
  destruct (RenderJob.existsAfterWait w (RenderJob.wavPath w)) eqn:E3;
    [| exfalso; apply (Hok RenderJob.NoOutputProduced); repeat split; assumption].
  destruct (RenderJob.createReaderFor w (RenderJob.wavPath w)) as [reader |] eqn:E4;
    [| exfalso; apply (Hok RenderJob.UnreadableOutput); repeat split; assumption].
  exists reader. reflexivity.
Qed.

(** C7. A render job that fails (the source file is missing, the process
    does not start, no output file is there after the wait, or the output
    cannot be read) leaves the rendered buffer of the marker as it was,
    present or absent, together with its sample rate, waveform and render
    stamp, and the callback, when one was given, is called exactly once with
    [false] and a message that is not empty. *)
Theorem C7_failed_job_keeps_buffer (w : RenderJob.World)
    (j : PythonRenderer.RenderJob) (marker : Marker) (f : RenderJob.Failure) :
  RenderJob.failsWith w j marker f ->
  let after := fst (RenderJob.runJob w j marker) in
  let calls := snd (RenderJob.runJob w j marker) in
  renderedBuffer after = renderedBuffer marker /\
  renderedSampleRate after = renderedSampleRate marker /\
  waveform after = waveform marker /\
  lastRenderedPythonPath after = lastRenderedPythonPath marker /\
  lastRenderedTempoBpm after = lastRenderedTempoBpm marker /\
  lastRenderedDurationSeconds after = lastRenderedDurationSeconds marker /\
  (PythonRenderer.callback j = true ->
     exists reason, reason <> ""%string /\ calls = [(false, reason)]) /\
  (PythonRenderer.callback j = false -> calls = []).
Proof.
  intro H. destruct (runJob_failure w j marker f H) as (wav & reason & Hr & E).
  cbv zeta. rewrite E. cbn [fst snd].
  repeat split.
  - intro Hc. exists reason. rewrite Hc. split; [assumption | reflexivity].
  - intro Hc. rewrite Hc. reflexivity.
Qed.

Lemma C7_failed_job_keeps_buffer_witness :
  let stale := mkAudioBuffer 2 [[1 # 2; -1 # 4]] in
  let marker :=
    mkMarker 0 false 0 120 8 "/py/lead.py" [] 0 0 "/py/lead.py" "" (Some stale)
             44100 in
  let w :=
    RenderJob.mkWorld (fun _ => true) "/tmp" "1a2b" (fun _ => true)
      (fun _ => false) (fun _ => None) in
  let j := PythonRenderer.mkRenderJob (0%nat, 0%nat) 44100 8 120 true in
  renderedBuffer (fst (RenderJob.runJob w j marker)) = Some stale.
Proof.
  intros stale marker w j.
  apply (C7_failed_job_keeps_buffer w j marker RenderJob.NoOutputProduced).
  repeat split.
Defined.

(** C5. The flag [needsRerender] of the sweep is set exactly when the source
    path differs from the stamped path, or the tempo of the timeline is not
    within the tolerance of the stamped tempo, or the desired render
    duration is not within the tolerance of the stamped duration; and the
    sweep over a timeline submits one job for each of its markers whose flag
    is set and none for a marker whose flag is not set.  A job that the
    sweep submits and that succeeds stamps the marker so that the flag is not
    set afterwards: rendering again with the same parameters is not asked
    for. *)
Theorem C5_needsRerender (sr : Q) (tls : list Timeline)
    (pool : PythonRenderer.ThreadPool) (timelineIndex i : nat)
    (timeline : Timeline) (marker : Marker) :
  nth_error tls timelineIndex = Some timeline ->
  nth_error (markers timeline) i = Some marker ->
  (needsRerender timeline marker = true <->
     lastRenderedPythonPath marker <> pythonFile marker \/
     ~ (Qabs (lastRenderedTempoBpm marker - tempoBpm timeline) <= Juce.DBL_MIN \/
        Qabs (lastRenderedTempoBpm marker - tempoBpm timeline)
          <= Juce.DBL_EPSILON
             * Juce.jmax (Qabs (lastRenderedTempoBpm marker))
                         (Qabs (tempoBpm timeline))) \/
     ~ (let desired := getRenderDurationSecondsForMarker timeline marker in
        Qabs (lastRenderedDurationSeconds marker - desired) <= Juce.DBL_MIN \/
        Qabs (lastRenderedDurationSeconds marker - desired)
          <= Juce.DBL_EPSILON
             * Juce.jmax (Qabs (lastRenderedDurationSeconds marker))
                         (Qabs desired)))
  /\
  PythonRenderer.outstanding
    (rerenderTimelineMarkersIfNeeded sr tls pool (Z.of_nat timelineIndex))
    (timelineIndex, i)
  = (PythonRenderer.outstanding pool (timelineIndex, i)
     + if needsRerender timeline marker then 1 else 0)%nat
  /\
  (forall (w : RenderJob.World) (j : PythonRenderer.RenderJob),
     PythonRenderer.tempoBpm j = tempoBpm timeline ->
     PythonRenderer.durationSeconds j
       = getRenderDurationSecondsForMarker timeline marker ->
     (forall f, ~ RenderJob.failsWith w j marker f) ->
     needsRerender timeline (fst (RenderJob.runJob w j marker)) = false).
Proof.
  intros Ht Hm. split; [| split].
  - unfold needsRerender, getFullPathName. cbv zeta.
    rewrite <- !approximatelyEqual_iff.
    destruct (String.eqb_spec (lastRenderedPythonPath marker) (pythonFile marker)) as [E | E];
      destruct (Juce.approximatelyEqual (lastRenderedTempoBpm marker) (tempoBpm timeline));
      destruct (Juce.approximatelyEqual (lastRenderedDurationSeconds marker)
                  (getRenderDurationSecondsForMarker timeline marker));
      simpl; split; intro H; try reflexivity; try discriminate;
      try (destruct H as [H | [H | H]]; congruence);
      try (left; assumption);
      try (right; left; discriminate);
      try (right; right; discriminate).
  - unfold rerenderTimelineMarkersIfNeeded.
    assert (L : (timelineIndex < List.length tls)%nat)
      by (apply nth_error_Some; congruence).
    replace ((Z.of_nat timelineIndex <? 0)%Z) with false
      by (symmetry; apply Z.ltb_ge; lia).
    replace ((Z.of_nat (List.length tls) <=? Z.of_nat timelineIndex)%Z) with false
      by (symmetry; apply Z.leb_gt; lia).
    simpl. rewrite Nat2Z.id, Ht, rerenderMarkersFrom_outstanding.
    simpl. rewrite Nat.sub_0_r, Hm. reflexivity.
  - intros w j Htempo Hdur Hok.
    destruct (runJob_success w j marker Hok) as (reader & E).
    rewrite E. cbn [fst]. unfold needsRerender, getFullPathName. cbv zeta.
    assert (D : getRenderDurationSecondsForMarker timeline
                  (setWaveform
                     (computeWaveform (Some (RenderJob.readerSamples reader)))
                     (setRenderStamp (RenderJob.readerSampleRate reader)
                        (PythonRenderer.tempoBpm j)
                        (PythonRenderer.durationSeconds j) (pythonFile marker)
                        (setRenderedBuffer
                           (Some (RenderJob.readerSamples reader))
                           (setRenderedWavFile (RenderJob.wavPath w) marker))))
                = getRenderDurationSecondsForMarker timeline marker)
      by reflexivity.
    rewrite D. cbn [lastRenderedPythonPath lastRenderedTempoBpm
                    lastRenderedDurationSeconds pythonFile setWaveform
                    setRenderStamp setRenderedBuffer setRenderedWavFile].
    rewrite String.eqb_refl, Htempo, Hdur.
    rewrite !approximatelyEqual_same by reflexivity. reflexivity.
Qed.

Lemma C5_needsRerender_witness :
  let marker :=
    mkMarker 1 false 0 120 8 "/py/lead.py" [] 0 0 "/py/lead.py" "" None 0 in
  let timeline :=
    mkTimeline 120 8 4 4 0 8 1 0 1 [] [] false 1 1 [] [marker] in
  PythonRenderer.outstanding
    (rerenderTimelineMarkersIfNeeded 44100 [timeline] [] (Z.of_nat 0))
    (0%nat, 0%nat)
  = (PythonRenderer.outstanding [] (0%nat, 0%nat)
     + if needsRerender timeline marker then 1 else 0)%nat.
Proof.
  intros marker timeline.
  apply (C5_needsRerender 44100 [timeline] [] 0 0 timeline marker);
    reflexivity.
Defined.

(** ** Waveform summary *)

Lemma In_zrange (lo : Z) (n : nat) (x : Z) :
  In x (zrange lo n) <-> (lo <= x < lo + Z.of_nat n)%Z.
Proof.
  unfold zrange. rewrite in_map_iff. split.
  - intros (k & <- & Hk). apply in_seq in Hk. lia.
  - intro H. exists (Z.to_nat (x - lo)). split; [lia |]. apply in_seq. lia.
Qed.

Lemma length_zrange (lo : Z) (n : nat) : List.length (zrange lo n) = n.
Proof. unfold zrange. now rewrite length_map, length_seq. Qed.

Lemma nth_map_zrange {A : Type} (f : Z -> A) (n : nat) (i : Z) (d : A) :
  (0 <= i < Z.of_nat n)%Z ->
  nth (Z.to_nat i) (map f (zrange 0 n)) d = f i.
Proof.
  intro H. unfold zrange. rewrite map_map.
  rewrite (nth_indep _ d (f (0 + Z.of_nat 0)%Z)) by (rewrite length_map, length_seq; lia).
  rewrite (map_nth (fun k => f (0 + Z.of_nat k)%Z) (seq 0 n) 0%nat).
  rewrite seq_nth by lia. f_equal. lia.
Qed.

(** A running maximum started at [init]: an upper bound of [init] and of
    every element, and one of them. *)
Lemma fold_jmax_spec {A : Type} (f : A -> Q) (l : list A) :
  forall init : Q,
  let r := fold_left (fun acc x => Juce.jmax acc (f x)) l init in
  init <= r /\
  (forall x, In x l -> f x <= r) /\
  (r = init \/ exists x, In x l /\ r = f x).
Proof.
  induction l as [| a l IH]; intro init; cbv zeta.
  - simpl. split; [apply Qle_refl |]. split; [intros x [] | now left].
  - simpl fold_left. destruct (IH (Juce.jmax init (f a))) as (I1 & I2 & I3).
    assert (J : init <= Juce.jmax init (f a) /\ f a <= Juce.jmax init (f a) /\
                (Juce.jmax init (f a) = init \/ Juce.jmax init (f a) = f a)).
    { unfold Juce.jmax. destruct (Qltb_spec init (f a)).
      - repeat split; try lra. now right.
      - repeat split; try lra. now left. }
    destruct J as (J1 & J2 & J3).
    split; [lra |]. split.
    + intros x [<- | Hin]; [lra | now apply I2].
    + destruct I3 as [E | (x & Hin & E)].
      * destruct J3 as [E' | E'].
        -- left. congruence.
        -- right. exists a. split; [now left | congruence].
      * right. exists x. split; [now right | assumption].
Qed.

Lemma samplePeak_spec (buf : AudioBuffer) (s : Z) :
  0 <= samplePeak buf s /\
  (forall ch, (0 <= ch < getNumChannels buf)%Z ->
              Qabs (getSample buf ch s) <= samplePeak buf s) /\
  (samplePeak buf s = 0 \/
   exists ch, (0 <= ch < getNumChannels buf)%Z /\
              samplePeak buf s = Qabs (getSample buf ch s)).
Proof.
  unfold samplePeak.
  destruct (fold_jmax_spec (fun ch => Qabs (getSample buf ch s))
              (zrange 0 (Z.to_nat (getNumChannels buf))) 0) as (H1 & H2 & H3).
  assert (N : (0 <= getNumChannels buf)%Z) by (unfold getNumChannels; lia).
  split; [assumption |]. split.
  - intros ch Hch. apply H2. apply In_zrange. lia.
  - destruct H3 as [E | (ch & Hin & E)]; [now left | right].
    exists ch. apply In_zrange in Hin. split; [lia | assumption].
Qed.

Lemma binPeak_spec (buf : AudioBuffer) (start end_ : Z) :
  0 <= binPeak buf start end_ /\
  (forall ch s, (0 <= ch < getNumChannels buf)%Z -> (start <= s < end_)%Z ->
                Qabs (getSample buf ch s) <= binPeak buf start end_) /\
  (binPeak buf start end_ = 0 \/
   exists ch s, (0 <= ch < getNumChannels buf)%Z /\ (start <= s < end_)%Z /\
                binPeak buf start end_ = Qabs (getSample buf ch s)).
Proof.
  unfold binPeak.
  destruct (fold_jmax_spec (samplePeak buf)
              (zrange start (Z.to_nat (end_ - start))) 0) as (H1 & H2 & H3).
  split; [assumption |]. split.
  - intros ch s Hch Hs.
    destruct (samplePeak_spec buf s) as (_ & S2 & _).
    apply Qle_trans with (samplePeak buf s); [now apply S2 |].
    apply H2. apply In_zrange. lia.
  - destruct H3 as [E | (s & Hin & E)]; [now left |].
    apply In_zrange in Hin.
    destruct (samplePeak_spec buf s) as (_ & _ & [Z0 | (ch & Hch & Ech)]).
    + left. congruence.
    + right. exists ch, s. split; [assumption |]. split; [lia | congruence].
Qed.

(** The bounds of bin [i] of a buffer of [total] samples: the quotients
    [i * total / 200] and [(i + 1) * total / 200], the second raised to one
    past the first when they coincide. *)
Lemma bin_bounds (total i : Z) :
  (0 < total)%Z -> (0 <= i < 200)%Z ->
  binStart total i = (i * total / 200)%Z /\
  binEnd total i = Z.max (binStart total i + 1) ((i + 1) * total / 200)%Z /\
  (0 <= binStart total i < binEnd total i)%Z /\
  (binEnd total i <= total)%Z /\
  (Z.max 1 (total / 200) <= binEnd total i - binStart total i <= total / 200 + 1)%Z /\
  (total / 200 <= (i + 1) * total / 200 - i * total / 200)%Z.
Proof.
  intros Ht Hi.
  assert (P0 : (0 <= i * total)%Z) by nia.
  assert (P1 : (0 <= (i + 1) * total)%Z) by nia.
  assert (Es : binStart total i = (i * total / 200)%Z).
  { unfold binStart, points. apply Z.quot_div_nonneg; lia. }
  assert (Ee : Z.quot ((i + 1) * total) points = ((i + 1) * total / 200)%Z).
  { unfold points. apply Z.quot_div_nonneg; lia. }
  unfold binEnd. cbv zeta. rewrite Ee, Es. unfold Juce.jminZ.
  pose proof (Z.div_mod (i * total) 200 ltac:(lia)) as D1.
  pose proof (Z.mod_pos_bound (i * total) 200 ltac:(lia)) as B1.
  pose proof (Z.div_mod ((i + 1) * total) 200 ltac:(lia)) as D2.
  pose proof (Z.mod_pos_bound ((i + 1) * total) 200 ltac:(lia)) as B2.
  pose proof (Z.div_mod total 200 ltac:(lia)) as D3.
  pose proof (Z.mod_pos_bound total 200 ltac:(lia)) as B3.
  assert (X : ((i + 1) * total = i * total + total)%Z) by ring.
  assert (Y : ((i + 1) * total <= 200 * total)%Z) by nia.
  assert (W : (i * total <= 199 * total)%Z) by nia.
  set (qs := (i * total / 200)%Z) in *.
  set (qe := ((i + 1) * total / 200)%Z) in *.
  set (q := (total / 200)%Z) in *.
  destruct (Z.leb_spec qe qs); destruct (Z.ltb_spec total (qs + 1));
    destruct (Z.ltb_spec total qe); repeat split; lia.
Qed.

(** C8, as the specification states it, fails.  A buffer of 300 samples is
    not cut into bins of one width: bin 0 holds one sample and bin 1 holds
    two.  A buffer of 100 samples is not partitioned: bins 0 and 1 are the
    same sample. *)
Lemma C8_bins_not_equal_width :
  ~ equalWidthBins 300 /\
  (binEnd 300 0 - binStart 300 0 = 1)%Z /\
  (binEnd 300 1 - binStart 300 1 = 2)%Z /\
  (binStart 100 0 = 0 /\ binEnd 100 0 = 1)%Z /\
  (binStart 100 1 = 0 /\ binEnd 100 1 = 1)%Z.
Proof.
  split; [| repeat split].
  intros (width & H & _).
  pose proof (H 0%Z ltac:(unfold points; lia)) as H0.
  pose proof (H 1%Z ltac:(unfold points; lia)) as H1.
  vm_compute in H0, H1. lia.
Qed.

(** C8, amended.  For a marker whose rendered buffer holds [total > 0]
    samples the recomputed waveform has exactly 200 values.  Value [i] is the
    largest absolute sample value over all channels and over the samples
    from [i * total / 200] (rounded down) up to, but not including,
    [(i + 1) * total / 200] (rounded down; one sample when that range is
    empty), clamped to [[0, 1]].  The widths of the bins differ by at most
    one sample; from 200 samples on the bins follow one another and cover
    the buffer; when [total] is a multiple of 200 every bin holds
    [total / 200] samples; below 200 samples every bin holds one sample. *)
Theorem C8_waveform_bins (marker : Marker) (buf : AudioBuffer) :
  renderedBuffer marker = Some buf ->
  (0 < numSamples buf)%Z ->
  let total := numSamples buf in
  let summary := waveform (recomputeWaveform marker) in
  List.length summary = 200%nat
  /\
  (forall i, (0 <= i < 200)%Z ->
     let start := binStart total i in
     let end_ := binEnd total i in
     start = (i * total / 200)%Z /\
     end_ = Z.max (start + 1) ((i + 1) * total / 200)%Z /\
     (0 <= start < end_)%Z /\ (end_ <= total)%Z /\
     nth (Z.to_nat i) summary 0 = Juce.jlimit 0 1 (binPeak buf start end_) /\
     0 <= nth (Z.to_nat i) summary 0 <= 1 /\
     (forall ch s, (0 <= ch < getNumChannels buf)%Z -> (start <= s < end_)%Z ->
        Qabs (getSample buf ch s) <= binPeak buf start end_) /\
     (binPeak buf start end_ = 0 \/
      exists ch s, (0 <= ch < getNumChannels buf)%Z /\ (start <= s < end_)%Z /\
        binPeak buf start end_ = Qabs (getSample buf ch s)))
  /\
  (forall i j, (0 <= i < 200)%Z -> (0 <= j < 200)%Z ->
     ((binEnd total i - binStart total i)
      - (binEnd total j - binStart total j) <= 1)%Z)
  /\
  ((200 <= total)%Z ->
     binStart total 0 = 0%Z /\ binEnd total 199 = total /\
     forall i, (0 <= i < 199)%Z -> binEnd total i = binStart total (i + 1))
  /\
  ((total mod 200 = 0)%Z ->
     forall i, (0 <= i < 200)%Z ->
       (binEnd total i - binStart total i = total / 200)%Z)
  /\
  ((total < 200)%Z ->
     forall i, (0 <= i < 200)%Z -> binEnd total i = (binStart total i + 1)%Z).
Proof.
  intros Hb Ht total summary.
  assert (Es : summary
               = map (fun i => Juce.jlimit 0 1
                                 (binPeak buf (binStart total i) (binEnd total i)))
                     (zrange 0 (Z.to_nat points))).
  { unfold summary, recomputeWaveform. simpl. rewrite Hb. unfold computeWaveform.
    destruct (Z.leb_spec (numSamples buf) 0); [lia | reflexivity]. }
  split; [| split; [| split; [| split; [| split]]]].
  6:{ intros Hsmall i Hi.
      destruct (bin_bounds total i Ht Hi) as (_ & _ & _ & _ & B5 & _).
      rewrite Z.div_small in B5 by lia. lia. }
  - rewrite Es, length_map, length_zrange. reflexivity.
  - intros i Hi. cbv zeta.
    destruct (bin_bounds total i Ht Hi) as (B1 & B2 & B3 & B4 & B5 & _).
    destruct (binPeak_spec buf (binStart total i) (binEnd total i)) as (P1 & P2 & P3).
    assert (En : nth (Z.to_nat i) summary 0
                 = Juce.jlimit 0 1 (binPeak buf (binStart total i) (binEnd total i))).
    { rewrite Es.
      apply (nth_map_zrange
               (fun k => Juce.jlimit 0 1
                           (binPeak buf (binStart total k) (binEnd total k)))).
      unfold points. lia. }
    repeat split; try assumption; try lia.
    + rewrite En. apply jlimit_range. lra.
    + rewrite En. apply jlimit_range. lra.
  - intros i j Hi Hj.
    destruct (bin_bounds total i Ht Hi) as (_ & _ & _ & _ & Bi & _).
    destruct (bin_bounds total j Ht Hj) as (_ & _ & _ & _ & Bj & _). lia.
  - intro H200.
    assert (Q1 : (1 <= total / 200)%Z)
      by (apply Z.div_le_lower_bound; lia).
    split; [| split].
    + destruct (bin_bounds total 0 Ht ltac:(lia)) as (B1 & _). rewrite B1.
      reflexivity.
    + destruct (bin_bounds total 199 Ht ltac:(lia)) as (B1 & B2 & B3 & B4 & B5 & _).
      rewrite B2.
      replace ((199 + 1) * total)%Z with (total * 200)%Z by ring.
      rewrite Z.div_mul by lia. lia.
    + intros i Hi.
      destruct (bin_bounds total i Ht ltac:(lia)) as (B1 & B2 & B3 & B4 & B5 & B6).
      destruct (bin_bounds total (i + 1) Ht ltac:(lia)) as (C1 & _).
      rewrite C1, B2, B1. lia.
  - intros Hm i Hi.
    destruct (bin_bounds total i Ht Hi) as (B1 & B2 & B3 & B4 & B5 & _).
    apply Z.mod_divide in Hm; [| lia]. destruct Hm as [c Hc].
    assert (Q1 : (total / 200 = c)%Z) by (rewrite Hc; apply Z.div_mul; lia).
    assert (S1 : (i * total / 200 = i * c)%Z).
    { rewrite Hc. replace (i * (c * 200))%Z with (i * c * 200)%Z by ring.
      apply Z.div_mul. lia. }
    assert (S2 : ((i + 1) * total / 200 = (i + 1) * c)%Z).
    { rewrite Hc. replace ((i + 1) * (c * 200))%Z with ((i + 1) * c * 200)%Z by ring.
      apply Z.div_mul. lia. }
    rewrite B2, S2, B1, S1, Q1. nia.
Qed.

Lemma C8_waveform_bins_witness :
  let buf := mkAudioBuffer 3 [[1 # 2; -3 # 4; 2]] in
  let marker :=
    mkMarker 0 false 0 120 8 "/py/lead.py" [] 0 0 "/py/lead.py" "" (Some buf)
             44100 in
  List.length (waveform (recomputeWaveform marker)) = 200%nat.
Proof.
  intros buf marker.
  apply (C8_waveform_bins marker buf); reflexivity.
Defined.

(** ** Cut *)

Lemma length_replaceNth {A : Type} (l : list A) :
  forall n x, List.length (replaceNth n x l) = List.length l.
Proof.
  induction l as [| a l IH]; intros [| n] x; simpl; auto.
Qed.

Lemma nth_replaceNth_eq {A : Type} (l : list A) :
  forall n x d, (n < List.length l)%nat -> nth n (replaceNth n x l) d = x.
Proof.
  induction l as [| a l IH]; intros [| n] x d H; simpl in *; try lia; auto.
  apply IH. lia.
Qed.

Lemma nth_replaceNth_neq {A : Type} (l : list A) :
  forall n k x d, n <> k -> nth k (replaceNth n x l) d = nth k l d.
Proof.
  induction l as [| a l IH]; intros [| n] [| k] x d H; simpl; auto;
    try contradiction.
Qed.

Lemma replaceNth_out_of_range {A : Type} (l : list A) :
  forall n x, (List.length l <= n)%nat -> replaceNth n x l = l.
Proof.
  induction l as [| a l IH]; intros [| n] x H; simpl in *; auto; try lia.
  f_equal. apply IH. lia.
Qed.

(** One [copyFrom] of the cut: the channel it writes holds the first
    [cutSample] samples of the source, the others are as before, and no
    channel grows past [cutSample] samples. *)
Lemma copyFrom_step (source newBuf : AudioBuffer) (ch cutSample : Z) :
  (0 <= ch)%Z -> (0 <= cutSample)%Z ->
  (forall c, (List.length (nth c (channelData newBuf) []) <= Z.to_nat cutSample)%nat) ->
  let r := copyFrom newBuf ch 0 source ch 0 cutSample in
  numSamples r = numSamples newBuf /\
  List.length (channelData r) = List.length (channelData newBuf) /\
  (forall c, (List.length (nth c (channelData r) []) <= Z.to_nat cutSample)%nat) /\
  (forall c, c <> Z.to_nat ch ->
     nth c (channelData r) [] = nth c (channelData newBuf) []) /\
  ((Z.to_nat ch < List.length (channelData newBuf))%nat ->
     nth (Z.to_nat ch) (channelData r) []
     = firstn (Z.to_nat cutSample) (nth (Z.to_nat ch) (channelData source) [])).
Proof.
  intros Hch Hn Hlen. cbv zeta. unfold copyFrom. cbn [numSamples channelData].
  assert (E : firstn (Z.to_nat 0) (nth (Z.to_nat ch) (channelData newBuf) [])
              ++ firstn (Z.to_nat cutSample)
                   (skipn (Z.to_nat 0) (nth (Z.to_nat ch) (channelData source) []))
              ++ skipn (Z.to_nat (0 + cutSample))
                   (nth (Z.to_nat ch) (channelData newBuf) [])
              = firstn (Z.to_nat cutSample) (nth (Z.to_nat ch) (channelData source) [])).
  { simpl. rewrite skipn_all2 by apply Hlen. apply app_nil_r. }
  rewrite E.
  split; [reflexivity |]. split; [apply length_replaceNth |]. split; [| split].
  - intro c. destruct (Nat.eq_dec (Z.to_nat ch) c) as [<- | Hne].
    + destruct (Nat.lt_ge_cases (Z.to_nat ch) (List.length (channelData newBuf))) as [Hlt | Hge].
      * rewrite nth_replaceNth_eq by assumption. rewrite length_firstn. lia.
      * rewrite replaceNth_out_of_range by assumption. apply Hlen.
    + rewrite nth_replaceNth_neq by assumption. apply Hlen.
  - intros c Hne. apply nth_replaceNth_neq. congruence.
  - intro Hlt. now apply nth_replaceNth_eq.
Qed.

(** The loop of [copyFrom] over a list of channels. *)
Lemma copyFrom_loop (source : AudioBuffer) (cutSample : Z) (chs : list Z) :
  (0 <= cutSample)%Z ->
  forall newBuf,
  (forall ch, In ch chs -> (0 <= ch)%Z) ->
  (forall c, (List.length (nth c (channelData newBuf) []) <= Z.to_nat cutSample)%nat) ->
  let r := fold_left (fun b ch => copyFrom b ch 0 source ch 0 cutSample) chs newBuf in
  numSamples r = numSamples newBuf /\
  List.length (channelData r) = List.length (channelData newBuf) /\
  (forall c, (List.length (nth c (channelData r) []) <= Z.to_nat cutSample)%nat) /\
  (forall c,
     nth c (channelData newBuf) []
       = firstn (Z.to_nat cutSample) (nth c (channelData source) []) ->
     nth c (channelData r) []
       = firstn (Z.to_nat cutSample) (nth c (channelData source) [])) /\
  (forall ch, In ch chs -> (Z.to_nat ch < List.length (channelData newBuf))%nat ->
     nth (Z.to_nat ch) (channelData r) []
     = firstn (Z.to_nat cutSample) (nth (Z.to_nat ch) (channelData source) [])).
Proof.
  intro Hn. induction chs as [| ch chs IH]; intros newBuf Hpos Hlen; cbv zeta.
  - simpl. repeat split; auto. intros ch [].
  - simpl fold_left.
    destruct (copyFrom_step source newBuf ch cutSample
                (Hpos ch (or_introl eq_refl)) Hn Hlen) as (S1 & S2 & S3 & S4 & S5).
    destruct (IH (copyFrom newBuf ch 0 source ch 0 cutSample)
                (fun c H => Hpos c (or_intror H)) S3) as (I1 & I2 & I3 & I4 & I5).
    split; [congruence |]. split; [congruence |]. split; [assumption |]. split.
    + intros c Hc. apply I4.
      destruct (Nat.eq_dec c (Z.to_nat ch)) as [-> | Hne].
      * destruct (Nat.lt_ge_cases (Z.to_nat ch) (List.length (channelData newBuf))) as [Hlt | Hge].
        -- now apply S5.
        -- unfold copyFrom. simpl. rewrite replaceNth_out_of_range by assumption.
           assumption.
      * rewrite S4 by assumption. assumption.
    + intros c [<- | Hin] Hlt.
      * apply I4. now apply S5.
      * apply I5; [assumption | congruence].
Qed.

Lemma copyChannels_spec (source : AudioBuffer) (cutSample : Z) :
  (0 <= cutSample)%Z ->
  let newBuf := copyChannels source (getNumChannels source) cutSample in
  numSamples newBuf = cutSample /\
  getNumChannels newBuf = getNumChannels source /\
  (forall ch s, (0 <= ch < getNumChannels source)%Z -> (0 <= s < cutSample)%Z ->
     getSample newBuf ch s = getSample source ch s).
Proof.
  intro Hn. cbv zeta. unfold copyChannels.
  set (fresh := newAudioBuffer (getNumChannels source) cutSample).
  assert (Lf : List.length (channelData fresh) = List.length (channelData source)).
  { unfold fresh, newAudioBuffer, getNumChannels. simpl.
    now rewrite repeat_length, Nat2Z.id. }
  assert (Hlen : forall c, (List.length (nth c (channelData fresh) [])
                            <= Z.to_nat cutSample)%nat).
  { intro c. unfold fresh, newAudioBuffer. simpl.
    destruct (Nat.lt_ge_cases c (Z.to_nat (getNumChannels source))) as [Hlt | Hge].
    - rewrite nth_repeat_lt by assumption. now rewrite repeat_length.
    - rewrite nth_overflow by (now rewrite repeat_length). simpl. lia. }
  destruct (copyFrom_loop source cutSample
              (zrange 0 (Z.to_nat (getNumChannels source))) Hn fresh)
    as (L1 & L2 & L3 & L4 & L5); [| exact Hlen |].
  { intros ch Hin. apply In_zrange in Hin. lia. }
  split; [rewrite L1; reflexivity |]. split.
  - unfold getNumChannels at 1 3. now rewrite L2, Lf.
  - intros ch s Hch Hs. unfold getSample. rewrite L5.
    + rewrite nth_firstn.
      destruct (Nat.ltb_spec (Z.to_nat s) (Z.to_nat cutSample)); [reflexivity | lia].
    + apply In_zrange. lia.
    + rewrite Lf. unfold getNumChannels in Hch. lia.
Qed.

Lemma round_nonneg (x : Q) : 0 <= x -> (0 <= Cmath.round x)%Z.
Proof.
  intro H. unfold Cmath.round.
  destruct (Qleb_spec 0 x); [| contradiction].
  change 0%Z with (Qfloor 0). apply Qfloor_resp_le. lra.
Qed.

Lemma setSize_no_samples (buf : AudioBuffer) :
  numSamples (setSize (getNumChannels buf) 0 buf) = 0%Z /\
  getNumChannels (setSize (getNumChannels buf) 0 buf) = getNumChannels buf.
Proof.
  split; [reflexivity |].
  unfold setSize, getNumChannels, resizeList. simpl.
  now rewrite length_map, Nat2Z.id, firstn_all, Nat.sub_diag, app_nil_r.
Qed.

(** The three outcomes of the loop body on a rendered marker. *)
Lemma cutMarker_at_or_before_start (cutSeconds : Q) (marker : Marker)
    (buf : AudioBuffer) :
  renderedBuffer marker = Some buf -> 0 < renderedSampleRate marker ->
  cutSeconds <= startTimeSeconds marker ->
  cutMarker cutSeconds marker
  = Some (recomputeWaveform
            (setRenderedBuffer (Some (setSize (getNumChannels buf) 0 buf)) marker)).
Proof.
  intros Hb Hr Hc. unfold cutMarker. rewrite Hb.
  destruct (Qleb_spec (renderedSampleRate marker) 0); [lra |].
  destruct (Qleb_spec (cutSeconds - startTimeSeconds marker) 0); [reflexivity | lra].
Qed.

Lemma cutMarker_after_start (cutSeconds : Q) (marker : Marker)
    (buf : AudioBuffer) :
  renderedBuffer marker = Some buf -> 0 < renderedSampleRate marker ->
  startTimeSeconds marker < cutSeconds ->
  let rounded :=
    Cmath.round ((cutSeconds - startTimeSeconds marker)
                 * renderedSampleRate marker) in
  (rounded <= INT_MAX)%Z ->
  (0 <= rounded)%Z /\
  cutMarker cutSeconds marker
  = if (numSamples buf <=? rounded)%Z then Some marker
    else
      let cutSample := Juce.jlimitZ 0 (numSamples buf) rounded in
      let duration := inject_Z cutSample / renderedSampleRate marker in
      Some (recomputeWaveform
              (setFades (Juce.jlimit 0 duration (fadeInSeconds marker))
                        (Juce.jlimit 0 duration (fadeOutSeconds marker))
                 (setRenderedBuffer
                    (Some (copyChannels buf (getNumChannels buf) cutSample))
                    marker))).
Proof.
  intros Hb Hr Hc rounded Hmax.
  assert (Hpos : 0 < (cutSeconds - startTimeSeconds marker) * renderedSampleRate marker)
    by (apply Qmult_lt_0_compat; lra).
  assert (R0 : (0 <= rounded)%Z) by (apply round_nonneg; lra).
  split; [assumption |].
  unfold cutMarker. rewrite Hb.
  destruct (Qleb_spec (renderedSampleRate marker) 0); [lra |].
  destruct (Qleb_spec (cutSeconds - startTimeSeconds marker) 0); [lra |].
  fold rounded. unfold toInt.
  replace ((INT_MIN <=? rounded)%Z) with true
    by (symmetry; apply Z.leb_le; unfold INT_MIN; lia).
  replace ((rounded <=? INT_MAX)%Z) with true by (symmetry; now apply Z.leb_le).
  reflexivity.
Qed.



(** *** What the cut leaves alone *)

Lemma cutFrame_refl (m : Marker) : cutFrame m m.
Proof. unfold cutFrame. repeat split. Qed.

Lemma cutFrame_trans (a b c : Marker) :
  cutFrame a b -> cutFrame b c -> cutFrame a c.
Proof.
  unfold cutFrame.
  intros (A1 & A2 & A3 & A4 & A5 & A6 & A7 & A8 & A9)
         (B1 & B2 & B3 & B4 & B5 & B6 & B7 & B8 & B9).
  repeat split; congruence.
Qed.

Lemma cutMarker_frame (cutSeconds : Q) (m m' : Marker) :
  cutMarker cutSeconds m = Some m' -> cutFrame m m'.
Proof.
  unfold cutMarker. intro H.
  destruct (renderedBuffer m) as [buf |]; [| injection H as <-; apply cutFrame_refl].
  destruct (Qleb (renderedSampleRate m) 0); [injection H as <-; apply cutFrame_refl |].
  destruct (Qleb (cutSeconds - startTimeSeconds m) 0).
  { injection H as <-. unfold cutFrame. repeat split. }
  destruct (toInt _) as [cutSample |]; [| discriminate].
  destruct (numSamples buf <=? cutSample)%Z; injection H as <-.
  - apply cutFrame_refl.
  - unfold cutFrame. repeat split.
Qed.

Lemma Forall2_same {A : Type} (R : A -> A -> Prop) (l : list A) :
  (forall a, R a a) -> Forall2 R l l.
Proof. intro H. induction l; constructor; auto. Qed.

Lemma Forall2_replaceNth {A : Type} (R : A -> A -> Prop) (l0 l : list A) :
  Forall2 R l0 l ->
  forall i x x', nth_error l i = Some x ->
  (forall a, R a x -> R a x') ->
  Forall2 R l0 (replaceNth i x' l).
Proof.
  induction 1 as [| a b l0 l Hab Hl IH]; intros i x x' Hn Hx.
  - destruct i; discriminate.
  - destruct i as [| i]; simpl in *.
    + injection Hn as ->. constructor; auto.
    + constructor; [assumption | eapply IH; eauto].
Qed.

Lemma Forall2_nth_error {A : Type} (R : A -> A -> Prop) (l l' : list A) :
  Forall2 R l l' ->
  forall i a b, nth_error l i = Some a -> nth_error l' i = Some b -> R a b.
Proof.
  induction 1 as [| x y l l' Hxy Hl IH]; intros i a b Ha Hb.
  - destruct i; discriminate.
  - destruct i as [| i]; simpl in *.
    + congruence.
    + eapply IH; eauto.
Qed.

Lemma cutMarkers_frame (cutSeconds : Q) (targets : list nat) :
  forall ms0 ms ms',
  Forall2 cutFrame ms0 ms ->
  cutMarkers cutSeconds targets ms = Some ms' ->
  Forall2 cutFrame ms0 ms'.
Proof.
  induction targets as [| i rest IH]; intros ms0 ms ms' H0 H; simpl in H.
  - now injection H as <-.
  - destruct (nth_error ms i) as [marker |] eqn:En; [| eapply IH; eauto].
    destruct (cutMarker cutSeconds marker) as [marker' |] eqn:Ec; [| discriminate].
    eapply IH; [| exact H].
    eapply Forall2_replaceNth; [exact H0 | exact En |].
    intros a Ha. eapply cutFrame_trans; [exact Ha |].
    eapply cutMarker_frame; eauto.
Qed.

Lemma timelineFrame_refl (t : Timeline) : timelineFrame t t.
Proof.
  split; [now destruct t |]. apply Forall2_same, cutFrame_refl.
Qed.

Lemma pushUndoState_model (st : AppState) : model (pushUndoState st) = model st.
Proof. unfold pushUndoState. now destruct (isRestoring st). Qed.

(** C10. A cut changes no marker outside its buffer, its two fades and its
    waveform: start time, render bars, source file, sample rate and the
    three fields of the render stamp keep their values (as do the drag flag
    and the path of the rendered file); and in the model after the
    operation every timeline has its fields other than the markers
    unchanged and holds the same number of markers in the same places. *)
Theorem C10_cut_frame (st st' : AppState) (timelineIndex : Z) (cutSeconds : Q) :
  cutSelectedMarkersAt st timelineIndex cutSeconds = Some st' ->
  (forall m m', cutMarker cutSeconds m = Some m' -> cutFrame m m') /\
  Forall2 timelineFrame (model st) (model st') /\
  List.length (model st') = List.length (model st) /\
  (forall k t t', nth_error (model st) k = Some t ->
                  nth_error (model st') k = Some t' ->
     List.length (markers t') = List.length (markers t) /\
     forall i m m', nth_error (markers t) i = Some m ->
                    nth_error (markers t') i = Some m' ->
       cutFrame m m').
Proof.
  intro H.
  assert (F : Forall2 timelineFrame (model st) (model st')).
  { unfold cutSelectedMarkersAt in H.
    destruct ((timelineIndex <? 0)%Z
              || (Z.of_nat (List.length (model st)) <=? timelineIndex)%Z).
    { injection H as <-. apply Forall2_same, timelineFrame_refl. }
    rewrite pushUndoState_model in H.
    destruct (nth_error (model st) (Z.to_nat timelineIndex)) as [timeline |] eqn:En.
    2:{ injection H as <-. rewrite pushUndoState_model.
        apply Forall2_same, timelineFrame_refl. }
    destruct (cutTargets _ _ _ _) as [| i targets].
    { injection H as <-. rewrite pushUndoState_model.
      apply Forall2_same, timelineFrame_refl. }
    destruct (cutMarkers cutSeconds (i :: targets) (markers timeline)) as [ms |] eqn:Ec;
      [| discriminate].
    injection H as <-. simpl.
    eapply Forall2_replaceNth;
      [apply Forall2_same, timelineFrame_refl | exact En |].
    intros a [A1 A2]. split.
    - rewrite <- A1. now destruct a.
    - eapply cutMarkers_frame; [exact A2 | exact Ec]. }
  split; [intros m m'; apply cutMarker_frame |].
  split; [assumption |].
  split; [symmetry; eapply Forall2_length; eauto |].
  intros k t t' Ht Ht'.
  destruct (Forall2_nth_error _ _ _ F k t t' Ht Ht') as [_ Fm].
  split; [symmetry; eapply Forall2_length; eauto |].
  intros i m m'. now apply Forall2_nth_error.
Qed.

Lemma C10_cut_frame_witness :
  let buf := mkAudioBuffer 4 [[1 # 2; -1 # 4; 1 # 8; 1]] in
  let marker :=
    mkMarker 1 false 2 120 8 "/py/lead.py" [] 3 (1 # 2) "/py/lead.py"
             "/tmp/render_1a2b.wav" (Some buf) 2 in
  let timeline :=
    mkTimeline 120 8 4 4 0 8 1 0 1 [] [] false 1 1 [] [marker] in
  let st := mkAppState [timeline] [] false false 0 [] in
  match cutSelectedMarkersAt st 0 2 with
  | Some st' =>
      Forall2 timelineFrame (model st) (model st') /\
      List.length (model st') = List.length (model st)
  | None => False
  end.
Proof.
  intros buf marker timeline st.
  destruct (cutSelectedMarkersAt st 0 2) as [st' |] eqn:E.
  - destruct (C10_cut_frame st st' 0 2 E) as (_ & F & L & _). now split.
  - vm_compute in E. discriminate.
Defined.

(** ** History *)

Lemma copyRenderedBuffer_same (rendered : option AudioBuffer) :
  copyRenderedBuffer rendered = rendered.
Proof. destruct rendered as [[n data] |]; reflexivity. Qed.

Lemma restoreMarker_snapshot (m : Marker) (i : Z) :
  restoreMarker (makeMarkerSnapshot m i) = resetTransient m.
Proof.
  unfold restoreMarker, makeMarkerSnapshot, resetTransient. simpl.
  rewrite copyRenderedBuffer_same.
  destruct (renderedBuffer m) as [b |] eqn:E; [| reflexivity].
  now rewrite copyRenderedBuffer_same.
Qed.

Lemma restoreModel_snapshot (tls : list Timeline) :
  forall i,
  map restoreTimeline (snapshotTimelinesFrom i tls)
  = map resetTransientMarkers tls.
Proof.
  induction tls as [| t rest IH]; intro i; [reflexivity |].
  simpl. rewrite IH. f_equal.
  unfold restoreTimeline, resetTransientMarkers, setMarkers. simpl.
  rewrite map_map. f_equal.
  apply map_ext. intro m. apply restoreMarker_snapshot.
Qed.

Lemma last_app_one {A : Type} (l : list A) (x d : A) : last (l ++ [x]) d = x.
Proof.
  induction l as [| a l IH]; [reflexivity |].
  simpl. destruct (l ++ [x]) eqn:E; [destruct l; discriminate | exact IH].
Qed.

Lemma removelast_app_one {A : Type} (l : list A) (x : A) :
  removelast (l ++ [x]) = l.
Proof.
  induction l as [| a l IH]; [reflexivity |].
  simpl. destruct (l ++ [x]) eqn:E; [destruct l; discriminate |].
  now rewrite IH.
Qed.

(** The stack after a push: the new snapshot on top of the old stack, less
    its oldest entry when that makes more than ten. *)
Lemma pushUndoState_stack (st : AppState) :
  isRestoring st = false ->
  exists kept,
    undoSnapshots (pushUndoState st) = kept ++ [snapshotModel (model st)] /\
    kept = (if (10 <=? List.length (undoSnapshots st))%nat
            then tl (undoSnapshots st) else undoSnapshots st).
Proof.
  intro Hr. unfold pushUndoState. rewrite Hr.
  unfold setUndoSnapshots, markProjectDirty. cbn [undoSnapshots model].
  rewrite length_app. cbn [List.length].
  destruct (Nat.leb_spec 10 (List.length (undoSnapshots st))) as [Hge | Hlt].
  - replace (10 <? List.length (undoSnapshots st) + 1)%nat with true
      by (symmetry; apply Nat.ltb_lt; lia).
    exists (tl (undoSnapshots st)). split; [| reflexivity].
    destruct (undoSnapshots st) as [| s rest]; [simpl in Hge; lia | reflexivity].
  - replace (10 <? List.length (undoSnapshots st) + 1)%nat with false
      by (symmetry; apply Nat.ltb_ge; lia).
    eexists. split; reflexivity.
Qed.

Lemma undoSnapshot_top (st : AppState) kept snap :
  undoSnapshots st = kept ++ [snap] ->
  model (undoSnapshot st) = map restoreTimeline snap /\
  undoSnapshots (undoSnapshot st) = kept /\
  isRestoring (undoSnapshot st) = false.
Proof.
  intro E. unfold undoSnapshot. rewrite E.
  destruct (kept ++ [snap]) as [| first others] eqn:E'.
  { destruct kept; discriminate. }
  rewrite <- E'. simpl. rewrite last_app_one, removelast_app_one. auto.
Qed.

Lemma pushUndoState_length (st : AppState) :
  (List.length (undoSnapshots st) <= 10)%nat ->
  (List.length (undoSnapshots (pushUndoState st)) <= 10)%nat.
Proof.
  intro H. unfold pushUndoState.
  destruct (isRestoring st); [assumption |]. simpl.
  destruct (Nat.ltb_spec 10 (List.length (undoSnapshots st ++ [snapshotModel (model st)])))
    as [Hgt | Hle]; [| assumption].
  rewrite length_app in Hgt. simpl in Hgt.
  destruct (undoSnapshots st) as [| s rest]; simpl in *; [lia |].
  rewrite length_app. simpl. lia.
Qed.

Lemma undoSnapshot_length (st : AppState) :
  (List.length (undoSnapshots (undoSnapshot st))
   <= List.length (undoSnapshots st))%nat.
Proof.
  unfold undoSnapshot.
  destruct (undoSnapshots st) as [| first others] eqn:E; [rewrite E; lia |].
  unfold setIsRestoring, restoreModel, setUndoSnapshots. cbn [undoSnapshots].
  destruct (exists_last (l := first :: others) ltac:(discriminate)) as (kept & x & E').
  rewrite E', removelast_app_one, length_app. simpl. lia.
Qed.

Lemma runHistory_length (ops : list HistoryOp) :
  forall st,
  (List.length (undoSnapshots st) <= 10)%nat ->
  (List.length (undoSnapshots (runHistory ops st)) <= 10)%nat.
Proof.
  unfold runHistory.
  induction ops as [| op rest IH]; intros st H; [assumption |].
  simpl. apply IH. destruct op as [| | f]; simpl.
  - now apply pushUndoState_length.
  - pose proof (undoSnapshot_length st). lia.
  - assumption.
Qed.

Lemma resetTransient_default (m : Marker) :
  isDragging m = false -> renderedWavFile m = ""%string -> resetTransient m = m.
Proof. destruct m. simpl. intros -> ->. reflexivity. Qed.

Lemma resetTransientMarkers_default (t : Timeline) :
  (forall m, In m (markers t) ->
     isDragging m = false /\ renderedWavFile m = ""%string) ->
  resetTransientMarkers t = t.
Proof.
  intro H. unfold resetTransientMarkers.
  replace (map resetTransient (markers t)) with (markers t); [now destruct t |].
  rewrite <- (map_id (markers t)) at 1. apply map_ext_in.
  intros m Hin. symmetry. destruct (H m Hin). now apply resetTransient_default.
Qed.

(** C6, as the specification states it, fails: a marker that a render job
    has touched carries the path of its rendered file, no snapshot records
    it, and the marker that an undo rebuilds has the empty path. *)
Lemma C6_rendered_file_not_restored :
  let buf := mkAudioBuffer 2 [[1 # 2; -1 # 4]] in
  let marker :=
    mkMarker 1 false 0 120 8 "/py/lead.py" [] 0 0 "/py/lead.py"
             "/tmp/render_1a2b.wav" (Some buf) 44100 in
  let timeline :=
    mkTimeline 120 8 4 4 0 8 1 0 1 [] [] false 1 1 [] [marker] in
  let st := mkAppState [timeline] [] false false 0 [] in
  model (undoSnapshot (pushUndoState st)) <> model st /\
  map (fun t => map renderedWavFile (markers t))
      (model (undoSnapshot (pushUndoState st))) = [[""%string]] /\
  map (fun t => map renderedWavFile (markers t)) (model st)
    = [["/tmp/render_1a2b.wav"%string]] /\
  map (fun t => map renderedBuffer (markers t))
      (model (undoSnapshot (pushUndoState st))) = [[Some buf]].
Proof.
  cbv zeta. split; [| repeat split].
  intro H.
  apply (f_equal (map (fun t => map renderedWavFile (markers t)))) in H.
  vm_compute in H. discriminate.
Qed.

(** C6, amended.  Outside a restore, a push followed at once by an undo
    rebuilds the model with every field of every timeline and every field of
    every marker as it was, the samples of the rendered buffers included,
    except the two members of a marker that no snapshot records
    ([isDragging] and [renderedWavFile]), which come back as [false] and the
    empty path; a model whose markers have these two at their initial values
    is restored exactly.  The stack is left as it was (less its oldest entry
    if it held ten), and over every run of pushes, undos and edits it never
    holds more than ten snapshots. *)
Theorem C6_push_undo (st : AppState) (ops : list HistoryOp) :
  isRestoring st = false ->
  (List.length (undoSnapshots st) <= 10)%nat ->
  model (undoSnapshot (pushUndoState st))
    = map resetTransientMarkers (model st)
  /\
  ((forall t m, In t (model st) -> In m (markers t) ->
      isDragging m = false /\ renderedWavFile m = ""%string) ->
   model (undoSnapshot (pushUndoState st)) = model st)
  /\
  undoSnapshots (undoSnapshot (pushUndoState st))
    = (if (10 <=? List.length (undoSnapshots st))%nat
       then tl (undoSnapshots st) else undoSnapshots st)
  /\
  (List.length (undoSnapshots (pushUndoState st)) <= 10)%nat
  /\
  (List.length (undoSnapshots (runHistory ops st)) <= 10)%nat.
Proof.
  intros Hr Hlen.
  destruct (pushUndoState_stack st Hr) as (kept & Ek & Kk).
  destruct (undoSnapshot_top (pushUndoState st) kept _ Ek) as (M & U & _).
  assert (Em : model (undoSnapshot (pushUndoState st))
               = map resetTransientMarkers (model st)).
  { rewrite M. apply restoreModel_snapshot. }
  split; [exact Em |]. split; [| split; [| split]].
  - intro Hd. rewrite Em.
    rewrite <- (map_id (model st)) at 2. apply map_ext_in.
    intros t Hin. apply resetTransientMarkers_default.
    intros m Hm. now apply (Hd t m).
  - now rewrite U, Kk.
  - now apply pushUndoState_length.
  - now apply runHistory_length.
Qed.

Lemma C6_push_undo_witness :
  let buf := mkAudioBuffer 2 [[1 # 2; -1 # 4]] in
  let marker :=
    mkMarker 1 false 0 120 8 "/py/lead.py" [] 0 0 "/py/lead.py" "" (Some buf)
             44100 in
  let timeline :=
    mkTimeline 120 8 4 4 0 8 1 0 1 [] [] false 1 1 [] [marker] in
  let st := mkAppState [timeline] [] false false 0 [] in
  let ops := [PushUndo; Edit (fun _ => []); PushUndo; Undo; PushUndo] in
  model (undoSnapshot (pushUndoState st)) = model st /\
  (List.length (undoSnapshots (runHistory ops st)) <= 10)%nat.
Proof.
  intros buf marker timeline st ops.
  destruct (C6_push_undo st ops eq_refl ltac:(simpl; lia)) as (_ & A & _ & _ & B).
  split; [| exact B].
  apply A. intros t m [<- | []] [<- | []]. split; reflexivity.
Defined.

(** The waveform that a successful render job leaves is the one that
    [recomputeWaveform] computes from the new buffer: the job runs a copy of
    the same loop. *)
Lemma runJob_waveform (w : RenderJob.World) (j : PythonRenderer.RenderJob)
    (marker : Marker) :
  (forall f, ~ RenderJob.failsWith w j marker f) ->
  recomputeWaveform (fst (RenderJob.runJob w j marker))
  = fst (RenderJob.runJob w j marker).
Proof.
  intro Hok. destruct (runJob_success w j marker Hok) as (reader & E).
  rewrite E. reflexivity.
Qed.

(** * Further properties of the code *)

(** ** Time mapping: the loop region and the range of the local time *)

Lemma getLoopedLocalTime_two_markers_loop (timeline : Timeline)
    (t a b : Q) (rest : list Q) :
  0 < durationSeconds timeline ->
  repeatMarkers timeline = a :: b :: rest ->
  a < b -> a <= t ->
  getLoopedLocalTime t timeline == a + Cmath.floor_mod (t - a) (b - a).
Proof.
  intros Hd Hr Hab Hat. unfold getLoopedLocalTime. rewrite Hr.
  destruct (Qleb_spec (durationSeconds timeline) 0); [lra |].
  destruct (Qltb_spec a b); [| contradiction].
  destruct (Qleb_spec a t); [| contradiction].
  cbn [andb]. cbv zeta.
  assert (L : 0 < b - a) by lra.
  assert (P : 0 <= t - a) by lra.
  pose proof (fmod_nonneg (t - a) (b - a) L P) as E.
  pose proof (floor_mod_range (t - a) (b - a) L) as [R0 R1].
  destruct (Qltb_spec (a + Cmath.fmod (t - a) (b - a)) a); lra.
Qed.

Lemma getLoopedLocalTime_loop_region (timeline : Timeline)
    (t a b : Q) (rest : list Q) (k : Z) :
  0 < durationSeconds timeline ->
  repeatMarkers timeline = a :: b :: rest ->
  (a < b /\ a <= t ->
     getLoopedLocalTime t timeline == a + Cmath.floor_mod (t - a) (b - a) /\
     a <= getLoopedLocalTime t timeline < b /\
     ((0 <= k)%Z ->
        getLoopedLocalTime (t + inject_Z k * (b - a)) timeline
        == getLoopedLocalTime t timeline))
  /\
  (~ (a < b /\ a <= t) ->
     getLoopedLocalTime t timeline
     = Juce.jlimit 0 (durationSeconds timeline) t).
Proof.
  intros Hd Hr. split.
  - intros [Hab Hat].
    pose proof (getLoopedLocalTime_two_markers_loop timeline t a b rest
                  Hd Hr Hab Hat) as E.
    assert (L : 0 < b - a) by lra.
    pose proof (floor_mod_range (t - a) (b - a) L) as [R0 R1].
    split; [exact E |]. split; [lra |].
    intro Hk.
    assert (K : 0 <= inject_Z k * (b - a)).
    { apply Qmult_le_0_compat; [| lra].
      change 0 with (inject_Z 0). now rewrite <- Zle_Qle. }
    rewrite E, getLoopedLocalTime_two_markers_loop
      with (a := a) (b := b) (rest := rest); try assumption; [| lra].
    assert (S1 : t + inject_Z k * (b - a) - a == (t - a) + inject_Z k * (b - a))
      by ring.
    rewrite (floor_mod_comp _ _ _ S1), (floor_mod_periodic _ _ _ L).
    reflexivity.
  - intro Hn. unfold getLoopedLocalTime. rewrite Hr.
    destruct (Qleb_spec (durationSeconds timeline) 0); [lra |].
    destruct (Qltb_spec a b); destruct (Qleb_spec a t); cbn [andb];
      try reflexivity.
    exfalso. apply Hn. now split.
Qed.

(** With two repeat markers [a < b] the local time of [t >= a] runs through
    the region [[a, b)] again and again: it is [a] plus the remainder of
    [t - a] by [b - a], and it is the same one whole number of region
    lengths later.  Before [a], or when the markers do not span a region,
    the time is clamped to the timeline. *)
Theorem two_repeat_markers_loop_region (timeline : Timeline)
    (t a b : Q) (rest : list Q) (k : Z) :
  0 < durationSeconds timeline ->
  repeatMarkers timeline = a :: b :: rest ->
  (a < b /\ a <= t ->
     getLoopedLocalTime t timeline == a + Cmath.floor_mod (t - a) (b - a) /\
     a <= getLoopedLocalTime t timeline < b /\
     ((0 <= k)%Z ->
        getLoopedLocalTime (t + inject_Z k * (b - a)) timeline
        == getLoopedLocalTime t timeline))
  /\
  (~ (a < b /\ a <= t) ->
     getLoopedLocalTime t timeline
     = Juce.jlimit 0 (durationSeconds timeline) t).
Proof.
  exact (getLoopedLocalTime_loop_region timeline t a b rest k).
Qed.

Lemma two_repeat_markers_loop_region_witness :
  let timeline := mkTimeline 120 10 4 4 0 10 1 0 1 [] [] false 1 1 [2; 6] [] in
  getLoopedLocalTime 7 timeline == 2 + Cmath.floor_mod (7 - 2) (6 - 2) /\
  2 <= getLoopedLocalTime 7 timeline < 6 /\
  ((0 <= 3)%Z ->
     getLoopedLocalTime (7 + inject_Z 3 * (6 - 2)) timeline
     == getLoopedLocalTime 7 timeline).
Proof.
  intro timeline.
  apply (two_repeat_markers_loop_region timeline 7 2 6 [] 3);
    [reflexivity | reflexivity |].
  split; [reflexivity | discriminate].
Defined.

(** Whatever the time, the local time lies on the timeline, provided the
    repeat markers do; and on a timeline without duration it is 0. *)
Theorem local_time_on_timeline (timeline : Timeline) (t : Q) :
  (forall m, In m (repeatMarkers timeline) ->
     0 <= m <= durationSeconds timeline) ->
  (durationSeconds timeline <= 0 -> getLoopedLocalTime t timeline = 0) /\
  (0 < durationSeconds timeline ->
     0 <= getLoopedLocalTime t timeline <= durationSeconds timeline).
Proof.
  intro Hm. split.
  - intro H. unfold getLoopedLocalTime.
    destruct (Qleb_spec (durationSeconds timeline) 0); [reflexivity | contradiction].
  - intro Hd.
    assert (C : 0 <= Juce.jlimit 0 (durationSeconds timeline) t
                <= durationSeconds timeline) by (apply jlimit_range; lra).
    destruct (repeatMarkers timeline) as [| a [| b rest]] eqn:Hr.
    + pose proof (getLoopedLocalTime_no_marker timeline t Hd Hr) as E.
      pose proof (floor_mod_range t _ Hd). lra.
    + assert (Ha : 0 <= a <= durationSeconds timeline) by (apply Hm; now left).
      destruct (Qlt_le_dec 0 a) as [Hpos | Hnp];
        [destruct (Qlt_le_dec t a) as [Hlt | Hge] |].
      * rewrite (getLoopedLocalTime_one_marker_clamp timeline t a Hd Hr);
          [exact C | intros [_ H]; lra].
      * pose proof (getLoopedLocalTime_one_marker_loop timeline t a Hd Hr Hpos Hge) as E.
        pose proof (floor_mod_range t a Hpos). lra.
      * rewrite (getLoopedLocalTime_one_marker_clamp timeline t a Hd Hr);
          [exact C | intros [H _]; lra].
    + assert (Ha : 0 <= a <= durationSeconds timeline) by (apply Hm; now left).
      assert (Hb : 0 <= b <= durationSeconds timeline)
        by (apply Hm; right; now left).
      destruct (getLoopedLocalTime_loop_region timeline t a b rest 0 Hd Hr)
        as [Loop Clamp].
      destruct (Qlt_le_dec a b) as [Hab | Hba];
        [destruct (Qlt_le_dec t a) as [Hlt | Hge] |].
      * rewrite Clamp; [exact C | intros [_ H]; lra].
      * destruct (Loop (conj Hab Hge)) as (_ & R & _). lra.
      * rewrite Clamp; [exact C | intros [H _]; lra].
Qed.

Lemma local_time_on_timeline_witness :
  let timeline := mkTimeline 120 10 4 4 0 10 1 0 1 [] [] false 1 1 [2; 6] [] in
  0 <= getLoopedLocalTime 1234 timeline <= 10.
Proof.
  intro timeline.
  apply (local_time_on_timeline timeline 1234); [| reflexivity].
  intros m [<- | [<- | []]]; split; discriminate.
Defined.

(** ** Repeat markers *)

Lemma insertAscending_In (x y : Q) (l : list Q) :
  In y (insertAscending x l) <-> y = x \/ In y l.
Proof.
  induction l as [| a l IH]; simpl.
  - intuition.
  - destruct (Qleb x a); simpl; rewrite ?IH; intuition.
Qed.

Lemma sortArray_In (y : Q) (l : list Q) : In y (sortArray l) <-> In y l.
Proof.
  induction l as [| a l IH]; simpl; [reflexivity |].
  rewrite insertAscending_In, IH. intuition.
Qed.

Lemma insertAscending_length (x : Q) (l : list Q) :
  List.length (insertAscending x l) = S (List.length l).
Proof.
  induction l as [| a l IH]; simpl; [reflexivity |].
  destruct (Qleb x a); simpl; auto.
Qed.

Lemma sortArray_length (l : list Q) : List.length (sortArray l) = List.length l.
Proof.
  induction l as [| a l IH]; simpl; [reflexivity |].
  now rewrite insertAscending_length, IH.
Qed.

Lemma insertAscending_ascending (x : Q) (l : list Q) :
  ascending l -> ascending (insertAscending x l).
Proof.
  induction l as [| a l IH]; intro H; simpl; [exact I |].
  destruct (Qleb_spec x a) as [Hle | Hgt].
  - simpl. split; assumption.
  - apply Qnot_le_lt in Hgt.
    destruct l as [| b l].
    + simpl. split; [lra | exact I].
    + destruct H as [Hab Hrest]. specialize (IH Hrest).
      simpl in IH |- *. destruct (Qleb_spec x b).
      * split; [lra | exact IH].
      * split; [exact Hab | exact IH].
Qed.

Lemma sortArray_ascending (l : list Q) : ascending (sortArray l).
Proof.
  induction l as [| a l IH]; [exact I |].
  simpl. now apply insertAscending_ascending.
Qed.

Lemma removeNth_In {A : Type} (l : list A) :
  forall n x, In x (removeNth n l) -> In x l.
Proof.
  induction l as [| a l IH]; intros [| n] x H; simpl in *; auto.
  destruct H as [H | H]; [now left | right; eauto].
Qed.

Lemma removeNth_length {A : Type} (l : list A) :
  forall n, (n < List.length l)%nat ->
  List.length (removeNth n l) = pred (List.length l).
Proof.
  induction l as [| a l IH]; intros [| n] H; simpl in *; try lia.
  rewrite IH by lia. destruct l; simpl in *; lia.
Qed.

Lemma replaceNth_In {A : Type} (l : list A) :
  forall n x y, In y (replaceNth n x l) -> y = x \/ In y l.
Proof.
  induction l as [| a l IH]; intros [| n] x y H; simpl in *; auto.
  - destruct H as [H | H]; auto.
  - destruct H as [H | H]; [auto |]. destruct (IH n x y H); auto.
Qed.

(** The view keeps the repeat markers of a timeline in order: adding one
    (the third click starts over with one), dragging one and deleting one
    each leave at most two markers, ascending and on the timeline; an added
    marker is there afterwards, clamped to the timeline. *)
Theorem repeat_markers_stay_ordered (timeline : Timeline) (atSeconds : Q)
    (index : Z) :
  0 <= durationSeconds timeline ->
  repeatMarkersOk timeline ->
  repeatMarkersOk (addRepeatMarker timeline atSeconds) /\
  In (Juce.jlimit 0 (durationSeconds timeline) atSeconds)
     (repeatMarkers (addRepeatMarker timeline atSeconds)) /\
  List.length (repeatMarkers (addRepeatMarker timeline atSeconds))
  = (if (2 <=? List.length (repeatMarkers timeline))%nat then 1%nat
     else S (List.length (repeatMarkers timeline))) /\
  repeatMarkersOk (dragRepeatMarker timeline index atSeconds) /\
  repeatMarkersOk (deleteRepeatMarker timeline index).
Proof.
  intros Hd (Hlen & Hasc & Hin).
  assert (C : 0 <= Juce.jlimit 0 (durationSeconds timeline) atSeconds
              <= durationSeconds timeline) by now apply jlimit_range.
  split; [| split; [| split; [| split]]].
  - unfold repeatMarkersOk, addRepeatMarker. cbn [repeatMarkers durationSeconds setRepeatMarkers].
    split; [| split].
    + rewrite sortArray_length, length_app. cbn [List.length].
      destruct (Nat.leb_spec 2 (List.length (repeatMarkers timeline)));
        cbn [List.length]; lia.
    + apply sortArray_ascending.
    + intros m Hm. rewrite sortArray_In in Hm. apply in_app_or in Hm.
      destruct Hm as [Hm | [<- | []]]; [| exact C].
      destruct (2 <=? List.length (repeatMarkers timeline))%nat; [destruct Hm |].
      now apply Hin.
  - unfold addRepeatMarker. cbn [repeatMarkers setRepeatMarkers].
    rewrite sortArray_In. apply in_or_app. right. now left.
  - unfold addRepeatMarker. cbn [repeatMarkers setRepeatMarkers].
    rewrite sortArray_length, length_app. cbn [List.length].
    destruct (2 <=? List.length (repeatMarkers timeline))%nat;
      cbn [List.length]; lia.
  - unfold repeatMarkersOk, dragRepeatMarker.
    destruct ((0 <=? index)%Z
              && (index <? Z.of_nat (List.length (repeatMarkers timeline)))%Z);
      [| split; [| split]; assumption].
    cbn [repeatMarkers durationSeconds setRepeatMarkers].
    split; [| split].
    + now rewrite sortArray_length, length_replaceNth.
    + apply sortArray_ascending.
    + intros m Hm. rewrite sortArray_In in Hm. apply replaceNth_In in Hm.
      destruct Hm as [-> | Hm]; [exact C | now apply Hin].
  - unfold repeatMarkersOk, deleteRepeatMarker.
    destruct (Z.ltb_spec index 0); [split; [| split]; assumption |].
    destruct (Z.leb_spec (Z.of_nat (List.length (repeatMarkers timeline))) index);
      [split; [| split]; assumption |].
    cbn [orb repeatMarkers durationSeconds setRepeatMarkers].
    split; [| split].
    + rewrite removeNth_length by lia. lia.
    + assert (Hn : (Z.to_nat index < List.length (repeatMarkers timeline))%nat)
        by lia.
      destruct (repeatMarkers timeline) as [| a [| b [| c rest]]];
        simpl in Hlen, Hn; try lia;
        destruct (Z.to_nat index) as [| [| n]]; simpl; auto; lia.
    + intros m Hm. apply Hin. eapply removeNth_In; eauto.
Qed.

Lemma repeat_markers_stay_ordered_witness :
  let timeline := mkTimeline 120 10 4 4 0 10 1 0 1 [] [] false 1 1 [6] [] in
  repeatMarkersOk (addRepeatMarker timeline 2) /\
  In (Juce.jlimit 0 10 2) (repeatMarkers (addRepeatMarker timeline 2)).
Proof.
  intro timeline.
  destruct (repeat_markers_stay_ordered timeline 2 0) as (A & B & _).
  - discriminate.
  - split; [simpl; lia |]. split; [exact I |].
    intros m [<- | []]. split; discriminate.
  - split; [exact A | exact B].
Defined.

(** ** The visible window *)

Lemma jmax_cases (a b : Q) :
  (a < b /\ Juce.jmax a b = b) \/ (b <= a /\ Juce.jmax a b = a).
Proof.
  unfold Juce.jmax. destruct (Qltb_spec a b); [left | right]; split; auto.
  now apply Qnot_lt_le.
Qed.

Lemma jlimit_idempotent (lo hi v : Q) :
  lo <= hi -> Juce.jlimit lo hi (Juce.jlimit lo hi v) = Juce.jlimit lo hi v.
Proof.
  intro H. pose proof (jlimit_range lo hi v H) as [R0 R1].
  now apply jlimit_inside.
Qed.

Lemma viewLength_cases (timeline : Timeline) :
  let len :=
    if Qleb (viewDurationSeconds timeline) 0
       || Qltb (durationSeconds timeline) (viewDurationSeconds timeline)
    then durationSeconds timeline
    else viewDurationSeconds timeline in
  (len = durationSeconds timeline) \/
  (len = viewDurationSeconds timeline /\
   0 < viewDurationSeconds timeline <= durationSeconds timeline).
Proof.
  cbv zeta.
  destruct (Qleb_spec (viewDurationSeconds timeline) 0); [now left |].
  destruct (Qltb_spec (durationSeconds timeline) (viewDurationSeconds timeline));
    [now left |].
  right. split; [reflexivity |]. split; [now apply Qnot_le_lt | now apply Qnot_lt_le].
Qed.

Lemma getViewWindow_range (timeline : Timeline) :
  0 < durationSeconds timeline ->
  let view := View.getViewWindow timeline in
  0 < View.length view <= durationSeconds timeline /\
  0 <= View.start view /\
  View.start view + View.length view <= durationSeconds timeline.
Proof.
  intro Hd. unfold View.getViewWindow. cbv zeta. cbn [View.start View.length].
  destruct (viewLength_cases timeline) as [E | [E R]]; cbv zeta in E; rewrite E.
  - destruct (jmax_cases 0 (durationSeconds timeline - durationSeconds timeline))
      as [[M1 M2] | [M1 M2]]; rewrite M2.
    + lra.
    + pose proof (jlimit_range 0 0 (viewStartSeconds timeline) ltac:(lra)). lra.
  - destruct (jmax_cases 0 (durationSeconds timeline - viewDurationSeconds timeline))
      as [[M1 M2] | [M1 M2]]; rewrite M2.
    + pose proof (jlimit_range 0 (durationSeconds timeline - viewDurationSeconds timeline)
                    (viewStartSeconds timeline) ltac:(lra)). lra.
    + pose proof (jlimit_range 0 0 (viewStartSeconds timeline) ltac:(lra)). lra.
Qed.

(** On a timeline of positive duration the visible window has a positive
    length and lies on the timeline, whatever view start and view duration
    are stored. *)
Theorem view_window_on_timeline (timeline : Timeline) :
  0 < durationSeconds timeline ->
  let view := View.getViewWindow timeline in
  0 < View.length view <= durationSeconds timeline /\
  0 <= View.start view /\
  View.start view + View.length view <= durationSeconds timeline.
Proof.
  exact (getViewWindow_range timeline).
Qed.

Lemma view_window_on_timeline_witness :
  let timeline := mkTimeline 120 10 4 4 7 5 1 0 1 [] [] false 1 1 [] [] in
  let view := View.getViewWindow timeline in
  0 < View.length view <= 10 /\
  0 <= View.start view /\
  View.start view + View.length view <= 10.
Proof.
  intro timeline. apply (view_window_on_timeline timeline). reflexivity.
Defined.

Lemma trunc_between (x : Q) (n : Z) :
  0 <= x -> x <= inject_Z n -> (0 <= Cmath.trunc x <= n)%Z.
Proof.
  intros H0 H1. rewrite trunc_nonneg by assumption. split.
  - change 0%Z with (Qfloor 0). now apply Qfloor_resp_le.
  - rewrite <- (Qfloor_Z n). now apply Qfloor_resp_le.
Qed.

Lemma xToTime_timeToX_range (timeline : Timeline) (rowX rowWidth : Z)
    (x atSeconds : Q) :
  0 < durationSeconds timeline ->
  (0 < rowWidth)%Z ->
  View.isTimeInView (View.xToTime x timeline rowX rowWidth) timeline = true /\
  0 <= View.xToTime x timeline rowX rowWidth <= durationSeconds timeline /\
  (rowX <= View.timeToX atSeconds timeline rowX rowWidth <= rowX + rowWidth)%Z.
Proof.
  intros Hd Hw.
  destruct (getViewWindow_range timeline Hd) as (L & S0 & S1).
  cbv zeta in L, S0, S1.
  assert (R : forall r, 0 <= Juce.jlimit 0 1 r <= 1)
    by (intro r; apply jlimit_range; lra).
  assert (X : View.start (View.getViewWindow timeline)
              <= View.xToTime x timeline rowX rowWidth
              <= View.start (View.getViewWindow timeline)
                 + View.length (View.getViewWindow timeline)).
  { unfold View.xToTime. cbv zeta.
    specialize (R ((x - inject_Z rowX) / inject_Z rowWidth)).
    set (r := Juce.jlimit 0 1 ((x - inject_Z rowX) / inject_Z rowWidth)) in *.
    set (len := View.length (View.getViewWindow timeline)) in *.
    assert (P1 : 0 <= r * len) by (apply Qmult_le_0_compat; lra).
    assert (P2 : 0 <= (1 - r) * len) by (apply Qmult_le_0_compat; lra).
    lra. }
  split; [| split].
  - unfold View.isTimeInView. cbv zeta.
    destruct (Qleb_spec (View.length (View.getViewWindow timeline)) 0); [lra |].
    destruct (Qleb_spec (View.start (View.getViewWindow timeline))
                (View.xToTime x timeline rowX rowWidth)); [| lra].
    destruct (Qleb_spec (View.xToTime x timeline rowX rowWidth)
                (View.start (View.getViewWindow timeline)
                 + View.length (View.getViewWindow timeline))); [reflexivity | lra].
  - lra.
  - unfold View.timeToX. cbv zeta.
    set (r := Juce.jlimit 0 1 _).
    assert (Rr : 0 <= r <= 1) by apply R.
    assert (W : 0 < inject_Z rowWidth)
      by (change 0 with (inject_Z 0); now rewrite <- Zlt_Qlt).
    assert (P1 : 0 <= r * inject_Z rowWidth) by (apply Qmult_le_0_compat; lra).
    assert (P2 : 0 <= (1 - r) * inject_Z rowWidth)
      by (apply Qmult_le_0_compat; lra).
    assert (P3 : r * inject_Z rowWidth <= inject_Z rowWidth) by lra.
    pose proof (trunc_between _ _ P1 P3). lia.
Qed.

(** The time under a pixel is in view and on the timeline, and the pixel of
    a time is inside the row: for a timeline of positive duration and a row
    of positive width, whatever the pixel and the time. *)
Theorem pixel_mapping_stays_in_view (timeline : Timeline) (rowX rowWidth : Z)
    (x atSeconds : Q) :
  0 < durationSeconds timeline ->
  (0 < rowWidth)%Z ->
  View.isTimeInView (View.xToTime x timeline rowX rowWidth) timeline = true /\
  0 <= View.xToTime x timeline rowX rowWidth <= durationSeconds timeline /\
  (rowX <= View.timeToX atSeconds timeline rowX rowWidth <= rowX + rowWidth)%Z.
Proof.
  exact (xToTime_timeToX_range timeline rowX rowWidth x atSeconds).
Qed.

Lemma pixel_mapping_stays_in_view_witness :
  let timeline := mkTimeline 120 10 4 4 7 5 1 0 1 [] [] false 1 1 [] [] in
  View.isTimeInView (View.xToTime 950 timeline 40 600) timeline = true /\
  0 <= View.xToTime 950 timeline 40 600 <= 10 /\
  (40 <= View.timeToX 3 timeline 40 600 <= 40 + 600)%Z.
Proof.
  intro timeline.
  apply (pixel_mapping_stays_in_view timeline 40 600 950 3); reflexivity.
Defined.

Lemma clampViewToDuration_twice (timeline : Timeline) :
  View.getViewWindow timeline
  = View.mkViewWindow (viewStartSeconds (clampViewToDuration timeline))
                      (viewDurationSeconds (clampViewToDuration timeline)) /\
  clampViewToDuration (clampViewToDuration timeline)
  = clampViewToDuration timeline.
Proof.
  split; [reflexivity |].
  unfold clampViewToDuration. cbv zeta.
  cbn [viewDurationSeconds viewStartSeconds durationSeconds setView].
  set (len := if Qleb (viewDurationSeconds timeline) 0
                 || Qltb (durationSeconds timeline) (viewDurationSeconds timeline)
              then durationSeconds timeline else viewDurationSeconds timeline).
  assert (E : (if Qleb len 0 || Qltb (durationSeconds timeline) len
               then durationSeconds timeline else len) = len).
  { destruct (viewLength_cases timeline) as [E | [E R]]; fold len in E.
    - rewrite E. destruct (Qleb (durationSeconds timeline) 0
                           || Qltb (durationSeconds timeline) (durationSeconds timeline));
        reflexivity.
    - rewrite E.
      destruct (Qleb_spec (viewDurationSeconds timeline) 0); [lra |].
      destruct (Qltb_spec (durationSeconds timeline) (viewDurationSeconds timeline));
        [lra | reflexivity]. }
  rewrite E.
  rewrite jlimit_idempotent; [reflexivity |].
  destruct (jmax_cases 0 (durationSeconds timeline - len)) as [[M1 M2] | [M1 M2]];
    rewrite M2; lra.
Qed.

(** [clampViewToDuration] stores exactly the window that the view shows,
    and clamping a second time changes nothing. *)
Theorem clampViewToDuration_idempotent (timeline : Timeline) :
  View.getViewWindow timeline
  = View.mkViewWindow (viewStartSeconds (clampViewToDuration timeline))
                      (viewDurationSeconds (clampViewToDuration timeline)) /\
  clampViewToDuration (clampViewToDuration timeline)
  = clampViewToDuration timeline.
Proof.
  exact (clampViewToDuration_twice timeline).
Qed.

(** The zoom factor lies between 1 and 16. *)
Lemma getZoomFactorForTimeline_range (timeline : Timeline) :
  1 <= getZoomFactorForTimeline timeline <= 16.
Proof.
  unfold getZoomFactorForTimeline.
  destruct (Qleb (durationSeconds timeline) 0); [lra |].
  destruct (Qleb (viewDurationSeconds timeline) 0); [lra |].
  apply jlimit_range. lra.
Qed.

(** Entering a duration in the inspector leaves a duration between a
    quarter of a second and an hour, a window that the view shows as
    stored, inside the timeline, and the zoom factor that the timeline had
    before. *)
Theorem applyDuration_keeps_zoom (entered : Q) (timeline : Timeline) :
  let after := applyDuration entered timeline in
  (1 # 4) <= durationSeconds after <= 3600 /\
  durationSeconds after = Juce.jlimit (1 # 4) 3600 entered /\
  0 < viewDurationSeconds after <= durationSeconds after /\
  0 <= viewStartSeconds after /\
  viewStartSeconds after + viewDurationSeconds after <= durationSeconds after /\
  getZoomFactorForTimeline after == getZoomFactorForTimeline timeline.
Proof.
  cbv zeta.
  pose proof (getZoomFactorForTimeline_range timeline) as [Z1 Z16].
  pose proof (jlimit_range (1 # 4) 3600 entered ltac:(lra)) as [D0 D1].
  set (z := getZoomFactorForTimeline timeline) in *.
  set (d := Juce.jlimit (1 # 4) 3600 entered) in *.
  pose (mid := setView (viewStartSeconds timeline) (d / z)
                       (setDurationSeconds d timeline)).
  assert (Ea : applyDuration entered timeline = clampViewToDuration mid)
    by reflexivity.
  rewrite Ea.
  assert (Hd : 0 < durationSeconds mid) by (simpl; lra).
  destruct (clampViewToDuration_twice mid) as [W _].
  destruct (getViewWindow_range mid Hd) as (L & S0 & S1).
  cbv zeta in L, S0, S1. rewrite W in L, S0, S1. cbn [View.start View.length] in *.
  assert (Dd : durationSeconds (clampViewToDuration mid) = d) by reflexivity.
  rewrite Dd in *.
  assert (V : 0 < d / z <= d).
  { split.
    - apply Qlt_shift_div_l; lra.
    - apply Qle_shift_div_r; [lra |].
      assert (0 <= d * (z - 1)) by (apply Qmult_le_0_compat; lra). lra. }
  assert (Ev : viewDurationSeconds (clampViewToDuration mid) = d / z).
  { unfold clampViewToDuration, mid. cbv zeta. simpl.
    destruct (Qleb_spec (d / z) 0); [lra |].
    destruct (Qltb_spec d (d / z)); [lra | reflexivity]. }
  split; [lra |]. split; [reflexivity |].
  split; [exact L |]. split; [exact S0 |]. split; [exact S1 |].
  unfold getZoomFactorForTimeline at 1. rewrite Dd, Ev.
  destruct (Qleb_spec d 0); [lra |].
  destruct (Qleb_spec (d / z) 0); [lra |].
  assert (Q1 : d / (d / z) == z) by (field; split; lra).
  rewrite jlimit_inside; [exact Q1 | rewrite Q1; exact Z1 | rewrite Q1; exact Z16].
Qed.

(** ** Rows: hit testing against layout *)

Lemma jlimitZ_range (lo hi v : Z) :
  (lo <= hi)%Z -> (lo <= Juce.jlimitZ lo hi v <= hi)%Z.
Proof.
  intro H. unfold Juce.jlimitZ.
  destruct (Z.ltb_spec v lo); [lia |]. destruct (Z.ltb_spec hi v); lia.
Qed.

Lemma getRowHeightForTimeline_range (timeline : Timeline) :
  (80 <= View.getRowHeightForTimeline timeline <= 260)%Z.
Proof. unfold View.getRowHeightForTimeline. apply jlimitZ_range. lia. Qed.

Lemma rowFrom_top (rows : list Timeline) :
  forall index i yy,
  (i <= index < i + Z.of_nat (List.length rows))%Z ->
  (yy <= fst (View.rowFrom index i yy rows))%Z.
Proof.
  induction rows as [| t rows IH]; intros index i yy H; simpl in *; [lia |].
  destruct (Z.eqb_spec i index); [simpl; lia |].
  pose proof (getRowHeightForTimeline_range t).
  specialize (IH index (i + 1)%Z (yy + View.getRowHeightForTimeline t)%Z
                ltac:(lia)). lia.
Qed.

Lemma rowFrom_height (rows : list Timeline) :
  forall index i yy,
  (i <= index < i + Z.of_nat (List.length rows))%Z ->
  (80 <= snd (View.rowFrom index i yy rows) <= 260)%Z.
Proof.
  induction rows as [| t rows IH]; intros index i yy H; simpl in *; [lia |].
  destruct (Z.eqb_spec i index);
    [simpl; apply getRowHeightForTimeline_range | apply IH; lia].
Qed.

Lemma timelineIndexFrom_sound (rows : list Timeline) :
  forall (y : Q) (i0 yy i : Z),
  (0 <= i0)%Z ->
  View.timelineIndexFrom y i0 yy rows = i -> i <> (-1)%Z ->
  (i0 <= i < i0 + Z.of_nat (List.length rows))%Z /\
  inject_Z (fst (View.rowFrom i i0 yy rows)) <= y /\
  y < inject_Z (fst (View.rowFrom i i0 yy rows)
                + snd (View.rowFrom i i0 yy rows)).
Proof.
  induction rows as [| t rows IH]; intros y i0 yy i H0 H Hne; simpl in H.
  - congruence.
  - cbn [View.rowFrom List.length].
    destruct (Qleb_spec (inject_Z yy) y) as [A | A];
      [destruct (Qltb_spec y (inject_Z (yy + View.getRowHeightForTimeline t)))
         as [B | B] |]; cbn [andb] in H.
    + subst i. rewrite Z.eqb_refl. simpl. split; [lia | split; assumption].
    + destruct (IH y (i0 + 1)%Z _ i ltac:(lia) H Hne) as (R & T & U).
      destruct (Z.eqb_spec i0 i); [lia |]. split; [lia | split; assumption].
    + destruct (IH y (i0 + 1)%Z _ i ltac:(lia) H Hne) as (R & T & U).
      destruct (Z.eqb_spec i0 i); [lia |]. split; [lia | split; assumption].
Qed.

Lemma timelineIndexFrom_complete (rows : list Timeline) :
  forall (y : Q) (i0 yy i : Z),
  (i0 <= i < i0 + Z.of_nat (List.length rows))%Z ->
  inject_Z (fst (View.rowFrom i i0 yy rows)) <= y ->
  y < inject_Z (fst (View.rowFrom i i0 yy rows)
                + snd (View.rowFrom i i0 yy rows)) ->
  View.timelineIndexFrom y i0 yy rows = i.
Proof.
  induction rows as [| t rows IH]; intros y i0 yy i R T U;
    cbn [View.rowFrom View.timelineIndexFrom List.length] in *; [lia |].
  destruct (Z.eqb_spec i0 i) as [-> | Hne].
  - cbn [fst snd] in T, U.
    destruct (Qleb_spec (inject_Z yy) y); [| contradiction].
    destruct (Qltb_spec y (inject_Z (yy + View.getRowHeightForTimeline t)));
      [reflexivity | contradiction].
  - pose proof (rowFrom_top rows i (i0 + 1)%Z
                  (yy + View.getRowHeightForTimeline t)%Z ltac:(lia)) as G.
    assert (G' : inject_Z (yy + View.getRowHeightForTimeline t) <= y).
    { eapply Qle_trans; [| exact T]. now rewrite <- Zle_Qle. }
    destruct (Qltb_spec y (inject_Z (yy + View.getRowHeightForTimeline t)));
      [lra |].
    rewrite andb_false_r. apply IH; [lia | assumption | assumption].
Qed.

(** Hit testing agrees with the layout of the rows: the index found for a
    vertical position is that of the row which contains the position, and
    the position of no row gives -1.  Every row is between 80 and 260
    pixels high. *)
Theorem row_hit_test_matches_layout (tls : list Timeline) (y : Q) (i : Z) :
  let top := fst (View.getRowForTimelineIndex tls i) in
  let height := snd (View.getRowForTimelineIndex tls i) in
  (View.getTimelineIndexForY tls y = i -> i <> (-1)%Z ->
     (0 <= i < TimelineModel.getTimelineCount tls)%Z /\
     inject_Z top <= y < inject_Z (top + height) /\
     (80 <= height <= 260)%Z)
  /\
  ((0 <= i < TimelineModel.getTimelineCount tls)%Z ->
   inject_Z top <= y < inject_Z (top + height) ->
   View.getTimelineIndexForY tls y = i).
Proof.
  cbv zeta. unfold View.getTimelineIndexForY, View.getRowForTimelineIndex,
    TimelineModel.getTimelineCount. split.
  - intros H Hne.
    destruct tls as [| t rest]; [congruence |].
    destruct (timelineIndexFrom_sound (t :: rest) y 0 0 i ltac:(lia) H Hne)
      as (R & T & U).
    split; [lia |]. split; [split; assumption |].
    apply rowFrom_height. lia.
  - intros R [T U].
    destruct tls as [| t rest]; [simpl in R; lia |].
    apply timelineIndexFrom_complete; [lia | assumption | assumption].
Qed.

Lemma row_hit_test_matches_layout_witness :
  View.getTimelineIndexForY TimelineModel.initial 130 = 1%Z.
Proof.
  apply (row_hit_test_matches_layout TimelineModel.initial 130 1).
  - split; [discriminate | reflexivity].
  - split; [discriminate | reflexivity].
Defined.

(** ** Snapping *)

Lemma round_near (x : Q) :
  inject_Z (Cmath.round x) - (1 # 2) <= x /\
  x <= inject_Z (Cmath.round x) + (1 # 2).
Proof.
  unfold Cmath.round. destruct (Qleb_spec 0 x) as [H | H].
  - pose proof (Qfloor_le (x + (1 # 2))) as A.
    pose proof (Qlt_floor (x + (1 # 2))) as B.
    rewrite inject_Z_plus in B. change (inject_Z 1) with 1 in B.
    split; lra.
  - pose proof (Qfloor_le (- x + (1 # 2))) as A.
    pose proof (Qlt_floor (- x + (1 # 2))) as B.
    rewrite inject_Z_plus in B. change (inject_Z 1) with 1 in B.
    rewrite inject_Z_opp. split; lra.
Qed.

Lemma getSecondsGridSeconds_positive (snapResolutionIndex : Z) :
  0 < getSecondsGridSeconds snapResolutionIndex.
Proof.
  unfold getSecondsGridSeconds.
  repeat match goal with
         | |- context [match ?x with _ => _ end] => destruct x
         end; reflexivity.
Qed.

Lemma getBeatGridSeconds_positive (snapResolutionIndex : Z) (timeline : Timeline) :
  0 < tempoBpm timeline ->
  0 < getBeatGridSeconds snapResolutionIndex timeline.
Proof.
  intro Ht. unfold getBeatGridSeconds. cbv zeta.
  assert (U : 0 < inject_Z (Juce.jmaxZ 1 (beatUnit timeline))).
  { change 0 with (inject_Z 0). rewrite <- Zlt_Qlt. unfold Juce.jmaxZ.
    destruct (Z.ltb_spec 1 (beatUnit timeline)); lia. }
  assert (B : 0 < 60 / tempoBpm timeline * (4 / inject_Z (Juce.jmaxZ 1 (beatUnit timeline)))).
  { apply Qmult_lt_0_compat; apply Qlt_shift_div_l; lra. }
  set (beatSeconds := 60 / tempoBpm timeline
                      * (4 / inject_Z (Juce.jmaxZ 1 (beatUnit timeline)))) in *.
  repeat match goal with
         | |- context [match ?x with _ => _ end] => destruct x
         end;
    first [ exact B
          | apply Qmult_lt_0_compat; [exact B | reflexivity]
          | apply Qlt_shift_div_l; [reflexivity | lra] ].
Qed.

Lemma snapTimeSeconds_range (gridMode : GridMode) (snapResolutionIndex : Z)
    (atSeconds : Q) (timeline : Timeline) :
  0 < durationSeconds timeline ->
  (gridMode = BBT -> 0 < tempoBpm timeline) ->
  let grid :=
    match gridMode with
    | BBT => getBeatGridSeconds snapResolutionIndex timeline
    | Seconds => getSecondsGridSeconds snapResolutionIndex
    end in
  let snapped :=
    snapTimeSeconds gridMode snapResolutionIndex atSeconds timeline in
  0 < grid /\
  0 <= snapped <= durationSeconds timeline /\
  (snapped = inject_Z (Cmath.round (atSeconds / grid)) * grid \/
   snapped = 0 \/ snapped = durationSeconds timeline) /\
  (0 <= atSeconds <= durationSeconds timeline ->
     - (grid / 2) <= snapped - atSeconds <= grid / 2).
Proof.
  intros Hd Hmode grid snapped.
  assert (G : 0 < grid).
  { unfold grid. destruct gridMode.
    - apply getSecondsGridSeconds_positive.
    - apply getBeatGridSeconds_positive. now apply Hmode. }
  assert (E : snapped
              = Juce.jlimit 0 (durationSeconds timeline)
                  (inject_Z (Cmath.round (atSeconds / grid)) * grid)).
  { unfold snapped, snapTimeSeconds. fold grid.
    destruct (Qleb_spec (durationSeconds timeline) 0); [lra |].
    destruct (Qleb_spec grid 0); [lra | reflexivity]. }
  split; [exact G |]. split; [rewrite E; apply jlimit_range; lra |]. split.
  - rewrite E. unfold Juce.jlimit.
    destruct (Qltb _ 0); [now right; left |].
    destruct (Qltb (durationSeconds timeline) _); [now right; right | now left].
  - intros [T0 T1].
    destruct (round_near (atSeconds / grid)) as [N0 N1].
    set (k := inject_Z (Cmath.round (atSeconds / grid))) in *.
    assert (Q1 : atSeconds == atSeconds / grid * grid) by (field; lra).
    assert (P1 : 0 <= (atSeconds / grid - (k - (1 # 2))) * grid)
      by (apply Qmult_le_0_compat; lra).
    assert (P2 : 0 <= (k + (1 # 2) - atSeconds / grid) * grid)
      by (apply Qmult_le_0_compat; lra).
    assert (H2 : grid / 2 == (1 # 2) * grid) by (field).
    rewrite E. unfold Juce.jlimit.
    destruct (Qltb_spec (k * grid) 0);
      [| destruct (Qltb_spec (durationSeconds timeline) (k * grid))]; lra.
Qed.

(** A snapped time lies on the timeline; it is the nearest multiple of the
    grid step, or an end of the timeline when that multiple is beyond it;
    and a time on the timeline moves by at most half a step.  (In the
    bar/beat mode the step needs a positive tempo.) *)
Theorem snapped_time_on_grid (gridMode : GridMode) (snapResolutionIndex : Z)
    (atSeconds : Q) (timeline : Timeline) :
  0 < durationSeconds timeline ->
  (gridMode = BBT -> 0 < tempoBpm timeline) ->
  let grid :=
    match gridMode with
    | BBT => getBeatGridSeconds snapResolutionIndex timeline
    | Seconds => getSecondsGridSeconds snapResolutionIndex
    end in
  let snapped :=
    snapTimeSeconds gridMode snapResolutionIndex atSeconds timeline in
  0 < grid /\
  0 <= snapped <= durationSeconds timeline /\
  (snapped = inject_Z (Cmath.round (atSeconds / grid)) * grid \/
   snapped = 0 \/ snapped = durationSeconds timeline) /\
  (0 <= atSeconds <= durationSeconds timeline ->
     - (grid / 2) <= snapped - atSeconds <= grid / 2).
Proof.
  exact (snapTimeSeconds_range gridMode snapResolutionIndex atSeconds timeline).
Qed.

Lemma snapped_time_on_grid_witness :
  let timeline := mkTimeline 120 10 4 4 0 10 1 0 1 [] [] false 1 1 [] [] in
  0 <= snapTimeSeconds BBT 2 (37 # 10) timeline <= 10.
Proof.
  intro timeline.
  destruct (snapped_time_on_grid BBT 2 (37 # 10) timeline) as (_ & R & _);
    [reflexivity | intros _; reflexivity | exact R].
Defined.

(** ** Bars and beats *)



(** ** Automation: range of the curve, order of the lanes *)

Lemma convex_between (lo hi a b u : Q) :
  lo <= a <= hi -> lo <= b <= hi -> 0 <= u <= 1 ->
  lo <= a + u * (b - a) <= hi.
Proof.
  intros [A0 A1] [B0 B1] [U0 U1].
  assert (P1 : 0 <= (1 - u) * (a - lo)) by (apply Qmult_le_0_compat; lra).
  assert (P2 : 0 <= u * (b - lo)) by (apply Qmult_le_0_compat; lra).
  assert (P3 : 0 <= (1 - u) * (hi - a)) by (apply Qmult_le_0_compat; lra).
  assert (P4 : 0 <= u * (hi - b)) by (apply Qmult_le_0_compat; lra).
  split; lra.
Qed.

Lemma evalAutomationLoop_between (lo hi : Q) (rest : list AutomationPoint) :
  forall (prev : AutomationPoint) (t back : Q),
  timeSeconds prev < t ->
  lo <= value prev <= hi ->
  (forall p, In p rest -> lo <= value p <= hi) ->
  lo <= back <= hi ->
  lo <= evalAutomationLoop prev rest t back <= hi.
Proof.
  induction rest as [| b rest IH]; intros prev t back Hp Vp Vr Vb; simpl.
  - exact Vb.
  - assert (Vbb : lo <= value b <= hi) by (apply Vr; now left).
    destruct (Qleb_spec t (timeSeconds b)) as [Hle | Hgt].
    + destruct (Qleb_spec (timeSeconds b - timeSeconds prev) 0) as [Hs | Hs];
        [exact Vbb |].
      apply convex_between; try assumption.
      apply Qnot_le_lt in Hs. split.
      * apply Qle_shift_div_l; lra.
      * apply Qle_shift_div_r; lra.
    + apply IH; try assumption.
      * now apply Qnot_le_lt.
      * intros p Hin. apply Vr. now right.
Qed.

Lemma last_In {A : Type} (l : list A) (x : A) : In (last (x :: l) x) (x :: l).
Proof.
  revert x. induction l as [| y l IH]; intro x; [now left |].
  right. change (last (x :: y :: l) x) with (last (y :: l) x).
  rewrite (last_cons_default y l x y). apply IH.
Qed.

(** An automation curve never leaves the range of its points: when the
    values of the points and the default lie in an interval, so does the
    value at every time, whether or not the lane is sorted. *)
Theorem evalAutomation_within_values (points : list AutomationPoint)
    (t d lo hi : Q) :
  (forall p, In p points -> lo <= value p <= hi) ->
  lo <= d <= hi ->
  lo <= evalAutomation points t d <= hi.
Proof.
  intros Hv Hd. destruct points as [| front rest]; [exact Hd |].
  unfold evalAutomation.
  assert (Vf : lo <= value front <= hi) by (apply Hv; now left).
  assert (Vb : lo <= value (last (front :: rest) front) <= hi)
    by (apply Hv, last_In).
  destruct (Qleb_spec t (timeSeconds front)) as [H1 | H1]; [exact Vf |].
  destruct (Qleb_spec (timeSeconds (last (front :: rest) front)) t); [exact Vb |].
  apply evalAutomationLoop_between; try assumption.
  - now apply Qnot_le_lt.
  - intros p Hin. apply Hv. now right.
Qed.

Lemma evalAutomation_within_values_witness :
  let lane := [mkAutomationPoint 1 4 1; mkAutomationPoint 2 0 0;
               mkAutomationPoint 3 2 (1 # 3)] in
  0 <= evalAutomation lane (3 # 2) (1 # 2) <= 1.
Proof.
  intro lane. apply (evalAutomation_within_values lane (3 # 2) (1 # 2) 0 1).
  - intros p [<- | [<- | [<- | []]]]; split; discriminate.
  - split; discriminate.
Defined.

Lemma laneSorted_cons_iff (a : AutomationPoint) (l : list AutomationPoint) :
  laneSorted (a :: l) <->
  (forall p, In p l -> timeSeconds a <= timeSeconds p) /\ laneSorted l.
Proof.
  split.
  - intro H. split.
    + intros p Hin. apply (laneSorted_front_back a l H). now right.
    + destruct l as [| b l]; [exact I | apply H].
  - intros [H1 H2]. destruct l as [| b l]; [exact I |].
    split; [apply H1; now left | exact H2].
Qed.

Lemma insertPoint_In (p x : AutomationPoint) (l : list AutomationPoint) :
  In x (insertPoint p l) <-> x = p \/ In x l.
Proof.
  induction l as [| q l IH]; simpl.
  - intuition.
  - destruct (Qltb (timeSeconds q) (timeSeconds p)); simpl; rewrite ?IH; intuition.
Qed.

Lemma insertPoint_sorted (p : AutomationPoint) (l : list AutomationPoint) :
  laneSorted l -> laneSorted (insertPoint p l).
Proof.
  induction l as [| q l IH]; intro H; [exact I |].
  apply laneSorted_cons_iff in H. destruct H as [H1 H2].
  cbn [insertPoint]. destruct (Qltb_spec (timeSeconds q) (timeSeconds p)) as [Hlt | Hge].
  - apply laneSorted_cons_iff. split; [| now apply IH].
    intros x Hx. apply insertPoint_In in Hx. destruct Hx as [-> | Hx]; [lra | auto].
  - apply Qnot_lt_le in Hge.
    apply laneSorted_cons_iff. split.
    + intros x [<- | Hx]; [exact Hge |].
      apply Qle_trans with (timeSeconds q); auto.
    + apply laneSorted_cons_iff. now split.
Qed.

Lemma insertPoint_Permutation (p : AutomationPoint) (l : list AutomationPoint) :
  Permutation (p :: l) (insertPoint p l).
Proof.
  induction l as [| q l IH]; simpl; [reflexivity |].
  destruct (Qltb (timeSeconds q) (timeSeconds p)); [| reflexivity].
  rewrite perm_swap. now constructor.
Qed.

(** [sortAutomation] puts a lane in ascending order of time and keeps
    exactly its points. *)
Lemma sortAutomation_sorted (points : list AutomationPoint) :
  laneSorted (sortAutomation points) /\
  Permutation points (sortAutomation points).
Proof.
  induction points as [| p l [IH1 IH2]]; [split; [exact I | constructor] |].
  simpl. split; [now apply insertPoint_sorted |].
  rewrite <- insertPoint_Permutation. now constructor.
Qed.


Lemma lanePoints_setLanePoints (lane : AutomationLane)
    (pts : list AutomationPoint) (t : Timeline) :
  lanePoints lane (setLanePoints lane pts t) = pts.
Proof. destruct lane; reflexivity. Qed.

Lemma updateFirstWithId_ids (pointId : Z) (f : AutomationPoint -> AutomationPoint)
    (l : list AutomationPoint) :
  (forall p, id (f p) = id p) ->
  map id (updateFirstWithId pointId f l) = map id l.
Proof.
  intro Hf. induction l as [| p l IH]; [reflexivity |].
  simpl. destruct (id p =? pointId)%Z; simpl; [now rewrite Hf | now rewrite IH].
Qed.






(** Dragging an automation point keeps the points of its lane by id, puts
    the lane in ascending order again, and leaves the counter alone; with no
    lane or no such point nothing changes. *)
Theorem dragged_automation_point (snapEnabled : bool) (gridMode : GridMode)
    (snapResolutionIndex : Z) (timeline : Timeline) (lane : AutomationLane)
    (pointId : Z) (rectX rectWidth rectBottom rectHeight : Z) (x y : Q) :
  let after :=
    handleAutomationMouseDrag snapEnabled gridMode snapResolutionIndex timeline
      lane pointId rectX rectWidth rectBottom rectHeight x y in
  Permutation (map id (lanePoints lane timeline))
              (map id (lanePoints lane after)) /\
  nextAutomationId after = nextAutomationId timeline /\
  (lane <> LaneNone ->
   existsb (fun p => (id p =? pointId)%Z) (lanePoints lane timeline) = true ->
   laneSorted (lanePoints lane after)) /\
  (lane = LaneNone \/
   existsb (fun p => (id p =? pointId)%Z) (lanePoints lane timeline) = false ->
   after = timeline).
Proof.
  cbv zeta. unfold handleAutomationMouseDrag.
  destruct lane.
  - repeat split; auto. intro H. contradiction.
  - destruct (existsb _ (lanePoints Volume timeline)) eqn:E.
    + rewrite lanePoints_setLanePoints.
      match goal with
      | |- context [sortAutomation ?l] =>
          destruct (sortAutomation_sorted l) as [S1 S2]
      end.
      split; [| split; [reflexivity | split; [intros _ _; exact S1 |]]].
      * rewrite <- (Permutation_map id S2).
        rewrite updateFirstWithId_ids; reflexivity.
      * intros [H | H]; discriminate.
    + repeat split; auto. intros _ H. discriminate.
  - destruct (existsb _ (lanePoints Pan timeline)) eqn:E.
    + rewrite lanePoints_setLanePoints.
      match goal with
      | |- context [sortAutomation ?l] =>
          destruct (sortAutomation_sorted l) as [S1 S2]
      end.
      split; [| split; [reflexivity | split; [intros _ _; exact S1 |]]].
      * rewrite <- (Permutation_map id S2).
        rewrite updateFirstWithId_ids; reflexivity.
      * intros [H | H]; discriminate.
    + repeat split; auto. intros _ H. discriminate.
Qed.


Lemma dragged_automation_point_witness :
  let timeline :=
    mkTimeline 120 10 4 4 0 10 1 0 3
      [mkAutomationPoint 1 0 1; mkAutomationPoint 2 8 (1 # 2)] [] false 1 1 [] [] in
  laneSorted
    (lanePoints Volume
       (handleAutomationMouseDrag false Seconds 2 timeline Volume 1
          30 600 100 40 630 80)).
Proof.
  intro timeline.
  destruct (dragged_automation_point false Seconds 2 timeline Volume 1
              30 600 100 40 630 80) as (_ & _ & S & _).
  apply S; [discriminate | reflexivity].
Defined.


(** ** Fades *)

(** Dragging a fade tab of a rendered marker leaves the dragged fade between
    zero and the rendered duration and the other fade as it was; and when
    the other fade was itself between zero and the duration, the two fades
    together do not exceed the duration. *)
Theorem dragged_fade_fits (isIn : bool) (atSeconds : Q) (marker : Marker)
    (buf : AudioBuffer) :
  renderedBuffer marker = Some buf ->
  0 < renderedSampleRate marker ->
  (0 <= numSamples buf)%Z ->
  let duration := inject_Z (numSamples buf) / renderedSampleRate marker in
  let after := dragFade isIn atSeconds marker in
  (if isIn then fadeOutSeconds after = fadeOutSeconds marker
   else fadeInSeconds after = fadeInSeconds marker) /\
  0 <= (if isIn then fadeInSeconds after else fadeOutSeconds after) <= duration /\
  (0 <= (if isIn then fadeOutSeconds marker else fadeInSeconds marker)
     <= duration ->
   fadeInSeconds after + fadeOutSeconds after <= duration) /\
  cutFrame marker after /\
  renderedBuffer after = renderedBuffer marker.
Proof.
  intros Hb Hr Hn duration after.
  assert (D : 0 <= duration).
  { unfold duration. apply Qle_shift_div_l; [assumption |].
    rewrite Qmult_0_l. change 0 with (inject_Z 0). now rewrite <- Zle_Qle. }
  unfold after, dragFade. rewrite Hb.
  destruct (Qltb_spec 0 (renderedSampleRate marker)); [| contradiction].
  fold duration. cbv zeta.
  set (clamped := Juce.jlimit (startTimeSeconds marker)
                    (startTimeSeconds marker + duration) atSeconds).
  destruct isIn.
  - pose proof (jlimit_range 0 duration (clamped - startTimeSeconds marker) D)
      as [R0 R1].
    set (fin := Juce.jlimit 0 duration (clamped - startTimeSeconds marker)) in *.
    cbn [fadeInSeconds fadeOutSeconds setFades].
    destruct (Qltb_spec duration (fin + fadeOutSeconds marker)) as [Hex | Hok].
    + cbn [fadeInSeconds fadeOutSeconds setFades renderedBuffer].
      destruct (jmax_cases 0 (fin - (fin + fadeOutSeconds marker - duration)))
        as [[M1 M2] | [M1 M2]]; rewrite M2.
      * repeat split; try reflexivity; try assumption; try lra.
      * repeat split; try reflexivity; try assumption; try lra.
    + cbn [fadeInSeconds fadeOutSeconds setFades renderedBuffer].
      apply Qnot_lt_le in Hok. repeat split; try reflexivity; try assumption; try lra.
  - pose proof (jlimit_range 0 duration
                  (startTimeSeconds marker + duration - clamped) D) as [R0 R1].
    set (fout := Juce.jlimit 0 duration
                   (startTimeSeconds marker + duration - clamped)) in *.
    cbn [fadeInSeconds fadeOutSeconds setFades].
    destruct (Qltb_spec duration (fadeInSeconds marker + fout)) as [Hex | Hok].
    + cbn [fadeInSeconds fadeOutSeconds setFades renderedBuffer].
      destruct (jmax_cases 0 (fout - (fadeInSeconds marker + fout - duration)))
        as [[M1 M2] | [M1 M2]]; rewrite M2.
      * repeat split; try reflexivity; try assumption; try lra.
      * repeat split; try reflexivity; try assumption; try lra.
    + cbn [fadeInSeconds fadeOutSeconds setFades renderedBuffer].
      apply Qnot_lt_le in Hok. repeat split; try reflexivity; try assumption; try lra.
Qed.

Lemma dragged_fade_fits_witness :
  let buf := mkAudioBuffer 4 [[1 # 2; -1 # 4; 1 # 8; 1]] in
  let marker :=
    mkMarker 1 false 0 120 8 "/py/lead.py" [] 0 (3 # 2) "/py/lead.py" ""
             (Some buf) 2 in
  fadeInSeconds (dragFade true 5 marker)
  + fadeOutSeconds (dragFade true 5 marker) <= inject_Z 4 / 2.
Proof.
  intros buf marker.
  destruct (dragged_fade_fits true 5 marker buf) as (_ & _ & S & _);
    [reflexivity | reflexivity | discriminate |].
  apply S. split; discriminate.
Defined.

(** ** The timeline model *)

Lemma removeNth_insert {A : Type} (l : list A) :
  forall n x, nth_error l n = Some x ->
  firstn n (removeNth n l) ++ x :: skipn n (removeNth n l) = l.
Proof.
  induction l as [| a l IH]; intros [| n] x H; simpl in *; try discriminate.
  - now injection H as ->.
  - f_equal. now apply IH.
Qed.

(** Removing a timeline at an index outside the model removes nothing;
    inside, it yields that timeline and a model one shorter, and inserting
    it back at the same index gives the model as it was.  Inserting puts a
    timeline at the index clamped to the model and makes it one longer;
    inserting nothing changes nothing. *)
Theorem remove_then_insert_timeline (timelines : list Timeline) (index : Z)
    (t : Timeline) :
  let count := TimelineModel.getTimelineCount timelines in
  let removed := fst (TimelineModel.removeTimeline timelines index) in
  let remaining := snd (TimelineModel.removeTimeline timelines index) in
  ((index < 0 \/ count <= index)%Z ->
     removed = None /\ remaining = timelines)
  /\
  ((0 <= index < count)%Z ->
     removed = nth_error timelines (Z.to_nat index) /\
     removed <> None /\
     TimelineModel.getTimelineCount remaining = (count - 1)%Z /\
     TimelineModel.insertTimeline remaining index removed = timelines)
  /\
  (TimelineModel.getTimelineCount
     (TimelineModel.insertTimeline timelines index (Some t)) = (count + 1)%Z /\
   nth_error (TimelineModel.insertTimeline timelines index (Some t))
             (Z.to_nat (Juce.jlimitZ 0 count index)) = Some t /\
   TimelineModel.insertTimeline timelines index None = timelines).
Proof.
  cbv zeta. unfold TimelineModel.removeTimeline, TimelineModel.getTimelineCount.
  split; [| split].
  - intro H.
    destruct (Z.ltb_spec index 0); [now split |].
    destruct (Z.leb_spec (Z.of_nat (List.length timelines)) index); [now split | lia].
  - intro H.
    destruct (Z.ltb_spec index 0); [lia |].
    destruct (Z.leb_spec (Z.of_nat (List.length timelines)) index); [lia |].
    cbn [orb fst snd].
    assert (Hn : (Z.to_nat index < List.length timelines)%nat) by lia.
    destruct (nth_error timelines (Z.to_nat index)) as [x |] eqn:E;
      [| apply nth_error_None in E; lia].
    split; [reflexivity |]. split; [discriminate |]. split.
    + rewrite removeNth_length by assumption. lia.
    + unfold TimelineModel.insertTimeline, TimelineModel.getTimelineCount.
      rewrite removeNth_length by assumption.
      assert (J : Juce.jlimitZ 0 (Z.of_nat (pred (List.length timelines))) index
                  = index).
      { unfold Juce.jlimitZ. destruct (Z.ltb_spec index 0); [lia |].
        destruct (Z.ltb_spec (Z.of_nat (pred (List.length timelines))) index); lia. }
      rewrite J. now apply removeNth_insert.
  - pose proof (jlimitZ_range 0 (Z.of_nat (List.length timelines)) index
                  ltac:(lia)) as R.
    unfold TimelineModel.insertTimeline, TimelineModel.getTimelineCount.
    set (k := Z.to_nat (Juce.jlimitZ 0 (Z.of_nat (List.length timelines)) index)).
    assert (K : (k <= List.length timelines)%nat) by (unfold k; lia).
    split; [| split; [| reflexivity]].
    + rewrite length_app. cbn [List.length].
      rewrite length_firstn, length_skipn. lia.
    + rewrite nth_error_app2 by (rewrite length_firstn; lia).
      rewrite length_firstn.
      replace (k - Nat.min k (List.length timelines))%nat with 0%nat by lia.
      reflexivity.
Qed.

Lemma remove_then_insert_timeline_witness :
  TimelineModel.insertTimeline
    (snd (TimelineModel.removeTimeline TimelineModel.initial 1)) 1
    (fst (TimelineModel.removeTimeline TimelineModel.initial 1))
  = TimelineModel.initial.
Proof.
  destruct (remove_then_insert_timeline TimelineModel.initial 1 defaultTimeline)
    as (_ & R & _).
  apply R. split; [discriminate | reflexivity].
Defined.

(** ** Undo after an edit *)

Lemma undo_after_push (st st2 : AppState) :
  isRestoring st = false ->
  undoSnapshots st2 = undoSnapshots (pushUndoState st) ->
  model (undoSnapshot st2) = map resetTransientMarkers (model st).
Proof.
  intros Hr E.
  destruct (pushUndoState_stack st Hr) as (kept & Ek & _).
  rewrite <- E in Ek.
  destruct (undoSnapshot_top st2 kept _ Ek) as (M & _).
  rewrite M. apply restoreModel_snapshot.
Qed.

Lemma cutSelectedMarkersAt_stack (st st' : AppState) (timelineIndex : Z)
    (cutSeconds : Q) :
  (0 <= timelineIndex < Z.of_nat (List.length (model st)))%Z ->
  cutSelectedMarkersAt st timelineIndex cutSeconds = Some st' ->
  undoSnapshots st' = undoSnapshots (pushUndoState st).
Proof.
  intros Hi H. unfold cutSelectedMarkersAt in H.
  destruct (Z.ltb_spec timelineIndex 0); [lia |].
  destruct (Z.leb_spec (Z.of_nat (List.length (model st))) timelineIndex); [lia |].
  cbn [orb] in H.
  destruct (nth_error (model (pushUndoState st)) (Z.to_nat timelineIndex))
    as [timeline |]; [| now injection H as <-].
  destruct (cutTargets _ _ _ _) as [| i targets]; [now injection H as <- |].
  destruct (cutMarkers _ _ _) as [ms |]; [| discriminate].
  now injection H as <-.
Qed.

(** One undo takes back a cut, the deletion of a timeline and the deletion
    of the selected markers: the model is again what it was before the
    operation, rendered buffers included (the two members of a marker that
    snapshots do not record apart). *)
Theorem undo_takes_back_edit (st : AppState) (timelineIndex : Z)
    (cutSeconds : Q) :
  isRestoring st = false ->
  (forall st',
     (0 <= timelineIndex < Z.of_nat (List.length (model st)))%Z ->
     cutSelectedMarkersAt st timelineIndex cutSeconds = Some st' ->
     model (undoSnapshot st') = map resetTransientMarkers (model st))
  /\
  (model st <> [] ->
     model (undoSnapshot (deleteSelectedTimeline st))
     = map resetTransientMarkers (model st))
  /\
  (selectedMarkers st <> [] ->
     model (undoSnapshot (deleteSelectedMarkers st))
     = map resetTransientMarkers (model st)).
Proof.
  intro Hr. split; [| split].
  - intros st' Hi H. apply undo_after_push; [assumption |].
    eapply cutSelectedMarkersAt_stack; eauto.
  - intro Hne. apply undo_after_push; [assumption |].
    unfold deleteSelectedTimeline, TimelineModel.getTimelineCount.
    destruct (Z.eqb_spec (Z.of_nat (List.length (model st))) 0) as [E | E].
    { destruct (model st); [contradiction | simpl in E; lia]. }
    destruct (TimelineModel.removeTimeline _ _) as [[removed |] remaining];
      [| reflexivity].
    cbv zeta. destruct (Z.of_nat _ =? 0)%Z; reflexivity.
  - intro Hne. apply undo_after_push; [assumption |].
    unfold deleteSelectedMarkers.
    destruct (selectedMarkers st); [contradiction | reflexivity].
Qed.

Lemma undo_takes_back_edit_witness :
  let buf := mkAudioBuffer 4 [[1 # 2; -1 # 4; 1 # 8; 1]] in
  let marker :=
    mkMarker 1 false 2 120 8 "/py/lead.py" [] 3 (1 # 2) "/py/lead.py" ""
             (Some buf) 2 in
  let timeline :=
    mkTimeline 120 8 4 4 0 8 1 0 1 [] [] false 1 1 [] [marker] in
  let st := mkAppState [timeline] [] false false 0 [(0%nat, 0%nat)] in
  model (undoSnapshot (deleteSelectedMarkers st))
  = map resetTransientMarkers (model st) /\
  model (deleteSelectedMarkers st) <> model st.
Proof.
  intros buf marker timeline st.
  destruct (undo_takes_back_edit st 0 2 eq_refl) as (_ & _ & U).
  split; [apply U; discriminate | discriminate].
Defined.

(** Deleting the selected timeline removes that timeline and no other, and
    leaves the selection on a timeline of the model: the one that took its
    place, or the last one.  On an empty model nothing happens. *)
Theorem deleteSelectedTimeline_result (st : AppState) :
  let index := selectedTimelineIndex st in
  let after := deleteSelectedTimeline st in
  (model st = [] -> after = st)
  /\
  ((0 <= index < Z.of_nat (List.length (model st)))%Z ->
     model after = removeNth (Z.to_nat index) (model st) /\
     Z.of_nat (List.length (model after))
     = (Z.of_nat (List.length (model st)) - 1)%Z /\
     (model after = [] -> selectedTimelineIndex after = 0%Z) /\
     (model after <> [] ->
        selectedTimelineIndex after
        = Z.min index (Z.of_nat (List.length (model after)) - 1) /\
        (0 <= selectedTimelineIndex after
           < Z.of_nat (List.length (model after)))%Z)).
Proof.
  cbv zeta. split.
  - intro E. unfold deleteSelectedTimeline, TimelineModel.getTimelineCount.
    now rewrite E.
  - intro Hi.
    assert (Hn : (Z.to_nat (selectedTimelineIndex st) < List.length (model st))%nat)
      by lia.
    assert (Ep : selectedTimelineIndex (pushUndoState st) = selectedTimelineIndex st)
      by (unfold pushUndoState; destruct (isRestoring st); reflexivity).
    unfold deleteSelectedTimeline, TimelineModel.getTimelineCount.
    destruct (Z.eqb_spec (Z.of_nat (List.length (model st))) 0); [lia |].
    cbv zeta. unfold TimelineModel.removeTimeline, TimelineModel.getTimelineCount.
    rewrite pushUndoState_model, Ep.
    destruct (Z.ltb_spec (selectedTimelineIndex st) 0); [lia |].
    destruct (Z.leb_spec (Z.of_nat (List.length (model st))) (selectedTimelineIndex st));
      [lia |].
    cbn [orb].
    destruct (nth_error (model st) (Z.to_nat (selectedTimelineIndex st))) eqn:E;
      [| apply nth_error_None in E; lia].
    unfold setSelection, setModel; cbn [model selectedTimelineIndex].
    pose proof (removeNth_length (model st) _ Hn) as L.
    destruct (Z.eqb_spec
                (Z.of_nat (List.length
                   (removeNth (Z.to_nat (selectedTimelineIndex st)) (model st)))) 0)
      as [Z0 | Z0]; cbn [model selectedTimelineIndex setSelection].
    + split; [reflexivity |]. split; [lia |]. split; [reflexivity |].
      intro Hne. destruct (removeNth _ (model st)); [contradiction | simpl in Z0; lia].
    + split; [reflexivity |]. split; [lia |].
      split; [intro E0; rewrite E0 in Z0; simpl in Z0; lia |].
      intros _. unfold selectTimeline.
      destruct (Z.eqb_spec
                  (Z.of_nat (List.length
                     (removeNth (Z.to_nat (selectedTimelineIndex st)) (model st)))) 0);
        [lia |].
      unfold Juce.jlimitZ, Juce.jminZ.
      set (c := Z.of_nat (List.length
                  (removeNth (Z.to_nat (selectedTimelineIndex st)) (model st)))) in *.
      destruct (Z.ltb_spec (c - 1) (selectedTimelineIndex st)).
      * destruct (Z.ltb_spec (c - 1) 0); [lia |].
        destruct (Z.ltb_spec (c - 1) (c - 1)); lia.
      * destruct (Z.ltb_spec (selectedTimelineIndex st) 0); [lia |].
        destruct (Z.ltb_spec (c - 1) (selectedTimelineIndex st)); lia.
Qed.

Lemma deleteSelectedTimeline_result_witness :
  let st := mkAppState TimelineModel.initial [] false false 2 [] in
  Z.of_nat (List.length (model (deleteSelectedTimeline st)))
  = (Z.of_nat (List.length (model st)) - 1)%Z /\
  selectedTimelineIndex (deleteSelectedTimeline st) = 1%Z.
Proof.
  intro st.
  destruct (deleteSelectedTimeline_result st) as (_ & R).
  destruct R as (_ & A & _ & B); [split; [discriminate | reflexivity] |].
  split; [exact A |].
  destruct B as [B _]; [discriminate | exact B].
Defined.

(** ** More on the cut *)

Lemma resizeList_all {A : Type} (fill : A) (l : list A) :
  resizeList (List.length l) fill l = l.
Proof.
  unfold resizeList. now rewrite firstn_all, Nat.sub_diag, app_nil_r.
Qed.

Lemma setSize_no_samples_again (b : AudioBuffer) :
  let b' := setSize (getNumChannels b) 0 b in
  setSize (getNumChannels b') 0 b' = b'.
Proof.
  cbv zeta.
  assert (E : forall x : AudioBuffer,
             setSize (getNumChannels x) 0 x
             = mkAudioBuffer 0 (map (fun _ => []) (channelData x))).
  { intro x. unfold setSize, getNumChannels.
    rewrite Nat2Z.id, resizeList_all. reflexivity. }
  rewrite (E b), E. cbn [channelData]. now rewrite map_map.
Qed.

Lemma toInt_Some (x y : Z) : toInt x = Some y -> y = x.
Proof.
  unfold toInt. destruct (_ && _); [now injection 1 | discriminate].
Qed.

(** Cutting a marker a second time at the same point changes nothing more:
    whatever a cut returns, the same cut returns it unchanged. *)
Theorem cut_twice_changes_nothing (cutSeconds : Q) (marker cut : Marker) :
  cutMarker cutSeconds marker = Some cut ->
  cutMarker cutSeconds cut = Some cut.
Proof.
  intro H. pose proof H as H0. unfold cutMarker in H.
  destruct (renderedBuffer marker) as [buf |] eqn:Hb;
    [| injection H as <-; exact H0].
  destruct (Qleb_spec (renderedSampleRate marker) 0) as [Hs | Hs];
    [injection H as <-; exact H0 |].
  destruct (Qleb_spec (cutSeconds - startTimeSeconds marker) 0) as [Hc | Hc].
  - cbv zeta in H. injection H as <-.
    set (b' := setSize (getNumChannels buf) 0 buf).
    unfold cutMarker.
    change (renderedBuffer (recomputeWaveform (setRenderedBuffer (Some b') marker)))
      with (Some b').
    change (renderedSampleRate
              (recomputeWaveform (setRenderedBuffer (Some b') marker)))
      with (renderedSampleRate marker).
    change (startTimeSeconds
              (recomputeWaveform (setRenderedBuffer (Some b') marker)))
      with (startTimeSeconds marker).
    destruct (Qleb_spec (renderedSampleRate marker) 0); [lra |].
    destruct (Qleb_spec (cutSeconds - startTimeSeconds marker) 0); [| lra].
    cbv zeta. unfold b'. rewrite setSize_no_samples_again. reflexivity.
  - destruct (toInt _) as [cutSample |] eqn:Ei; [| discriminate].
    cbv zeta in H.
    destruct (Z.leb_spec (numSamples buf) cutSample) as [Ht | Ht];
      [injection H as <-; exact H0 |].
    pose proof (toInt_Some _ _ Ei) as Ec.
    assert (R0 : (0 <= cutSample)%Z).
    { rewrite Ec. apply round_nonneg.
      apply Qlt_le_weak, Qmult_lt_0_compat; lra. }
    assert (J : Juce.jlimitZ 0 (numSamples buf) cutSample = cutSample).
    { unfold Juce.jlimitZ. destruct (Z.ltb_spec cutSample 0); [lia |].
      destruct (Z.ltb_spec (numSamples buf) cutSample); lia. }
    rewrite J in H.
    destruct (copyChannels_spec buf cutSample R0) as (N & _).
    set (newBuf := copyChannels buf (getNumChannels buf) cutSample) in *.
    injection H as <-.
    match goal with
    | |- cutMarker _ ?m = _ => set (m1 := m)
    end.
    unfold cutMarker.
    change (renderedBuffer m1) with (Some newBuf).
    change (renderedSampleRate m1) with (renderedSampleRate marker).
    change (startTimeSeconds m1) with (startTimeSeconds marker).
    destruct (Qleb_spec (renderedSampleRate marker) 0); [lra |].
    destruct (Qleb_spec (cutSeconds - startTimeSeconds marker) 0); [lra |].
    rewrite Ei. cbv zeta. rewrite N.
    destruct (Z.leb_spec cutSample cutSample); [reflexivity | lia].
Qed.

Lemma cut_twice_changes_nothing_witness :
  let buf := mkAudioBuffer 4 [[1 # 2; -1 # 4; 1 # 8; 1]] in
  let marker :=
    mkMarker 1 false 2 120 8 "/py/lead.py" [] 3 (1 # 2) "/py/lead.py" ""
             (Some buf) 2 in
  exists cut,
    cutMarker 2 marker = Some cut /\ cut <> marker /\
    cutMarker 2 cut = Some cut.
Proof.
  intros buf marker. eexists.
  split; [reflexivity |]. split; [discriminate |].
  apply (cut_twice_changes_nothing 2 marker). reflexivity.
Defined.

(** A cut whose sample position fits an [int] is carried out: the rendered
    marker keeps a buffer with the same channels, never longer than before,
    that is empty when the cut is at or before the marker's start and
    otherwise ends at most half a sample after the cut point. *)
Theorem cut_marker_ends_by_cut_point (cutSeconds : Q) (marker : Marker)
    (buf : AudioBuffer) :
  renderedBuffer marker = Some buf ->
  0 < renderedSampleRate marker ->
  (0 <= numSamples buf)%Z ->
  (cutSeconds - startTimeSeconds marker) * renderedSampleRate marker
    <= inject_Z INT_MAX ->
  exists cut newBuf,
    cutMarker cutSeconds marker = Some cut /\
    renderedBuffer cut = Some newBuf /\
    (0 <= numSamples newBuf <= numSamples buf)%Z /\
    getNumChannels newBuf = getNumChannels buf /\
    (cutSeconds <= startTimeSeconds marker -> numSamples newBuf = 0%Z) /\
    (startTimeSeconds marker < cutSeconds ->
       inject_Z (numSamples newBuf)
       <= (cutSeconds - startTimeSeconds marker) * renderedSampleRate marker
          + (1 # 2)).
Proof.
  intros Hb Hs Hn Hfit.
  destruct (Qlt_le_dec (startTimeSeconds marker) cutSeconds) as [Hc | Hc].
  - set (x := (cutSeconds - startTimeSeconds marker) * renderedSampleRate marker)
      in *.
    assert (Hx : 0 < x) by (apply Qmult_lt_0_compat; lra).
    assert (Er : Cmath.round x = Qfloor (x + (1 # 2))).
    { unfold Cmath.round. destruct (Qleb_spec 0 x); [reflexivity | lra]. }
    assert (Hmax : (Cmath.round x <= INT_MAX)%Z).
    { rewrite Er.
      change INT_MAX with (Qfloor (inject_Z INT_MAX + (1 # 2))).
      apply Qfloor_resp_le. lra. }
    assert (Hle : inject_Z (Cmath.round x) <= x + (1 # 2))
      by (rewrite Er; apply Qfloor_le).
    destruct (cutMarker_after_start cutSeconds marker buf Hb Hs Hc Hmax)
      as (R0 & E).
    fold x in R0, E. rewrite E.
    destruct (Z.leb_spec (numSamples buf) (Cmath.round x)) as [Ht | Ht].
    + exists marker, buf. split; [reflexivity |]. split; [assumption |].
      split; [lia |]. split; [reflexivity |]. split; [intro; lra |].
      intros _. rewrite Zle_Qle in Ht. lra.
    + assert (J : Juce.jlimitZ 0 (numSamples buf) (Cmath.round x) = Cmath.round x).
      { unfold Juce.jlimitZ. destruct (Z.ltb_spec (Cmath.round x) 0); [lia |].
        destruct (Z.ltb_spec (numSamples buf) (Cmath.round x)); lia. }
      cbv zeta. rewrite J.
      destruct (copyChannels_spec buf (Cmath.round x) R0) as (N & C & _).
      eexists. eexists. split; [reflexivity |].
      split; [reflexivity |].
      rewrite N. split; [lia |]. split; [exact C |].
      split; [intro; lra | intros _; exact Hle].
  - rewrite (cutMarker_at_or_before_start cutSeconds marker buf Hb Hs Hc).
    destruct (setSize_no_samples buf) as [S1 S2].
    eexists. eexists. split; [reflexivity |]. split; [reflexivity |].
    rewrite S1. split; [lia |]. split; [exact S2 |].
    split; [reflexivity | intro; lra].
Qed.

Lemma cut_marker_ends_by_cut_point_witness :
  let buf := mkAudioBuffer 4 [[1 # 2; -1 # 4; 1 # 8; 1]] in
  let marker :=
    mkMarker 1 false 2 120 8 "/py/lead.py" [] 3 (1 # 2) "/py/lead.py" ""
             (Some buf) 2 in
  exists cut newBuf,
    cutMarker 2 marker = Some cut /\
    renderedBuffer cut = Some newBuf /\
    (0 <= numSamples newBuf <= numSamples buf)%Z /\
    getNumChannels newBuf = getNumChannels buf /\
    (2 <= startTimeSeconds marker -> numSamples newBuf = 0%Z) /\
    (startTimeSeconds marker < 2 ->
       inject_Z (numSamples newBuf)
       <= (2 - startTimeSeconds marker) * renderedSampleRate marker + (1 # 2)).
Proof.
  intros buf marker.
  apply (cut_marker_ends_by_cut_point 2 marker buf);
    [reflexivity | reflexivity | discriminate | discriminate].
Defined.

(** ** One marker in the mix *)

Lemma ratio_in_unit (a b : Z) :
  (0 <= a)%Z -> (0 < b)%Z -> (a <= b)%Z -> 0 <= inject_Z a / inject_Z b <= 1.
Proof.
  intros Ha Hb Hab.
  assert (Qb : 0 < inject_Z b) by (change 0 with (inject_Z 0); now rewrite <- Zlt_Qlt).
  assert (Qa : 0 <= inject_Z a) by (change 0 with (inject_Z 0); now rewrite <- Zle_Qle).
  assert (Qab : inject_Z a <= inject_Z b) by now rewrite <- Zle_Qle.
  split.
  - apply Qle_shift_div_l; [assumption | lra].
  - apply Qle_shift_div_r; [assumption | lra].
Qed.

Lemma ratio_nonneg (a b : Z) :
  (0 <= a)%Z -> (0 < b)%Z -> 0 <= inject_Z a / inject_Z b.
Proof.
  intros Ha Hb.
  assert (Qb : 0 < inject_Z b) by (change 0 with (inject_Z 0); now rewrite <- Zlt_Qlt).
  assert (Qa : 0 <= inject_Z a) by (change 0 with (inject_Z 0); now rewrite <- Zle_Qle).
  apply Qle_shift_div_l; [assumption | lra].
Qed.

Lemma fadeAt_range (marker : Marker) (buf : AudioBuffer) (sourceSample : Z)
    (fade : Q) :
  (0 <= sourceSample <= numSamples buf)%Z ->
  fadeAt marker buf sourceSample = Some fade ->
  0 <= fade <= 1.
Proof.
  intros Hs H. unfold fadeAt in H.
  destruct (toInt (Cmath.round (fadeInSeconds marker * _))) as [fi |];
    [| discriminate].
  destruct (toInt (Cmath.round (fadeOutSeconds marker * _))) as [fo |];
    [| discriminate].
  cbv zeta in H. injection H as <-.
  set (f1 := if (0 <? fi)%Z && (sourceSample <? fi)%Z
             then inject_Z sourceSample / inject_Z fi else 1).
  assert (F1 : 0 <= f1 <= 1).
  { unfold f1. destruct (Z.ltb_spec 0 fi); cbn [andb]; [| lra].
    destruct (Z.ltb_spec sourceSample fi); [| lra].
    apply ratio_in_unit; lia. }
  destruct (Z.ltb_spec 0 fo); cbn [andb]; [| exact F1].
  destruct (Z.ltb_spec (numSamples buf - fo) sourceSample); [| exact F1].
  pose proof (ratio_nonneg (numSamples buf - sourceSample) fo ltac:(lia) ltac:(lia)).
  unfold Juce.jmin. destruct (Qltb_spec (inject_Z (numSamples buf - sourceSample)
                                         / inject_Z fo) f1); lra.
Qed.

(** What one rendered marker adds to the output at a local time of its
    timeline.  Before its start and from its end on it adds nothing.  Within
    its extent it adds the sample at the position [floor ((localTime - start)
    * sampleRate)], the left one also on the right for a mono buffer, each
    times the gain of its side and a fade between 0 and 1. *)
Theorem marker_in_the_mix (localTime leftGain rightGain : Q) (marker : Marker)
    (buf : AudioBuffer) (left right : Q) :
  renderedBuffer marker = Some buf ->
  0 < renderedSampleRate marker ->
  (0 <= numSamples buf)%Z ->
  mixMarker localTime leftGain rightGain marker = Some (left, right) ->
  let start := startTimeSeconds marker in
  let rate := renderedSampleRate marker in
  let finish := start + inject_Z (numSamples buf) / rate in
  (localTime < start \/ finish <= localTime -> left = 0 /\ right = 0)
  /\
  (start <= localTime < finish ->
     exists sourceSample fade,
       (0 <= sourceSample < numSamples buf)%Z /\
       inject_Z sourceSample <= (localTime - start) * rate
         < inject_Z sourceSample + 1 /\
       0 <= fade <= 1 /\
       left = getSample buf 0 sourceSample * leftGain * fade /\
       right = (if (1 <? getNumChannels buf)%Z
                then getSample buf 1 sourceSample
                else getSample buf 0 sourceSample) * rightGain * fade).
Proof.
  intros Hb Hr Hn H. cbv zeta.
  unfold mixMarker in H. rewrite Hb in H. cbv zeta in H.
  set (rel := localTime - startTimeSeconds marker) in *.
  set (rate := renderedSampleRate marker) in *.
  assert (Hq : inject_Z (numSamples buf) / rate * rate == inject_Z (numSamples buf)).
  { field. lra. }
  assert (Q0 : 0 <= inject_Z (numSamples buf))
    by (change 0 with (inject_Z 0); now rewrite <- Zle_Qle).
  assert (D0 : 0 <= inject_Z (numSamples buf) / rate)
    by (apply Qle_shift_div_l; lra).
  split.
  - intros [Hout | Hout].
    + destruct (Qltb_spec rel 0); [| unfold rel in *; lra].
      now injection H as <- <-.
    + destruct (Qltb_spec rel 0); [now injection H as <- <- |].
      assert (Hx : inject_Z (numSamples buf) <= rel * rate).
      { rewrite <- Hq. apply Qmult_le_compat_r; [unfold rel; lra | lra]. }
      destruct (toInt _) as [s |] eqn:Ei; [| discriminate].
      apply toInt_Some in Ei.
      assert (Hs : (numSamples buf <= s)%Z).
      { rewrite Ei, trunc_nonneg by lra.
        rewrite <- (Qfloor_Z (numSamples buf)). now apply Qfloor_resp_le. }
      destruct (Z.ltb_spec s 0); [lia |].
      destruct (Z.leb_spec (numSamples buf) s); [| lia].
      cbn [orb] in H. now injection H as <- <-.
  - intros [Hin1 Hin2].
    destruct (Qltb_spec rel 0); [unfold rel in *; lra |].
    assert (X0 : 0 <= rel * rate) by (apply Qmult_le_0_compat; lra).
    assert (Hx : rel * rate < inject_Z (numSamples buf)).
    { rewrite <- Hq. apply Qmult_lt_compat_r; [lra | unfold rel; lra]. }
    destruct (toInt _) as [s |] eqn:Ei; [| discriminate].
    apply toInt_Some in Ei. rewrite trunc_nonneg in Ei by assumption.
    pose proof (Qfloor_le (rel * rate)) as A.
    pose proof (Qlt_floor (rel * rate)) as B.
    rewrite inject_Z_plus in B. change (inject_Z 1) with 1 in B.
    rewrite <- Ei in A, B.
    assert (S0 : (0 <= s)%Z).
    { rewrite Ei. change 0%Z with (Qfloor 0). now apply Qfloor_resp_le. }
    assert (S1 : (s < numSamples buf)%Z).
    { rewrite Zlt_Qlt. lra. }
    destruct (Z.ltb_spec s 0); [lia |].
    destruct (Z.leb_spec (numSamples buf) s); [lia |].
    cbn [orb] in H.
    destruct (fadeAt marker buf s) as [fade |] eqn:Ef; [| discriminate].
    pose proof (fadeAt_range marker buf s fade ltac:(lia) Ef) as F.
    injection H as <- <-.
    exists s, fade. repeat split; try lia; try lra; apply F.
Qed.

Lemma marker_in_the_mix_witness :
  let buf := mkAudioBuffer 4 [[1 # 2; -1 # 4; 1 # 8; 1]] in
  let marker :=
    mkMarker 1 false 2 120 8 "/py/lead.py" [] 1 (1 # 2) "/py/lead.py" ""
             (Some buf) 2 in
  exists sourceSample fade,
    (0 <= sourceSample < numSamples buf)%Z /\
    inject_Z sourceSample <= ((3 # 2) - 1) * 2 < inject_Z sourceSample + 1 /\
    0 <= fade <= 1 /\
    (-1 # 8) = getSample buf 0 sourceSample * 1 * fade /\
    (-1 # 16) = (if (1 <? getNumChannels buf)%Z
                 then getSample buf 1 sourceSample
                 else getSample buf 0 sourceSample) * (1 # 2) * fade.
Proof.
  intros buf marker.
  destruct (marker_in_the_mix (3 # 2) 1 (1 # 2) marker buf (-1 # 8) (-1 # 16))
    as (_ & R); [reflexivity | reflexivity | discriminate | reflexivity |].
  apply R. split; [discriminate | reflexivity].
Defined.

(** ** The project document *)

Lemma getProperty_setProperty (name other : string) (v : var)
    (props : list (string * var)) :
  getProperty name (setProperty name v props) = v /\
  (other <> name ->
   getProperty other (setProperty name v props) = getProperty other props).
Proof.
  induction props as [| [n old] rest [IH1 IH2]].
  - cbn [setProperty getProperty]. rewrite String.eqb_refl. split; [reflexivity |].
    intro Hne. destruct (String.eqb_spec name other); [congruence | reflexivity].
  - cbn [setProperty]. destruct (String.eqb_spec n name) as [-> | Hn].
    + cbn [getProperty]. rewrite String.eqb_refl. split; [reflexivity |].
      intro Hne. destruct (String.eqb_spec name other); [congruence | reflexivity].
    + cbn [getProperty]. destruct (String.eqb_spec n name); [contradiction |].
      split; [exact IH1 |]. intro Hne.
      destruct (String.eqb_spec n other); [reflexivity | now apply IH2].
Qed.

Lemma deserializePoints_serialize (c : Convert.VarConversions)
    (ps : list AutomationPoint) :
  Convert.conversionsExact c ->
  deserializePoints c (map serializePoint ps) = ps.
Proof.
  intros (Cd & Ci & _). induction ps as [| [i t v] rest IH]; [reflexivity |].
  cbn [map]. unfold serializePoint at 1.
  cbv beta iota zeta delta [setProperty String.eqb Ascii.eqb Bool.eqb].
  cbn [deserializePoints].
  cbv beta iota zeta delta [getProperty String.eqb Ascii.eqb Bool.eqb].
  cbn [id timeSeconds value]. now rewrite IH, Ci, !Cd.
Qed.

Lemma deserializeMarkers_serialize (c : Convert.VarConversions)
    (ms : list Marker) :
  Convert.conversionsExact c ->
  deserializeMarkers c (map serializeMarker ms) = map reloadedMarker ms.
Proof.
  intros (Cd & Ci & _ & Cs). induction ms as [| m rest IH]; [reflexivity |].
  cbn [map]. unfold serializeMarker at 1.
  cbv beta iota zeta delta [setProperty String.eqb Ascii.eqb Bool.eqb].
  cbn [deserializeMarkers].
  cbv beta iota zeta delta [getProperty String.eqb Ascii.eqb Bool.eqb].
  rewrite IH, Ci, !Cd, Cs. reflexivity.
Qed.

Lemma deserializeTimeline_serialize (c : Convert.VarConversions) (t : Timeline) :
  Convert.conversionsExact c ->
  exists tObj,
    serializeTimeline t = VObject tObj /\
    deserializeTimeline c tObj = reloadedTimeline t.
Proof.
  intro Hc. pose proof Hc as (Cd & Ci & Cb & _).
  eexists. split; [reflexivity |].
  unfold deserializeTimeline.
  cbv beta iota zeta delta
      [getProperty setProperty String.eqb Ascii.eqb Bool.eqb arrayItems].
  rewrite !Cd, !Ci, !Cb, !(deserializePoints_serialize c _ Hc),
    (deserializeMarkers_serialize c _ Hc), map_map.
  rewrite (map_ext _ (fun x => x)) by (intro x; apply Cd).
  rewrite map_id. reflexivity.
Qed.

Lemma deserializeTimelines_serialize (c : Convert.VarConversions)
    (tls : list Timeline) :
  Convert.conversionsExact c ->
  deserializeTimelines c (map serializeTimeline tls) = map reloadedTimeline tls.
Proof.
  intro Hc. induction tls as [| t rest IH]; [reflexivity |].
  cbn [map]. destruct (deserializeTimeline_serialize c t Hc) as (o & E & D).
  rewrite E. cbn [deserializeTimelines]. now rewrite D, IH.
Qed.

Lemma loadJobsForMarkers_length (existsAsFile : string -> bool) (sr : Q)
    (t : nat) (timeline : Timeline) (ms : list Marker) :
  forall (i : nat) (pool : PythonRenderer.ThreadPool),
  List.length (loadJobsForMarkers existsAsFile sr t i timeline ms pool)
  = (List.length pool
     + List.length (filter (fun m => existsAsFile (pythonFile m)) ms))%nat.
Proof.
  induction ms as [| m rest IH]; intros i pool.
  - cbn [loadJobsForMarkers filter List.length]. lia.
  - cbn [loadJobsForMarkers filter]. rewrite IH.
    destruct (existsAsFile (pythonFile m)); cbn [List.length]; [| lia].
    unfold PythonRenderer.renderMarker, PythonRenderer.addJob.
    rewrite length_app. cbn [List.length]. lia.
Qed.

Lemma loadJobsForTimelines_length (existsAsFile : string -> bool) (sr : Q)
    (tls : list Timeline) :
  forall (t : nat) (pool : PythonRenderer.ThreadPool),
  List.length (loadJobsForTimelines existsAsFile sr t tls pool)
  = (List.length pool
     + List.length (filter (fun m => existsAsFile (pythonFile m))
                           (flat_map markers tls)))%nat.
Proof.
  induction tls as [| timeline rest IH]; intros t pool.
  - cbn [loadJobsForTimelines flat_map filter List.length]. lia.
  - cbn [loadJobsForTimelines flat_map]. rewrite IH, loadJobsForMarkers_length.
    rewrite filter_app, length_app. lia.
Qed.

Lemma deserializeMarkers_fresh (c : Convert.VarConversions) (items : list var) :
  Forall (fun m => renderedBuffer m = None /\ waveform m = [] /\
                   isDragging m = false /\ renderedWavFile m = EmptyString)
         (deserializeMarkers c items).
Proof.
  induction items as [| v rest IH]; [constructor |].
  destruct v; cbn [deserializeMarkers]; try exact IH.
  constructor; [| exact IH]. repeat split; reflexivity.
Qed.

Lemma deserializeTimelines_fresh (c : Convert.VarConversions) (items : list var) :
  Forall (fun t => nextAutomationId t = 1%Z /\
                   Forall (fun m => renderedBuffer m = None /\ waveform m = [] /\
                                    isDragging m = false /\
                                    renderedWavFile m = EmptyString)
                          (markers t))
         (deserializeTimelines c items) /\
  (List.length (deserializeTimelines c items) <= List.length items)%nat.
Proof.
  induction items as [| v rest [IH1 IH2]]; [split; [constructor | reflexivity] |].
  destruct v; cbn [deserializeTimelines List.length];
    try (split; [exact IH1 | lia]).
  split; [| lia]. constructor; [| exact IH1].
  split; [reflexivity |]. apply deserializeMarkers_fresh.
Qed.

(** Loading a document either fails and changes nothing, or succeeds: it
    fails exactly when the root is no object or has no array "timelines".
    After a successful load the first timeline is selected, the undo history
    is the one from before, there are at most as many timelines as elements
    in the array, each with its automation id counter at 1 and all its
    markers unrendered, and one render job was submitted for each marker
    whose source file exists. *)
Theorem load_document (c : Convert.VarConversions) (existsAsFile : string -> bool)
    (deviceSampleRate : Q) (rootVar : var) (st : AppState)
    (pool : PythonRenderer.ThreadPool) :
  let result :=
    deserializeModel c existsAsFile deviceSampleRate rootVar st pool in
  let ok := fst (fst result) in
  let after := snd (fst result) in
  (ok = true <->
   exists rootObj timelineArray,
     rootVar = VObject rootObj /\
     getProperty "timelines" rootObj = VArray timelineArray /\
     (List.length (model after) <= List.length timelineArray)%nat)
  /\
  (ok = false -> after = st /\ snd result = pool)
  /\
  (ok = true ->
     selectedTimelineIndex after = 0%Z /\
     undoSnapshots after = undoSnapshots st /\
     Forall (fun t => nextAutomationId t = 1%Z /\
                      Forall (fun m => renderedBuffer m = None /\
                                       waveform m = [] /\
                                       isDragging m = false /\
                                       renderedWavFile m = EmptyString)
                             (markers t))
            (model after) /\
     List.length (snd result)
     = (List.length pool
        + List.length (filter (fun m => existsAsFile (pythonFile m))
                              (flat_map markers (model after))))%nat).
Proof.
  cbv zeta. unfold deserializeModel.
  destruct rootVar as [| | | | | | rootObj];
    try (split; [split; [discriminate | intros (o & a & E & _); discriminate] |
                 split; [now split | discriminate]]).
  destruct (getProperty "timelines" rootObj) as [| | | | | timelineArray |] eqn:Et;
    try (split; [split; [discriminate
                        | intros (o & a & E & E' & _); injection E as <-;
                          rewrite Et in E'; discriminate] |
                 split; [now split | discriminate]]).
  cbv zeta. cbn [fst snd].
  unfold setSelection, setModel;
    cbn [model selectedTimelineIndex undoSnapshots selectedMarkers].
  destruct (deserializeTimelines_fresh c timelineArray) as [F L].
  split; [| split].
  - split; [| reflexivity]. intros _.
    exists rootObj, timelineArray. now repeat split.
  - discriminate.
  - intros _. split.
    + unfold selectTimeline, TimelineModel.getTimelineCount.
      destruct (Z.eqb_spec
                  (Z.of_nat (List.length (deserializeTimelines c timelineArray))) 0);
        [reflexivity |].
      unfold Juce.jlimitZ. cbn [Z.ltb Z.compare].
      destruct (Z.ltb_spec
                  (Z.of_nat (List.length (deserializeTimelines c timelineArray)) - 1)
                  0); [lia | reflexivity].
    + split; [reflexivity |]. split; [exact F |].
      apply loadJobsForTimelines_length.
Qed.


Lemma load_document_witness :
  let st := mkAppState TimelineModel.initial [] false false 2 [] in
  let c :=
    Convert.mkVarConversions
      (fun v => match v with VDouble x => x | _ => 0 end)
      (fun v => match v with VInt n => n | _ => 0%Z end)
      (fun v => match v with VBool b => b | _ => false end)
      (fun v => match v with VString s => s | _ => EmptyString end) in
  snd (fst (deserializeModel c (fun _ => true) 44100 (VArray []) st [])) = st /\
  snd (deserializeModel c (fun _ => true) 44100 (VArray []) st []) = [].
Proof.
  intros st c.
  destruct (load_document c (fun _ => true) 44100 (VArray []) st [])
    as (_ & R & _).
  apply R. reflexivity.
Defined.

(** A saved project loads back.  With conversions that return a value from
    the variant of its own type, loading what [serializeModel] wrote succeeds
    and gives the saved timelines, in order, each with its tempo, duration,
    meter, view, volume, pan, zooms, repeat markers and automation points and
    with the start, source file, fades and render bars of every marker; what
    is not written - the rendered audio, the waveform and the render stamp
    of a marker, and the counter of automation ids - is as in a new marker
    and a new timeline. *)
Theorem saved_project_loads_back (c : Convert.VarConversions)
    (existsAsFile : string -> bool) (deviceSampleRate : Q)
    (timelines : list Timeline) (st : AppState)
    (pool : PythonRenderer.ThreadPool) :
  Convert.conversionsExact c ->
  let result :=
    deserializeModel c existsAsFile deviceSampleRate
      (serializeModel timelines) st pool in
  fst (fst result) = true /\
  model (snd (fst result)) = map reloadedTimeline timelines /\
  snd result
  = loadJobsForTimelines existsAsFile deviceSampleRate 0
      (map reloadedTimeline timelines) pool.
Proof.
  intro Hc. cbv zeta. unfold serializeModel, deserializeModel.
  destruct (getProperty_setProperty "timelines" "timelines"
              (VArray (map serializeTimeline timelines)) []) as [E _].
  rewrite E. cbv zeta. cbn [fst snd].
  rewrite (deserializeTimelines_serialize c timelines Hc).
  repeat split.
Qed.

Lemma saved_project_loads_back_witness :
  let c :=
    Convert.mkVarConversions
      (fun v => match v with VDouble x => x | _ => 0 end)
      (fun v => match v with VInt n => n | _ => 0%Z end)
      (fun v => match v with VBool b => b | _ => false end)
      (fun v => match v with VString s => s | _ => EmptyString end) in
  let marker :=
    mkMarker 1 false 2 120 8 "/py/lead.py" [1; 1 # 2] 1 (1 # 2) "/py/lead.py"
             "/tmp/a.wav" (Some (mkAudioBuffer 2 [[1; 1 # 2]])) 2 in
  let timeline :=
    mkTimeline 90 10 3 4 1 5 (1 # 2) (-1 # 4) 3
      [mkAutomationPoint 1 0 1; mkAutomationPoint 2 4 (1 # 2)] []
      true 2 1 [2; 6] [marker] in
  model (snd (fst (deserializeModel c (fun _ => false) 44100
                     (serializeModel [timeline])
                     (mkAppState [] [] false false 0 []) [])))
  = map reloadedTimeline [timeline].
Proof.
  intros c marker timeline.
  apply (saved_project_loads_back c (fun _ => false) 44100 [timeline]
           (mkAppState [] [] false false 0 []) []).
  repeat split.
Defined.

(** ** The render duration of a marker *)

Lemma jmaxZ_one (n : Z) : (1 <= Juce.jmaxZ 1 n)%Z /\ ((1 <= n)%Z -> Juce.jmaxZ 1 n = n).
Proof.
  unfold Juce.jmaxZ. destruct (Z.ltb_spec 1 n); lia.
Qed.

(** A marker with render bars, or one whose source is an "alva_" file, is
    rendered for a whole number of bars of its timeline (one bar for the
    "alva_" file without render bars), never for less than a hundredth of a
    second, whatever the duration of the timeline: changing that duration
    changes neither the render duration nor the answer of the rerender test.
    With tempo, beat unit and beats per bar at least 1 the length is
    [bars * beatsPerBar * 240 / (tempo * beatUnit)] seconds.  Any other
    marker is rendered for the duration of the timeline. *)
Theorem render_duration_in_bars (timeline : Timeline) (marker : Marker)
    (otherDuration : Q) :
  let rendered := getRenderDurationSecondsForMarker timeline marker in
  let bars := if (0 <? renderBars marker)%Z then renderBars marker else 1%Z in
  ((0 < renderBars marker)%Z \/ isAlvaSynthFile (pythonFile marker) = true ->
     (1 # 100) <= rendered /\
     getRenderDurationSecondsForMarker
       (setDurationSeconds otherDuration timeline) marker = rendered /\
     needsRerender (setDurationSeconds otherDuration timeline) marker
     = needsRerender timeline marker /\
     (1 <= tempoBpm timeline -> (1 <= beatUnit timeline)%Z ->
      (1 <= beatsPerBar timeline)%Z ->
      let length :=
        inject_Z bars * inject_Z (beatsPerBar timeline) * 240
        / (tempoBpm timeline * inject_Z (beatUnit timeline)) in
      (1 # 100) <= length -> rendered == length))
  /\
  ((renderBars marker <= 0)%Z -> isAlvaSynthFile (pythonFile marker) = false ->
     rendered = durationSeconds timeline).
Proof.
  cbv zeta. split.
  - intro H.
    assert (E : getRenderDurationSecondsForMarker
                  (setDurationSeconds otherDuration timeline) marker
                = getRenderDurationSecondsForMarker timeline marker).
    { unfold getRenderDurationSecondsForMarker, setDurationSeconds.
      cbn [tempoBpm beatUnit beatsPerBar durationSeconds].
      destruct (Z.ltb_spec 0 (renderBars marker)); [reflexivity |].
      destruct H as [H | H]; [lia | now rewrite H]. }
    split; [| split; [exact E | split]].
    + unfold getRenderDurationSecondsForMarker.
      destruct (Z.ltb_spec 0 (renderBars marker)).
      * destruct (jmax_cases (1 # 100)
                    (60 / Juce.jmax 1 (tempoBpm timeline)
                     * (4 / inject_Z (Juce.jmaxZ 1 (beatUnit timeline)))
                     * inject_Z (Juce.jmaxZ 1 (beatsPerBar timeline))
                     * inject_Z (renderBars marker))) as [[? ->] | [? ->]]; lra.
      * destruct H as [H | H]; [lia |]. rewrite H.
        destruct (jmax_cases (1 # 100)
                    (60 / Juce.jmax 1 (tempoBpm timeline)
                     * (4 / inject_Z (Juce.jmaxZ 1 (beatUnit timeline)))
                     * inject_Z (Juce.jmaxZ 1 (beatsPerBar timeline))))
          as [[? ->] | [? ->]]; lra.
    + unfold needsRerender. rewrite E. reflexivity.
    + intros Ht Hu Hb.
      destruct (jmaxZ_one (beatUnit timeline)) as [_ Eu].
      destruct (jmaxZ_one (beatsPerBar timeline)) as [_ Eb].
      assert (Et : Juce.jmax 1 (tempoBpm timeline) == tempoBpm timeline).
      { destruct (jmax_cases 1 (tempoBpm timeline)) as [[? ->] | [? ->]]; lra. }
      assert (Qu : 1 <= inject_Z (beatUnit timeline))
        by (change 1 with (inject_Z 1); now rewrite <- Zle_Qle).
      assert (Bar : forall k,
                60 / Juce.jmax 1 (tempoBpm timeline)
                * (4 / inject_Z (beatUnit timeline))
                * inject_Z (beatsPerBar timeline) * inject_Z k
                == inject_Z k * inject_Z (beatsPerBar timeline) * 240
                   / (tempoBpm timeline * inject_Z (beatUnit timeline))).
      { intro k. rewrite Et. field. split; lra. }
      unfold getRenderDurationSecondsForMarker.
      rewrite (Eu Hu), (Eb Hb).
      destruct (Z.ltb_spec 0 (renderBars marker)); intro Hlen.
      * pose proof (Bar (renderBars marker)) as B.
        destruct (jmax_cases (1 # 100)
                    (60 / Juce.jmax 1 (tempoBpm timeline)
                     * (4 / inject_Z (beatUnit timeline))
                     * inject_Z (beatsPerBar timeline)
                     * inject_Z (renderBars marker))) as [[? ->] | [? ->]]; lra.
      * destruct H as [H | H]; [lia |]. rewrite H.
        pose proof (Bar 1%Z) as B. change (inject_Z 1) with 1 in *.
        destruct (jmax_cases (1 # 100)
                    (60 / Juce.jmax 1 (tempoBpm timeline)
                     * (4 / inject_Z (beatUnit timeline))
                     * inject_Z (beatsPerBar timeline)))
          as [[? ->] | [? ->]]; lra.
  - intros Hb Ha. unfold getRenderDurationSecondsForMarker.
    destruct (Z.ltb_spec 0 (renderBars marker)); [lia |]. now rewrite Ha.
Qed.

Lemma render_duration_in_bars_witness :
  let marker :=
    mkMarker 1 false 2 0 0 "" [] 0 0 "/py/lead.py" "" None 0 in
  let timeline :=
    mkTimeline 120 8 4 4 0 8 1 0 1 [] [] false 1 1 [] [marker] in
  getRenderDurationSecondsForMarker timeline marker == 4 /\
  needsRerender (setDurationSeconds 30 timeline) marker
  = needsRerender timeline marker.
Proof.
  intros marker timeline.
  destruct (render_duration_in_bars timeline marker 30) as [R _].
  destruct R as (_ & _ & N & L); [left; reflexivity |].
  split; [| exact N].
  rewrite L; [reflexivity | discriminate | discriminate | discriminate
              | discriminate].
Defined.

(** ** Several levels of undo *)

Lemma pushUndoState_isRestoring (st : AppState) :
  isRestoring st = false -> isRestoring (pushUndoState st) = false.
Proof.
  intro H. unfold pushUndoState. rewrite H.
  unfold setUndoSnapshots, markProjectDirty. cbn [isRestoring]. exact H.
Qed.

Lemma edits_then_undos_stack (fs : list (list Timeline -> list Timeline)) :
  forall st,
  isRestoring st = false ->
  (List.length (undoSnapshots st) + List.length fs <= 10)%nat ->
  let after :=
    runHistory (flat_map (fun f => [PushUndo; Edit f]) fs
                ++ repeat Undo (List.length fs)) st in
  undoSnapshots after = undoSnapshots st /\ isRestoring after = false /\
  (fs <> [] -> model after = map resetTransientMarkers (model st)).
Proof.
  induction fs as [| f rest IH]; intros st Hr Hlen; cbv zeta.
  - cbn. split; [reflexivity |]. split; [assumption | now intros []].
  - cbn [flat_map List.length app repeat]. rewrite repeat_cons.
    unfold runHistory. cbn [fold_left historyStep].
    set (st1 := setModel (f (model (pushUndoState st))) (pushUndoState st)).
    rewrite app_assoc, fold_left_app. cbn [fold_left historyStep].
    destruct (pushUndoState_stack st Hr) as (kept & Ek & Kk).
    destruct (Nat.leb_spec 10 (List.length (undoSnapshots st)));
      [cbn [List.length] in Hlen; lia |].
    subst kept.
    assert (S1 : undoSnapshots st1 = undoSnapshots (pushUndoState st))
      by reflexivity.
    assert (R1 : isRestoring st1 = false)
      by (apply (pushUndoState_isRestoring st Hr)).
    destruct (IH st1 R1) as (Es & _ & _).
    { rewrite S1, Ek, length_app. cbn [List.length] in *. lia. }
    unfold runHistory in Es.
    match goal with
    | |- context [undoSnapshot ?x] => set (mid := x) in *
    end.
    assert (Em : undoSnapshots mid = undoSnapshots st ++ [snapshotModel (model st)])
      by (rewrite Es, S1; exact Ek).
    destruct (undoSnapshot_top mid _ _ Em) as (M & U & R).
    split; [exact U |]. split; [exact R |].
    intros _. rewrite M. apply restoreModel_snapshot.
Qed.

(** Edits that each push an undo state first are taken back by as many
    undos: as long as the history does not grow beyond ten snapshots, the
    model is again the one from before the first edit (the two unrecorded
    members of a marker apart) and the history is as it was. *)
Theorem undos_take_back_edits (fs : list (list Timeline -> list Timeline))
    (st : AppState) :
  isRestoring st = false ->
  (List.length (undoSnapshots st) + List.length fs <= 10)%nat ->
  fs <> [] ->
  let after :=
    runHistory (flat_map (fun f => [PushUndo; Edit f]) fs
                ++ repeat Undo (List.length fs)) st in
  model after = map resetTransientMarkers (model st) /\
  undoSnapshots after = undoSnapshots st.
Proof.
  intros Hr Hlen Hne.
  destruct (edits_then_undos_stack fs st Hr Hlen) as (S & _ & M).
  split; [now apply M | exact S].
Qed.

Lemma undos_take_back_edits_witness :
  let st := mkAppState TimelineModel.initial [] false false 0 [] in
  let fs := [@tl Timeline; fun tls => tls ++ tls; fun _ => []] in
  model (runHistory (flat_map (fun f => [PushUndo; Edit f]) fs
                     ++ repeat Undo (List.length fs)) st)
  = map resetTransientMarkers (model st).
Proof.
  intros st fs.
  apply (undos_take_back_edits fs st);
    [reflexivity | cbn; lia | discriminate].
Defined.

(** ** The beat unit menu *)

(** The five menu entries and the beat units 1, 2, 4, 8 and 16 correspond:
    an entry gives a unit that gives the entry back, and only these units
    come back from their entry.  Every other unit shows as the entry of 4
    and every other entry reads as 4. *)
Theorem beat_unit_menu (beatUnit' id' : Z) :
  ((1 <= id' <= 5)%Z -> beatUnitToComboId (comboIdToBeatUnit id') = id') /\
  (comboIdToBeatUnit (beatUnitToComboId beatUnit') = beatUnit' <->
   In beatUnit' [1; 2; 4; 8; 16]%Z) /\
  (1 <= beatUnitToComboId beatUnit' <= 5)%Z /\
  In (comboIdToBeatUnit id') [1; 2; 4; 8; 16]%Z.
Proof.
  assert (U : In (comboIdToBeatUnit id') [1; 2; 4; 8; 16]%Z).
  { unfold comboIdToBeatUnit.
    repeat match goal with
           | |- context [match ?x with _ => _ end] => destruct x
           end; cbn; tauto. }
  assert (V : forall u, In (comboIdToBeatUnit (beatUnitToComboId u))
                           [1; 2; 4; 8; 16]%Z).
  { intro u. unfold beatUnitToComboId.
    repeat match goal with
           | |- context [match ?x with _ => _ end] => destruct x
           end; cbn; tauto. }
  split; [| split; [| split; [| exact U]]].
  - intro H.
    assert (C : (id' = 1 \/ id' = 2 \/ id' = 3 \/ id' = 4 \/ id' = 5)%Z) by lia.
    destruct C as [-> | [-> | [-> | [-> | ->]]]]; reflexivity.
  - split.
    + intro E. rewrite <- E. apply V.
    + cbn [In]. intros [<- | [<- | [<- | [<- | [<- | []]]]]]; reflexivity.
  - unfold beatUnitToComboId.
    repeat match goal with
           | |- context [match ?x with _ => _ end] => destruct x
           end; lia.
Qed.

Lemma beat_unit_menu_witness :
  beatUnitToComboId (comboIdToBeatUnit 4) = 4%Z.
Proof.
  destruct (beat_unit_menu 8 4) as [R _]. apply R. lia.
Defined.

(** ** What a cut and a deletion touch *)

Lemma nth_error_replaceNth_neq {A : Type} (l : list A) :
  forall n k x, n <> k -> nth_error (replaceNth n x l) k = nth_error l k.
Proof.
  induction l as [| a l IH]; intros [| n] [| k] x H; simpl; auto;
    try contradiction.
Qed.

Lemma nth_error_replaceNth_eq {A : Type} (l : list A) :
  forall n x, (n < List.length l)%nat -> nth_error (replaceNth n x l) n = Some x.
Proof.
  induction l as [| a l IH]; intros [| n] x H; simpl in *; try lia; auto.
  apply IH. lia.
Qed.

Lemma cutMarkers_untouched (cutSeconds : Q) (targets : list nat) :
  forall (ms ms' : list Marker) (i : nat),
  cutMarkers cutSeconds targets ms = Some ms' ->
  ~ In i targets ->
  nth_error ms' i = nth_error ms i.
Proof.
  induction targets as [| j rest IH]; intros ms ms' i H Hi.
  - now injection H as <-.
  - cbn [cutMarkers] in H.
    assert (Hj : j <> i) by (intro E; apply Hi; left; exact E).
    assert (Hr : ~ In i rest) by (intro E; apply Hi; right; exact E).
    destruct (nth_error ms j) as [marker |]; [| now apply IH].
    destruct (cutMarker cutSeconds marker) as [marker' |]; [| discriminate].
    rewrite (IH _ _ i H Hr). now apply nth_error_replaceNth_neq.
Qed.

Lemma pushUndoState_selection (st : AppState) :
  selectedMarkers (pushUndoState st) = selectedMarkers st /\
  selectedTimelineIndex (pushUndoState st) = selectedTimelineIndex st.
Proof.
  unfold pushUndoState. destruct (isRestoring st); split; reflexivity.
Qed.

(** A cut touches its targets only.  With the timeline index outside the
    model nothing changes, the history included.  Otherwise every other
    timeline is untouched, and on the cut timeline every marker that is not
    a target - not selected on this timeline or, when none is selected
    there, not met by the cut point - is the marker it was.  The selection
    stays as it was. *)
Theorem cut_touches_only_targets (st st' : AppState) (timelineIndex : Z)
    (cutSeconds : Q) :
  cutSelectedMarkersAt st timelineIndex cutSeconds = Some st' ->
  ((timelineIndex < 0 \/ Z.of_nat (List.length (model st)) <= timelineIndex)%Z ->
     st' = st)
  /\
  (forall k, Z.of_nat k <> timelineIndex ->
     nth_error (model st') k = nth_error (model st) k)
  /\
  (forall timeline,
     (0 <= timelineIndex)%Z ->
     nth_error (model st) (Z.to_nat timelineIndex) = Some timeline ->
     exists timeline',
       nth_error (model st') (Z.to_nat timelineIndex) = Some timeline' /\
       forall i,
         ~ In i (cutTargets (Z.to_nat timelineIndex) cutSeconds timeline
                            (selectedMarkers st)) ->
         nth_error (markers timeline') i = nth_error (markers timeline) i)
  /\
  selectedMarkers st' = selectedMarkers st /\
  selectedTimelineIndex st' = selectedTimelineIndex st.
Proof.
  intro H. unfold cutSelectedMarkersAt in H.
  destruct (pushUndoState_selection st) as [Ps Pi].
  destruct (Z.ltb_spec timelineIndex 0) as [Hneg | Hnn].
  { cbn [orb] in H. injection H as <-.
    split; [reflexivity |]. split; [reflexivity |].
    split; [intros; lia | now split]. }
  destruct (Z.leb_spec (Z.of_nat (List.length (model st))) timelineIndex)
    as [Hbig | Hin].
  { cbn [orb] in H. injection H as <-.
    split; [reflexivity |]. split; [reflexivity |].
    split; [| now split].
    intros timeline _ Hn.
    assert (Hlt : (Z.to_nat timelineIndex < List.length (model st))%nat)
      by (apply nth_error_Some; congruence).
    lia. }
  cbn [orb] in H. cbv zeta in H.
  rewrite pushUndoState_model, Ps in H.
  split; [intro; lia |].
  destruct (nth_error (model st) (Z.to_nat timelineIndex)) as [timeline |] eqn:En.
  2:{ apply nth_error_None in En. lia. }
  destruct (cutTargets (Z.to_nat timelineIndex) cutSeconds timeline
              (selectedMarkers st)) as [| i0 targets] eqn:Et.
  { injection H as <-. rewrite pushUndoState_model.
    split; [reflexivity |]. split; [| now split].
    intros timeline0 _ E0. injection E0 as <-.
    exists timeline. now split. }
  destruct (cutMarkers cutSeconds (i0 :: targets) (markers timeline))
    as [ms |] eqn:Ec; [| discriminate].
  injection H as <-.
  unfold setModel; cbn [model selectedMarkers selectedTimelineIndex].
  split; [| split; [| now split]].
  - intros k Hk. apply nth_error_replaceNth_neq. lia.
  - intros timeline0 _ E0. injection E0 as <-.
    exists (setMarkers ms timeline). split.
    + apply nth_error_replaceNth_eq. lia.
    + intros i Hi. cbn [markers setMarkers]. rewrite Et in Hi.
      now apply (cutMarkers_untouched cutSeconds (i0 :: targets)).
Qed.

Lemma cut_touches_only_targets_witness :
  let buf := mkAudioBuffer 4 [[1 # 2; -1 # 4; 1 # 8; 1]] in
  let marker :=
    mkMarker 1 false 2 120 8 "/py/lead.py" [] 1 (1 # 2) "/py/lead.py" ""
             (Some buf) 2 in
  let other :=
    mkMarker 0 false 0 120 8 "/py/bass.py" [] 0 0 "/py/bass.py" ""
             (Some buf) 2 in
  let timeline :=
    mkTimeline 120 8 4 4 0 8 1 0 1 [] [] false 1 1 [] [marker; other] in
  let st := mkAppState [timeline; timeline] [] false false 0 [(0%nat, 0%nat)] in
  exists st',
    cutSelectedMarkersAt st 0 2 = Some st' /\
    nth_error (model st') 1 = nth_error (model st) 1 /\
    model st' <> model st.
Proof.
  intros buf marker other timeline st. eexists.
  split; [reflexivity |].
  split; [| discriminate].
  match goal with
  | |- nth_error (model ?s) _ = _ =>
      destruct (cut_touches_only_targets st s 0 2 eq_refl) as (_ & R & _)
  end.
  apply R. discriminate.
Defined.

Lemma unselectedFrom_filter (t : nat) (selected : list PythonRenderer.MarkerRef)
    (ms : list Marker) :
  forall i,
  unselectedFrom t i selected ms
  = map snd
      (filter (fun p => negb (existsb (PythonRenderer.markerRef_eqb (t, fst p))
                                      selected))
              (combine (seq i (List.length ms)) ms)).
Proof.
  induction ms as [| m rest IH]; intro i; [reflexivity |].
  cbn [unselectedFrom List.length seq combine filter fst].
  destruct (existsb (PythonRenderer.markerRef_eqb (t, i)) selected);
    cbn [negb map snd]; now rewrite IH.
Qed.

Lemma unselectedFrom_none (t : nat) (selected : list PythonRenderer.MarkerRef)
    (ms : list Marker) :
  (forall i, ~ In (t, i) selected) ->
  forall i, unselectedFrom t i selected ms = ms.
Proof.
  intro Hn. induction ms as [| m rest IH]; intro i; [reflexivity |].
  cbn [unselectedFrom].
  destruct (existsb (PythonRenderer.markerRef_eqb (t, i)) selected) eqn:E.
  - apply existsb_exists in E. destruct E as (r & Hr & Er).
    apply markerRef_eqb_eq in Er. subst r. now apply Hn in Hr.
  - now rewrite IH.
Qed.

Lemma deleteSelectedFrom_nth (selected : list PythonRenderer.MarkerRef)
    (tls : list Timeline) :
  forall t0 k timeline,
  nth_error tls k = Some timeline ->
  nth_error (deleteSelectedFrom t0 selected tls) k
  = Some (setMarkers (unselectedFrom (t0 + k) 0 selected (markers timeline))
                     timeline).
Proof.
  induction tls as [| a rest IH]; intros t0 [| k] timeline H; try discriminate.
  - cbn in H. injection H as <-. cbn [deleteSelectedFrom nth_error].
    now rewrite Nat.add_0_r.
  - cbn [deleteSelectedFrom nth_error] in *.
    rewrite (IH (S t0) k timeline H). do 3 f_equal. lia.
Qed.

Lemma deleteSelectedFrom_length (selected : list PythonRenderer.MarkerRef)
    (tls : list Timeline) :
  forall t0, List.length (deleteSelectedFrom t0 selected tls) = List.length tls.
Proof.
  induction tls as [| a rest IH]; intro t0; [reflexivity |].
  cbn [deleteSelectedFrom List.length]. now rewrite IH.
Qed.

(** Deleting the selected markers removes the markers at the selected
    places and no other: each timeline keeps its fields and, in their order,
    the markers whose place is not selected; a timeline without a selected
    marker is untouched.  The selection is empty afterwards.  With nothing
    selected nothing happens. *)
Theorem deleteSelectedMarkers_result (st : AppState) :
  let after := deleteSelectedMarkers st in
  let selected := selectedMarkers st in
  (selected = [] -> after = st)
  /\
  (selected <> [] ->
     selectedMarkers after = [] /\
     selectedTimelineIndex after = selectedTimelineIndex st /\
     List.length (model after) = List.length (model st) /\
     forall t timeline,
       nth_error (model st) t = Some timeline ->
       exists timeline',
         nth_error (model after) t = Some timeline' /\
         timeline' = setMarkers (markers timeline') timeline /\
         markers timeline'
         = map snd
             (filter (fun p => negb (existsb (PythonRenderer.markerRef_eqb
                                                (t, fst p)) selected))
                     (combine (seq 0 (List.length (markers timeline)))
                              (markers timeline))) /\
         (List.length (markers timeline') <= List.length (markers timeline))%nat /\
         ((forall i, ~ In (t, i) selected) -> timeline' = timeline)).
Proof.
  cbv zeta. unfold deleteSelectedMarkers.
  destruct (selectedMarkers st) as [| r rest] eqn:Es.
  - split; [reflexivity | now intros []].
  - split; [discriminate |]. intros _.
    destruct (pushUndoState_selection st) as [_ Pi].
    unfold setSelection, setModel;
      cbn [model selectedMarkers selectedTimelineIndex].
    rewrite pushUndoState_model.
    split; [reflexivity |]. split; [exact Pi |].
    split; [apply deleteSelectedFrom_length |].
    intros t timeline Ht. eexists.
    split; [apply (deleteSelectedFrom_nth _ _ 0 t timeline Ht) |].
    cbn [Nat.add markers setMarkers].
    split; [reflexivity |]. split; [apply unselectedFrom_filter |]. split.
    + rewrite unselectedFrom_filter, length_map.
      etransitivity; [apply filter_length_le |].
      rewrite length_combine, length_seq. lia.
    + intro Hn. rewrite (unselectedFrom_none t (r :: rest) _ Hn).
      now destruct timeline.
Qed.

Lemma deleteSelectedMarkers_result_witness :
  let marker :=
    mkMarker 1 false 2 120 8 "/py/lead.py" [] 1 (1 # 2) "/py/lead.py" ""
             None 0 in
  let other :=
    mkMarker 0 false 0 120 8 "/py/bass.py" [] 0 0 "/py/bass.py" "" None 0 in
  let timeline :=
    mkTimeline 120 8 4 4 0 8 1 0 1 [] [] false 1 1 [] [marker; other] in
  let st := mkAppState [timeline; timeline] [] false false 0 [(0%nat, 0%nat)] in
  selectedMarkers (deleteSelectedMarkers st) = [] /\
  List.length (model (deleteSelectedMarkers st)) = List.length (model st).
Proof.
  intros marker other timeline st.
  destruct (deleteSelectedMarkers_result st) as (_ & R).
  destruct R as (A & _ & B & _); [discriminate |].
  split; [exact A | exact B].
Defined.

(** ** Copy and paste *)

(** The pasted copy of a marker.  It starts on the timeline, at the local
    time of the playhead plus the distance the marker had from the anchor of
    the copy when that is on the timeline; it has the source file, the
    rendered audio, the sample rate, the waveform, the fades and the render
    bars of the marker, and is neither being dragged nor tied to a rendered
    file.  Its stamp holds the tempo of the timeline, the path of the source
    and the render duration of a marker with this source and no render bars:
    a copy without render bars is not rendered again by the next sweep. *)
Theorem pasted_copy_of_marker (timeline : Timeline) (localTime anchor : Q)
    (timelineIndex : Z) (m noBars : Marker) :
  0 <= durationSeconds timeline ->
  pythonFile noBars = pythonFile m -> renderBars noBars = 0%Z ->
  let pasted := pastedMarker timeline localTime (copyMarker timelineIndex anchor m) in
  let target := localTime + (startTimeSeconds m - anchor) in
  0 <= startTimeSeconds pasted <= durationSeconds timeline /\
  (0 <= target <= durationSeconds timeline -> startTimeSeconds pasted = target) /\
  (pythonFile pasted = pythonFile m /\
   renderedBuffer pasted = renderedBuffer m /\
   renderedSampleRate pasted = renderedSampleRate m /\
   waveform pasted = waveform m /\
   fadeInSeconds pasted = fadeInSeconds m /\
   fadeOutSeconds pasted = fadeOutSeconds m /\
   renderBars pasted = renderBars m) /\
  (isDragging pasted = false /\ renderedWavFile pasted = EmptyString) /\
  (lastRenderedTempoBpm pasted = tempoBpm timeline /\
   lastRenderedPythonPath pasted = pythonFile m /\
   lastRenderedDurationSeconds pasted
   = getRenderDurationSecondsForMarker timeline noBars) /\
  ((renderBars m <= 0)%Z -> needsRerender timeline pasted = false).
Proof.
  intros Hd Hf Hb. cbv zeta.
  assert (Es : lastRenderedDurationSeconds
                 (pastedMarker timeline localTime (copyMarker timelineIndex anchor m))
               = getRenderDurationSecondsForMarker timeline noBars).
  { change (lastRenderedDurationSeconds
              (pastedMarker timeline localTime (copyMarker timelineIndex anchor m)))
      with (getRenderDurationSecondsForMarker timeline
              (mkMarker
                 (Juce.jlimit 0 (durationSeconds timeline)
                    (localTime + (startTimeSeconds m - anchor)))
                 false 0 0 0 EmptyString [] 0 0 (pythonFile m) EmptyString None
                 (renderedSampleRate m))).
    unfold getRenderDurationSecondsForMarker. cbn [renderBars pythonFile].
    rewrite Hf, Hb. reflexivity. }
  split; [| split; [| split; [| split; [| split]]]].
  - apply (jlimit_range 0 (durationSeconds timeline)). exact Hd.
  - intro Ht.
    change (startTimeSeconds
              (pastedMarker timeline localTime (copyMarker timelineIndex anchor m)))
      with (Juce.jlimit 0 (durationSeconds timeline)
              (localTime + (startTimeSeconds m - anchor))).
    apply jlimit_inside; apply Ht.
  - repeat split; try reflexivity.
    change (renderedBuffer
              (pastedMarker timeline localTime (copyMarker timelineIndex anchor m)))
      with (copyRenderedBuffer (copyRenderedBuffer (renderedBuffer m))).
    now rewrite !copyRenderedBuffer_same.
  - split; reflexivity.
  - split; [reflexivity |]. split; [reflexivity | exact Es].
  - intro Hle. unfold needsRerender. rewrite Es.
    change (lastRenderedPythonPath
              (pastedMarker timeline localTime (copyMarker timelineIndex anchor m)))
      with (pythonFile m).
    change (pythonFile
              (pastedMarker timeline localTime (copyMarker timelineIndex anchor m)))
      with (pythonFile m).
    change (lastRenderedTempoBpm
              (pastedMarker timeline localTime (copyMarker timelineIndex anchor m)))
      with (tempoBpm timeline).
    unfold getFullPathName. rewrite String.eqb_refl.
    rewrite (approximatelyEqual_same (tempoBpm timeline) (tempoBpm timeline))
      by reflexivity.
    assert (Ed : getRenderDurationSecondsForMarker timeline
                   (pastedMarker timeline localTime
                      (copyMarker timelineIndex anchor m))
                 = getRenderDurationSecondsForMarker timeline noBars).
    { unfold getRenderDurationSecondsForMarker.
      change (renderBars
                (pastedMarker timeline localTime
                   (copyMarker timelineIndex anchor m)))
        with (renderBars m).
      change (pythonFile
                (pastedMarker timeline localTime
                   (copyMarker timelineIndex anchor m)))
        with (pythonFile m).
      rewrite Hf, Hb.
      destruct (Z.ltb_spec 0 (renderBars m)); [lia | reflexivity]. }
    rewrite Ed.
    rewrite (approximatelyEqual_same _ _ (Qeq_refl _)). reflexivity.
Qed.

Lemma pasted_copy_of_marker_witness :
  let buf := mkAudioBuffer 4 [[1 # 2; -1 # 4; 1 # 8; 1]] in
  let m :=
    mkMarker 3 true 2 120 4 "/py/lead.py" [1] 1 (1 # 2) "/py/lead.py"
             "/tmp/a.wav" (Some buf) 2 in
  let noBars := mkMarker 0 false 0 0 0 "" [] 0 0 "/py/lead.py" "" None 0 in
  let timeline :=
    mkTimeline 120 8 4 4 0 8 1 0 1 [] [] false 1 1 [] [m] in
  let pasted := pastedMarker timeline 5 (copyMarker 0 1 m) in
  0 <= startTimeSeconds pasted <= durationSeconds timeline /\
  lastRenderedDurationSeconds pasted
  = getRenderDurationSecondsForMarker timeline noBars /\
  needsRerender timeline pasted = true.
Proof.
  intros buf m noBars timeline pasted.
  destruct (pasted_copy_of_marker timeline 5 1 0 m noBars)
    as (A & _ & _ & _ & (_ & _ & B) & _);
    [discriminate | reflexivity | reflexivity |].
  split; [exact A |]. split; [exact B | reflexivity].
Defined.

Lemma pasteMarkers_spec (deviceSampleRate : Q) (t : nat) (localTime : Q)
    (copiedMarkers : list Clipboard.CopiedMarkerData) :
  forall (timeline : Timeline) (pool : PythonRenderer.ThreadPool),
  fst (pasteMarkers deviceSampleRate t localTime copiedMarkers timeline pool)
  = setMarkers (markers timeline
                ++ map (pastedMarker timeline localTime) copiedMarkers)
               timeline /\
  List.length
    (snd (pasteMarkers deviceSampleRate t localTime copiedMarkers timeline pool))
  = (List.length pool
     + List.length
         (filter (fun c => match Clipboard.renderedBuffer c with
                           | Some _ => false
                           | None => true
                           end) copiedMarkers))%nat.
Proof.
  induction copiedMarkers as [| copied rest IH]; intros timeline pool.
  - cbn [pasteMarkers fst snd map filter List.length].
    rewrite app_nil_r. split; [now destruct timeline | lia].
  - cbn [pasteMarkers]. cbv zeta.
    set (marker := pastedMarker timeline localTime copied).
    set (timeline1 := setMarkers (markers timeline ++ [marker]) timeline).
    assert (Eb : renderedBuffer marker = Clipboard.renderedBuffer copied).
    { change (renderedBuffer marker)
        with (copyRenderedBuffer (Clipboard.renderedBuffer copied)).
      apply copyRenderedBuffer_same. }
    match goal with
    | |- context [pasteMarkers _ _ _ rest timeline1 ?p] =>
        destruct (IH timeline1 p) as [I1 I2]
    end.
    rewrite I1, I2. split.
    + change (pastedMarker timeline1 localTime)
        with (pastedMarker timeline localTime).
      unfold timeline1. cbn [markers setMarkers map].
      rewrite <- app_assoc. reflexivity.
    + cbn [filter]. rewrite Eb.
      destruct (Clipboard.renderedBuffer copied); cbn [List.length]; [lia |].
      unfold PythonRenderer.renderMarker, PythonRenderer.addJob.
      rewrite length_app. cbn [List.length]. lia.
Qed.

(** Pasting appends the copies to one timeline: the timeline the first copy
    came from or, when that is no timeline of the model, the selected one.
    The timeline keeps its fields and its markers and gets one pasted marker
    for each copy, in their order, placed from the local time of the
    playhead; the other timelines are untouched; that timeline is selected;
    one render is requested for each copy without rendered audio; and one
    undo gives the model from before the paste.  When neither index is a
    timeline of the model, neither the model nor the pool changes. *)
Theorem paste_appends_copies (deviceSampleRate playheadSeconds : Q)
    (front : Clipboard.CopiedMarkerData)
    (others : list Clipboard.CopiedMarkerData) (st : AppState)
    (pool : PythonRenderer.ThreadPool) :
  let copiedMarkers := front :: others in
  let count := Z.of_nat (List.length (model st)) in
  let fromCopy := Clipboard.timelineIndex front in
  let target :=
    if (fromCopy <? 0)%Z || (count <=? fromCopy)%Z
    then selectedTimelineIndex st else fromCopy in
  let result :=
    pasteCopiedMarkerAtPlayhead deviceSampleRate playheadSeconds copiedMarkers
      st pool in
  let after := fst result in
  ((target < 0 \/ count <= target)%Z ->
     model after = model st /\ snd result = pool)
  /\
  (forall timeline,
     (0 <= target < count)%Z ->
     nth_error (model st) (Z.to_nat target) = Some timeline ->
     let localTime := getLoopedLocalTime playheadSeconds timeline in
     nth_error (model after) (Z.to_nat target)
     = Some (setMarkers
               (markers timeline
                ++ map (pastedMarker timeline localTime) copiedMarkers)
               timeline) /\
     (forall k, k <> Z.to_nat target ->
        nth_error (model after) k = nth_error (model st) k) /\
     selectedTimelineIndex after = target /\
     List.length (snd result)
     = (List.length pool
        + List.length
            (filter (fun c => match Clipboard.renderedBuffer c with
                              | Some _ => false
                              | None => true
                              end) copiedMarkers))%nat /\
     (isRestoring st = false ->
      model (undoSnapshot after) = map resetTransientMarkers (model st))).
Proof.
  cbv zeta. unfold pasteCopiedMarkerAtPlayhead.
  destruct (pushUndoState_selection st) as [Ps Pi].
  unfold TimelineModel.getTimelineCount.
  rewrite pushUndoState_model, Pi.
  set (count := Z.of_nat (List.length (model st))).
  set (target := if (Clipboard.timelineIndex front <? 0)%Z
                    || (count <=? Clipboard.timelineIndex front)%Z
                 then selectedTimelineIndex st
                 else Clipboard.timelineIndex front).
  cbv zeta. fold target. split.
  - intro Hout.
    destruct (Z.ltb_spec target 0); cbn [orb fst snd];
      [split; [apply pushUndoState_model | reflexivity] |].
    destruct (Z.leb_spec count target); [| lia].
    cbn [fst snd]. split; [apply pushUndoState_model | reflexivity].
  - intros timeline Hin Hn.
    destruct (Z.ltb_spec target 0); [lia |].
    destruct (Z.leb_spec count target); [lia |].
    cbn [orb]. rewrite Hn. cbn [fst snd].
    destruct (pasteMarkers_spec deviceSampleRate (Z.to_nat target)
                (getLoopedLocalTime playheadSeconds timeline)
                (front :: others) timeline pool) as [P1 P2].
    rewrite P1.
    unfold setSelection, setModel;
      cbn [model selectedTimelineIndex undoSnapshots].
    split; [apply nth_error_replaceNth_eq; unfold count in *; lia |].
    split; [intros k Hk; apply nth_error_replaceNth_neq; congruence |].
    split.
    + unfold selectTimeline. destruct (Z.eqb_spec count 0); [lia |].
      unfold Juce.jlimitZ. destruct (Z.ltb_spec target 0); [lia |].
      destruct (Z.ltb_spec (count - 1) target); lia.
    + split; [exact P2 |].
      intro Hr. apply undo_after_push; [exact Hr | reflexivity].
Qed.

Lemma paste_appends_copies_witness :
  let m :=
    mkMarker 3 true 2 120 4 "/py/lead.py" [1] 1 (1 # 2) "/py/lead.py"
             "/tmp/a.wav" None 2 in
  let timeline :=
    mkTimeline 120 8 4 4 0 8 1 0 1 [] [] false 1 1 [] [m] in
  let st := mkAppState [timeline; timeline] [] false false 1 [] in
  let result :=
    pasteCopiedMarkerAtPlayhead 44100 5 [copyMarker 0 3 m] st [] in
  nth_error (model (fst result)) 0
  = Some (setMarkers
            (markers timeline
             ++ map (pastedMarker timeline (getLoopedLocalTime 5 timeline))
                    [copyMarker 0 3 m])
            timeline) /\
  List.length (snd result) = 1%nat.
Proof.
  intros m timeline st result.
  destruct (paste_appends_copies 44100 5 (copyMarker 0 3 m) [] st [])
    as (_ & R).
  destruct (R timeline) as (A & _ & _ & B & _);
    [split; [discriminate | reflexivity] | reflexivity |].
  split; [exact A | exact B].
Defined.
